(** * A streaming rewriting proxy for Cloudflare Workers: embedding and properties

    The repository holds three generations of one Worker:
    - [src/index.js]: the minimal pass-through dispatcher;
    - the unnamed middle variant (module [Middle] below): header sanitizer
      as a pure function, 404 on unknown paths, opaque-response guard;
    - [src/worker.js] (module [Worker] below): srcset, inline style, meta
      refresh and CSS rewriting, in-place header sanitizer.

    JavaScript strings are sequences of UTF-16 code units and are modelled as
    [list N].  Built-ins of the language (encodeURIComponent,
    decodeURIComponent, String.prototype.split, trim, replace, ...) follow
    ECMA-262; platform classes (URL, Headers, Response) follow the WHATWG URL
    and Fetch standards. *)

From Stdlib Require Import List NArith ZArith Bool Ascii String Lia Arith.
Import ListNotations.

Local Open Scope N_scope.

(** ** Completions: how a JavaScript evaluation ends *)

(** The values the code can throw. *)
Inductive thrown : Type :=
| URIError
| TypeError.

(** [Normal v]: the evaluation returned [v]; [Throw e]: it threw [e];
    [Unmodelled]: the input leaves the fragment of the platform that this
    development models (nothing is claimed about the run). *)
Inductive completion (A : Type) : Type :=
| Normal (a : A)
| Throw (e : thrown)
| Unmodelled.

Arguments Normal {A} a.
Arguments Throw {A} e.
Arguments Unmodelled {A}.

Definition bind {A B : Type} (c : completion A) (k : A -> completion B)
  : completion B :=
  match c with
  | Normal a => k a
  | Throw e => Throw e
  | Unmodelled => Unmodelled
  end.

Declare Scope js_scope.
Delimit Scope js_scope with js_m.
Notation "'let*' x ':=' c 'in' k" := (bind c (fun x => k))
  (at level 10, x name, c at level 100, k at level 200) : js_scope.
Local Open Scope js_scope.

(** [try { c } catch { h }] *)
Definition try_catch {A : Type} (c : completion A) (h : thrown -> completion A)
  : completion A :=
  match c with
  | Throw e => h e
  | other => other
  end.

(** Monadic map over a list, left to right (Array.prototype.map with a
    callback that may throw). *)
Fixpoint mapM {A B : Type} (f : A -> completion B) (l : list A)
  : completion (list B) :=
  match l with
  | [] => Normal []
  | x :: r =>
      let* y := f x in
      let* ys := mapM f r in
      Normal (y :: ys)
  end.

(** ** Strings *)

Definition jsstring : Type := list N.

Definition ch (a : ascii) : N := N_of_ascii a.

(** A literal of the source. *)
Definition js (s : string) : jsstring := map ch (list_ascii_of_string s).

Definition jsstring_eq_dec : forall a b : jsstring, {a = b} + {a <> b} :=
  list_eq_dec N.eq_dec.

Fixpoint jseqb (a b : jsstring) : bool :=
  match a, b with
  | [], [] => true
  | x :: a', y :: b' => (x =? y) && jseqb a' b'
  | _, _ => false
  end.

(** String.prototype.startsWith *)
Fixpoint startsWith (s p : jsstring) {struct p} : bool :=
  match p with
  | [] => true
  | c :: p' =>
      match s with
      | [] => false
      | d :: s' => (c =? d) && startsWith s' p'
      end
  end.

(** String.prototype.includes *)
Fixpoint includes (s p : jsstring) : bool :=
  startsWith s p ||
  match s with
  | [] => false
  | _ :: s' => includes s' p
  end.

(** String.prototype.slice(n) for [0 <= n]. *)
Definition slice (s : jsstring) (n : nat) : jsstring := skipn n s.

(** Array.prototype.join *)
Fixpoint join (sep : jsstring) (l : list jsstring) : jsstring :=
  match l with
  | [] => []
  | [x] => x
  | x :: r => x ++ sep ++ join sep r
  end.

(** ** UTF-16 and UTF-8 *)

Definition isLeadingSurrogate (c : N) : bool := (0xD800 <=? c) && (c <=? 0xDBFF).
Definition isTrailingSurrogate (c : N) : bool := (0xDC00 <=? c) && (c <=? 0xDFFF).

(** UTF16SurrogatePairToCodePoint *)
Definition UTF16SurrogatePairToCodePoint (lead trail : N) : N :=
  (lead - 0xD800) * 0x400 + (trail - 0xDC00) + 0x10000.

(** UTF16EncodeCodePoint *)
Definition UTF16EncodeCodePoint (cp : N) : jsstring :=
  if cp <=? 0xFFFF then [cp]
  else [ (cp - 0x10000) / 0x400 + 0xD800 ; (cp - 0x10000) mod 0x400 + 0xDC00 ].

(** The UTF-8 transformation of a code point (RFC 3629). *)
Definition utf8_encode (cp : N) : list N :=
  if cp <? 0x80 then [cp]
  else if cp <? 0x800 then [0xC0 + cp / 0x40; 0x80 + cp mod 0x40]
  else if cp <? 0x10000 then
    [0xE0 + cp / 0x1000; 0x80 + (cp / 0x40) mod 0x40; 0x80 + cp mod 0x40]
  else
    [0xF0 + cp / 0x40000; 0x80 + (cp / 0x1000) mod 0x40;
     0x80 + (cp / 0x40) mod 0x40; 0x80 + cp mod 0x40].

Definition isContinuation (b : N) : bool := (0x80 <=? b) && (b <? 0xC0).

(** The inverse transformation with the validity conditions of RFC 3629: the
    continuation octets are [10xxxxxx], the encoding is the shortest one, the
    code point is no surrogate and at most U+10FFFF. *)
Definition utf8_decode (octets : list N) : option N :=
  match octets with
  | [b0] => if b0 <? 0x80 then Some b0 else None
  | [b0; b1] =>
      let cp := (b0 - 0xC0) * 0x40 + (b1 - 0x80) in
      if (0xC0 <=? b0) && (b0 <? 0xE0) && isContinuation b1 && (0x80 <=? cp)
      then Some cp else None
  | [b0; b1; b2] =>
      let cp := (b0 - 0xE0) * 0x1000 + (b1 - 0x80) * 0x40 + (b2 - 0x80) in
      if (0xE0 <=? b0) && (b0 <? 0xF0) && isContinuation b1 && isContinuation b2
         && (0x800 <=? cp) && negb ((0xD800 <=? cp) && (cp <=? 0xDFFF))
      then Some cp else None
  | [b0; b1; b2; b3] =>
      let cp := (b0 - 0xF0) * 0x40000 + (b1 - 0x80) * 0x1000
                + (b2 - 0x80) * 0x40 + (b3 - 0x80) in
      if (0xF0 <=? b0) && (b0 <? 0xF8) && isContinuation b1 && isContinuation b2
         && isContinuation b3 && (0x10000 <=? cp) && (cp <=? 0x10FFFF)
      then Some cp else None
  | _ => None
  end.

(** A Unicode scalar value. *)
Definition isScalar (cp : N) : Prop :=
  cp < 0x110000 /\ ~ (0xD800 <= cp <= 0xDFFF).

(** ** Hexadecimal octets *)

Definition hexDigit (d : N) : N :=
  if d <? 10 then ch "0" + d else ch "A" + (d - 10).

Definition hexValue (c : N) : option N :=
  if (ch "0" <=? c) && (c <=? ch "9") then Some (c - ch "0")
  else if (ch "A" <=? c) && (c <=? ch "F") then Some (c - ch "A" + 10)
  else if (ch "a" <=? c) && (c <=? ch "f") then Some (c - ch "a" + 10)
  else None.

(** ParseHexOctet *)
Definition ParseHexOctet (h1 h2 : N) : option N :=
  match hexValue h1, hexValue h2 with
  | Some a, Some b => Some (16 * a + b)
  | _, _ => None
  end.

(** ["%XX"], upper case. *)
Definition percentOctet (b : N) : jsstring :=
  [ch "%"; hexDigit (b / 16); hexDigit (b mod 16)].

(** ** encodeURIComponent and decodeURIComponent (ECMA-262, 19.2.6) *)

Definition isAsciiUpper (c : N) : bool := (ch "A" <=? c) && (c <=? ch "Z").
Definition isAsciiLower (c : N) : bool := (ch "a" <=? c) && (c <=? ch "z").
Definition isAsciiDigit (c : N) : bool := (ch "0" <=? c) && (c <=? ch "9").
Definition isAsciiAlpha (c : N) : bool := isAsciiUpper c || isAsciiLower c.
Definition isAsciiAlnum (c : N) : bool := isAsciiAlpha c || isAsciiDigit c.

Definition mem (c : N) (set : jsstring) : bool := existsb (N.eqb c) set.

(** The always-unescaped set: ASCII word characters and [-.!~*'()]. *)
Definition alwaysUnescaped (c : N) : bool :=
  isAsciiAlnum c || mem c (js "_-.!~*'()").

(** Encode(string, extraUnescaped) with an empty [extraUnescaped]: code units
    of the unescaped set are copied, every other code point is written as the
    percent-escapes of its UTF-8 octets; an unpaired surrogate throws. *)
Fixpoint Encode (s : jsstring) : completion jsstring :=
  match s with
  | [] => Normal []
  | C :: rest =>
      if alwaysUnescaped C then
        let* R := Encode rest in Normal (C :: R)
      else if isTrailingSurrogate C then Throw URIError
      else if isLeadingSurrogate C then
        match rest with
        | second :: rest' =>
            if isTrailingSurrogate second then
              let cp := UTF16SurrogatePairToCodePoint C second in
              let* R := Encode rest' in
              Normal (flat_map percentOctet (utf8_encode cp) ++ R)
            else Throw URIError
        | [] => Throw URIError
        end
      else
        let* R := Encode rest in
        Normal (flat_map percentOctet (utf8_encode C) ++ R)
  end.

Definition encodeURIComponent (s : jsstring) : completion jsstring := Encode s.

(** The number of leading 1 bits of an octet. *)
Definition leadingOnes (B : N) : nat :=
  if B <? 0x80 then 0
  else if B <? 0xC0 then 1
  else if B <? 0xE0 then 2
  else if B <? 0xF0 then 3
  else if B <? 0xF8 then 4
  else 5.

(** Step 4.c.vii.4 of Decode: read [j] further escapes [%XX]. *)
Fixpoint continuationOctets (j : nat) (s : jsstring)
  : option (list N * jsstring) :=
  match j with
  | O => Some ([], s)
  | S j' =>
      match s with
      | p :: h1 :: h2 :: s' =>
          if p =? ch "%" then
            match ParseHexOctet h1 h2 with
            | Some b =>
                match continuationOctets j' s' with
                | Some (bs, s'') => Some (b :: bs, s'')
                | None => None
                end
            | None => None
            end
          else None
      | _ => None
      end
  end.

(** Decode(string, preserveEscapeSet) with an empty [preserveEscapeSet].  The
    index [k] of the standard is the suffix still to be read; [fuel] bounds
    the number of iterations and [String.length] is always enough. *)
Fixpoint Decode (fuel : nat) (s : jsstring) : completion jsstring :=
  match fuel with
  | O => match s with [] => Normal [] | _ => Unmodelled end
  | S fuel' =>
      match s with
      | [] => Normal []
      | C :: rest =>
          if C =? ch "%" then
            match rest with
            | h1 :: h2 :: rest' =>
                match ParseHexOctet h1 h2 with
                | None => Throw URIError
                | Some B =>
                    match leadingOnes B with
                    | O => let* R := Decode fuel' rest' in Normal (B :: R)
                    | S O => Throw URIError
                    | S (S (S (S (S _)))) => Throw URIError
                    | S j =>
                        match continuationOctets j rest' with
                        | None => Throw URIError
                        | Some (bs, rest'') =>
                            match utf8_decode (B :: bs) with
                            | None => Throw URIError
                            | Some V =>
                                let* R := Decode fuel' rest'' in
                                Normal (UTF16EncodeCodePoint V ++ R)
                            end
                        end
                    end
                end
            | _ => Throw URIError
            end
          else
            let* R := Decode fuel' rest in Normal (C :: R)
      end
  end.

Definition decodeURIComponent (s : jsstring) : completion jsstring :=
  Decode (List.length s) s.

(** String.prototype.isWellFormed: every surrogate is part of a pair (and
    every element is a 16-bit code unit). *)
Fixpoint isWellFormed (s : jsstring) : bool :=
  match s with
  | [] => true
  | C :: rest =>
      if isTrailingSurrogate C then false
      else if isLeadingSurrogate C then
        match rest with
        | second :: rest' => isTrailingSurrogate second && isWellFormed rest'
        | [] => false
        end
      else (C <? 0x10000) && isWellFormed rest
  end.

(** ** The platform's URL class (WHATWG URL Standard)

    [new URL(input, base)] is supplied by the runtime.  The model below is
    the basic URL parser of the standard, written as a recursive descent over
    the input instead of a pointer-driven state machine; each function names
    the parser state it stands for.  It covers the fragment used by the
    Worker: every scheme but [file], hosts that are ASCII domains or opaque
    hosts.  The cases left out (the [file] scheme, IPv4 and IPv6 literals,
    percent-encoded or non-ASCII domains, punycode labels, [blob:] origins,
    spaces in opaque paths) end in [Unmodelled], never in a made-up answer. *)

Module URL.

Inductive Path : Type :=
| Opaque (p : jsstring)
| Segments (l : list jsstring).

Record t : Type := mk {
  scheme : jsstring;
  username : jsstring;
  password : jsstring;
  host : option jsstring;
  port : option N;
  path : Path;
  query : option jsstring;
  fragment : option jsstring
}.

(** *** Code points *)

(** Conversion of a JavaScript string to a scalar value string: surrogate
    pairs are combined, unpaired surrogates become U+FFFD. *)
Fixpoint toUSV (s : jsstring) : list N :=
  match s with
  | [] => []
  | C :: rest =>
      if isLeadingSurrogate C then
        match rest with
        | second :: rest' =>
            if isTrailingSurrogate second
            then UTF16SurrogatePairToCodePoint C second :: toUSV rest'
            else 0xFFFD :: toUSV rest
        | [] => [0xFFFD]
        end
      else if isTrailingSurrogate C then 0xFFFD :: toUSV rest
      else C :: toUSV rest
  end.

Definition isC0ControlOrSpace (c : N) : bool := c <=? 0x20.
Definition isTabOrNewline (c : N) : bool :=
  (c =? 0x09) || (c =? 0x0A) || (c =? 0x0D).

Fixpoint dropWhile (p : N -> bool) (l : list N) : list N :=
  match l with
  | [] => []
  | c :: r => if p c then dropWhile p r else l
  end.

Definition dropWhileEnd (p : N -> bool) (l : list N) : list N :=
  rev (dropWhile p (rev l)).

(** The longest prefix without a code point of [stop], and what follows
    (starting with the stopping code point, if any). *)
Fixpoint break (stop : N -> bool) (l : list N) : list N * list N :=
  match l with
  | [] => ([], [])
  | c :: r =>
      if stop c then ([], l)
      else let (a, b) := break stop r in (c :: a, b)
  end.

(** Strict splitting on the code points of [sep]. *)
Fixpoint splitOn (sep : N -> bool) (l : list N) : list (list N) :=
  match l with
  | [] => [[]]
  | c :: r =>
      if sep c then [] :: splitOn sep r
      else match splitOn sep r with
           | seg :: segs => (c :: seg) :: segs
           | [] => [[c]]
           end
  end.

Definition asciiLower (c : N) : N := if isAsciiUpper c then c + 0x20 else c.

(** ASCII case-insensitive equality with a lower-case literal. *)
Definition eqNoCase (s lit : jsstring) : bool := jseqb (map asciiLower s) lit.

(** *** Percent-encode sets *)

Definition inC0ControlSet (c : N) : bool := (c <=? 0x1F) || (0x7E <? c).
Definition inFragmentSet (c : N) : bool :=
  inC0ControlSet c || mem c (0x20 :: 34 :: js "<>`").
Definition inQuerySet (c : N) : bool :=
  inC0ControlSet c || mem c (0x20 :: 34 :: js "#<>").
Definition inSpecialQuerySet (c : N) : bool := inQuerySet c || (c =? ch "'").
Definition inPathSet (c : N) : bool := inQuerySet c || mem c (js "?^`{}").
Definition inUserinfoSet (c : N) : bool := inPathSet c || mem c (js "/:;=@[\]|").

(** UTF-8 percent-encode a code point using a percent-encode set. *)
Definition percentEncode (set : N -> bool) (c : N) : jsstring :=
  if set c then flat_map percentOctet (utf8_encode c) else [c].

Definition percentEncodeAll (set : N -> bool) (s : list N) : jsstring :=
  flat_map (percentEncode set) s.

(** *** Schemes *)

Definition specialSchemes : list (jsstring * option N) :=
  [ (js "ftp", Some 21); (js "file", None); (js "http", Some 80);
    (js "https", Some 443); (js "ws", Some 80); (js "wss", Some 443) ].

Definition isSpecial (scheme : jsstring) : bool :=
  existsb (fun e => jseqb scheme (fst e)) specialSchemes.

Fixpoint lookupPort (scheme : jsstring) (l : list (jsstring * option N))
  : option N :=
  match l with
  | [] => None
  | (s, p) :: r => if jseqb scheme s then p else lookupPort scheme r
  end.

Definition defaultPort (scheme : jsstring) : option N :=
  lookupPort scheme specialSchemes.

Definition isSchemeChar (c : N) : bool := isAsciiAlnum c || mem c (js "+-.").

(** Scheme start state and scheme state: an ASCII letter, then letters,
    digits, [+], [-] and [.] up to a colon.  The result is the lower-cased
    scheme and the input after the colon; [None] sends the parser to the no
    scheme state. *)
Fixpoint schemeTail (l : list N) : option (jsstring * list N) :=
  match l with
  | [] => None
  | c :: r =>
      if c =? ch ":" then Some ([], r)
      else if isSchemeChar c then
        match schemeTail r with
        | Some (s, rest) => Some (asciiLower c :: s, rest)
        | None => None
        end
      else None
  end.

Definition scanScheme (l : list N) : option (jsstring * list N) :=
  match l with
  | c :: r =>
      if isAsciiAlpha c then
        match schemeTail r with
        | Some (s, rest) => Some (asciiLower c :: s, rest)
        | None => None
        end
      else None
  | [] => None
  end.

(** *** Hosts *)

Definition isForbiddenHost (c : N) : bool :=
  mem c (0x00 :: 0x09 :: 0x0A :: 0x0D :: 0x20 :: js "#/:<>?@[\]^|").

Definition isForbiddenDomain (c : N) : bool :=
  isForbiddenHost c || (c <=? 0x1F) || (c =? ch "%") || (c =? 0x7F).

Definition isDot (c : N) : bool := c =? ch ".".

Definition startsWithXn (label : list N) : bool :=
  eqNoCase (firstn 4 label) (js "xn--").

(** The label that the ends-in-a-number checker inspects: the last one, after
    one trailing empty label is dropped. *)
Definition lastLabel (domain : list N) : list N :=
  match rev (splitOn isDot domain) with
  | [] :: l :: _ => l
  | l :: _ => l
  | [] => []
  end.

Definition startsWithDigit (l : list N) : bool :=
  match l with
  | c :: _ => isAsciiDigit c
  | [] => false
  end.

(** The host parser.  For a domain the standard percent-decodes the input
    and runs domain-to-ASCII, which on an ASCII input without [xn--] labels is
    ASCII lower-casing; an IPv6 literal, a percent sign, a code point beyond
    ASCII, a punycode label or a last label that may be an IPv4 number leave
    the model. *)
Definition hostParse (input : list N) (isOpaque : bool) : completion jsstring :=
  if startsWith input (js "[") then Unmodelled
  else if isOpaque then
    if existsb isForbiddenHost input then Throw TypeError
    else Normal (percentEncodeAll inC0ControlSet input)
  else if existsb (fun c => (c =? ch "%") || (0x7F <? c)) input then Unmodelled
  else if existsb startsWithXn (splitOn isDot input) then Unmodelled
  else
    let asciiDomain := map asciiLower input in
    if existsb isForbiddenDomain asciiDomain then Throw TypeError
    else if startsWithDigit (lastLabel asciiDomain) then Unmodelled
    else Normal asciiDomain.

(** Host state: the buffer up to a colon outside square brackets, and the
    text after that colon when there is one. *)
Fixpoint breakHost (insideBrackets : bool) (l : list N)
  : list N * option (list N) :=
  match l with
  | [] => ([], None)
  | c :: r =>
      if (c =? ch ":") && negb insideBrackets then ([], Some r)
      else
        let inside := if c =? ch "[" then true
                      else if c =? ch "]" then false else insideBrackets in
        let (h, p) := breakHost inside r in (c :: h, p)
  end.

Definition decimal (digits : list N) : N :=
  fold_left (fun acc d => 10 * acc + (d - ch "0")) digits 0.

(** Port state.  The text holds no terminator, so anything but digits is a
    failure. *)
Definition portParse (scheme : jsstring) (text : list N) : completion (option N) :=
  if forallb isAsciiDigit text then
    match text with
    | [] => Normal None
    | _ =>
        let port := decimal text in
        if 65535 <? port then Throw TypeError
        else match defaultPort scheme with
             | Some d => if d =? port then Normal None else Normal (Some port)
             | None => Normal (Some port)
             end
    end
  else Throw TypeError.

(** The input before and after the last code point satisfying [p]. *)
Definition splitLast (p : N -> bool) (l : list N) : option (list N * list N) :=
  match break p (rev l) with
  | (after, _ :: before) => Some (rev before, rev after)
  | (_, []) => None
  end.

Definition isAt (c : N) : bool := c =? ch "@".
Definition isColon (c : N) : bool := c =? ch ":".

Definition authorityStop (special : bool) (c : N) : bool :=
  (c =? ch "/") || (c =? ch "?") || (c =? ch "#") || (special && (c =? ch "\")).

Record authority : Type := mkAuthority {
  a_username : jsstring;
  a_password : jsstring;
  a_host : jsstring;
  a_port : option N
}.

(** Authority state, host state and port state: credentials are what
    precedes the last [@], split at their first colon. *)
Definition parseAuthority (scheme : jsstring) (special : bool) (l : list N)
  : completion (authority * list N) :=
  let (auth, tail) := break (authorityStop special) l in
  let (creds, hostport) :=
    match splitLast isAt auth with
    | Some (c, hp) => (Some c, hp)
    | None => (None, auth)
    end in
  let (user, pass) :=
    match creds with
    | Some c =>
        let (u, p) := break isColon c in
        (percentEncodeAll inUserinfoSet u, percentEncodeAll inUserinfoSet (tl p))
    | None => ([], [])
    end in
  match creds, hostport with
  | Some _, [] => Throw TypeError
  | _, _ =>
      match breakHost false hostport with
      | (h, Some portText) =>
          match h with
          | [] => Throw TypeError
          | _ =>
              let* hst := hostParse h (negb special) in
              let* prt := portParse scheme portText in
              Normal (mkAuthority user pass hst prt, tail)
          end
      | (h, None) =>
          match special, h with
          | true, [] => Throw TypeError
          | _, _ =>
              let* hst := hostParse h (negb special) in
              Normal (mkAuthority user pass hst None, tail)
          end
      end
  end.

(** *** Paths, queries and fragments *)

Definition isSingleDot (seg : jsstring) : bool :=
  jseqb seg (js ".") || eqNoCase seg (js "%2e").

Definition isDoubleDot (seg : jsstring) : bool :=
  jseqb seg (js "..") || eqNoCase seg (js ".%2e") || eqNoCase seg (js "%2e.")
  || eqNoCase seg (js "%2e%2e").

(** Shorten a path (the [file] scheme aside). *)
Definition shorten (p : list jsstring) : list jsstring := removelast p.

(** Path state, one buffer after the other; the last buffer is the one that
    ends at the end of the path rather than at a separator. *)
Fixpoint pathSegments (segs : list (list N)) (p : list jsstring)
  : list jsstring :=
  match segs with
  | [] => p
  | seg :: rest =>
      let buffer := percentEncodeAll inPathSet seg in
      let atEnd := match rest with [] => true | _ => false end in
      let p' :=
        if isDoubleDot buffer then
          if atEnd then shorten p ++ [[]] else shorten p
        else if isSingleDot buffer then
          if atEnd then p ++ [[]] else p
        else p ++ [buffer] in
      pathSegments rest p'
  end.

Definition isQueryOrFragmentStart (c : N) : bool := (c =? ch "?") || (c =? ch "#").
Definition isHash (c : N) : bool := c =? ch "#".

Definition pathSeparator (special : bool) (c : N) : bool :=
  (c =? ch "/") || (special && (c =? ch "\")).

(** Path state on [text], starting from the path [p]; returns the path and
    the input from the query or fragment on. *)
Definition pathState (special : bool) (text : list N) (p : list jsstring)
  : list jsstring * list N :=
  let (pt, tail) := break isQueryOrFragmentStart text in
  (pathSegments (splitOn (pathSeparator special) pt) p, tail).

Definition fragmentState (text : list N) : jsstring :=
  percentEncodeAll inFragmentSet text.

(** Query state and fragment state on the input from [?] or [#] on. *)
Definition queryFragment (special : bool) (tail : list N)
  : option jsstring * option jsstring :=
  match tail with
  | c :: r =>
      if c =? ch "?" then
        let (q, t) := break isHash r in
        (Some (percentEncodeAll
                 (if special then inSpecialQuerySet else inQuerySet) q),
         match t with
         | _ :: f => Some (fragmentState f)
         | [] => None
         end)
      else if c =? ch "#" then (None, Some (fragmentState r))
      else (None, None)
  | [] => (None, None)
  end.

(** *** The basic URL parser *)

(** Path state, then query and fragment, for a URL whose scheme and
    authority are known. *)
Definition withPath (scheme user pass : jsstring) (hst : option jsstring)
    (prt : option N) (special : bool) (text : list N) (p : list jsstring) : t :=
  let (segs, tail) := pathState special text p in
  let (q, f) := queryFragment special tail in
  mk scheme user pass hst prt (Segments segs) q f.

(** Path start state. *)
Definition pathStart (scheme : jsstring) (special : bool) (a : authority)
    (tail : list N) : t :=
  let build := withPath scheme (a_username a) (a_password a) (Some (a_host a))
                 (a_port a) special in
  if special then
    match tail with
    | c :: r => if (c =? ch "/") || (c =? ch "\") then build r [] else build tail []
    | [] => build [] []
    end
  else
    match tail with
    | c :: r =>
        if isQueryOrFragmentStart c then
          let (q, f) := queryFragment special tail in
          mk scheme (a_username a) (a_password a) (Some (a_host a)) (a_port a)
             (Segments []) q f
        else if c =? ch "/" then build r [] else build tail []
    | [] =>
        mk scheme (a_username a) (a_password a) (Some (a_host a)) (a_port a)
           (Segments []) None None
    end.

(** Authority state and what follows it. *)
Definition authorityState (scheme : jsstring) (special : bool) (l : list N)
  : completion t :=
  let* r := parseAuthority scheme special l in
  Normal (pathStart scheme special (fst r) (snd r)).

Definition isSlash (c : N) : bool := (c =? ch "/") || (c =? ch "\").

(** Special authority ignore slashes state. *)
Definition specialAuthorityIgnoreSlashes (scheme : jsstring) (l : list N)
  : completion t :=
  authorityState scheme true (dropWhile isSlash l).

(** Special authority slashes state. *)
Definition specialAuthoritySlashes (scheme : jsstring) (l : list N)
  : completion t :=
  if startsWith l (js "//")
  then specialAuthorityIgnoreSlashes scheme (skipn 2 l)
  else specialAuthorityIgnoreSlashes scheme l.

(** Relative slash state. *)
Definition relativeSlash (base : t) (l : list N) : completion t :=
  let special := isSpecial (scheme base) in
  let fromBase :=
    Normal (withPath (scheme base) (username base) (password base) (host base)
              (port base) special l []) in
  match l with
  | c :: r =>
      if special && isSlash c then specialAuthorityIgnoreSlashes (scheme base) r
      else if c =? ch "/" then authorityState (scheme base) special r
      else fromBase
  | [] => fromBase
  end.

(** Relative state; [base] has a list path. *)
Definition relative (base : t) (basePath : list jsstring) (l : list N)
  : completion t :=
  let special := isSpecial (scheme base) in
  match l with
  | c :: r =>
      if (c =? ch "/") || (special && (c =? ch "\")) then relativeSlash base r
      else if isQueryOrFragmentStart c then
        let (q, f) := queryFragment special l in
        Normal (mk (scheme base) (username base) (password base) (host base)
                  (port base) (Segments basePath)
                  (if c =? ch "?" then q else query base) f)
      else
        Normal (withPath (scheme base) (username base) (password base)
                  (host base) (port base) special l (shorten basePath))
  | [] =>
      Normal (mk (scheme base) (username base) (password base) (host base)
                (port base) (Segments basePath) (query base) None)
  end.

(** No scheme state. *)
Definition noScheme (base : option t) (l : list N) : completion t :=
  match base with
  | None => Throw TypeError
  | Some b =>
      match path b with
      | Opaque p =>
          match l with
          | c :: r =>
              if c =? ch "#"
              then Normal (mk (scheme b) [] [] None None (Opaque p) (query b)
                             (Some (fragmentState r)))
              else Throw TypeError
          | [] => Throw TypeError
          end
      | Segments bp =>
          if jseqb (scheme b) (js "file") then Unmodelled else relative b bp l
      end
  end.

(** Special relative or authority state. *)
Definition specialRelativeOrAuthority (base : t) (sch : jsstring) (l : list N)
  : completion t :=
  if startsWith l (js "//")
  then specialAuthorityIgnoreSlashes sch (skipn 2 l)
  else match path base with
       | Segments bp => relative base bp l
       | Opaque _ => Unmodelled
       end.

(** Path or authority state, after the first slash of a non-special URL. *)
Definition pathOrAuthority (sch : jsstring) (l : list N) : completion t :=
  match l with
  | c :: r =>
      if c =? ch "/" then authorityState sch false r
      else Normal (withPath sch [] [] None None false l [])
  | [] => Normal (withPath sch [] [] None None false [] [])
  end.

(** Opaque path state. *)
Definition opaquePath (sch : jsstring) (l : list N) : completion t :=
  let (p, tail) := break isQueryOrFragmentStart l in
  if mem 0x20 p then Unmodelled
  else
    let (q, f) := queryFragment false tail in
    Normal (mk sch [] [] None None (Opaque (percentEncodeAll inC0ControlSet p)) q f).

(** What the parser reads: leading and trailing C0 controls and spaces are
    removed, then every tab and newline. *)
Definition preprocess (input : jsstring) : list N :=
  filter (fun c => negb (isTabOrNewline c))
    (dropWhileEnd isC0ControlOrSpace (dropWhile isC0ControlOrSpace (toUSV input))).

(** The state machine on the preprocessed input, from the scheme start
    state on. *)
Definition parseCodePoints (l : list N) (base : option t) : completion t :=
  match scanScheme l with
  | Some (sch, rest) =>
      if jseqb sch (js "file") then Unmodelled
      else if isSpecial sch then
        match base with
        | Some b =>
            if jseqb (scheme b) sch then specialRelativeOrAuthority b sch rest
            else specialAuthoritySlashes sch rest
        | None => specialAuthoritySlashes sch rest
        end
      else
        match rest with
        | c :: r => if c =? ch "/" then pathOrAuthority sch r else opaquePath sch rest
        | [] => opaquePath sch rest
        end
  | None => noScheme base l
  end.

(** The basic URL parser without state override. *)
Definition parse (input : jsstring) (base : option t) : completion t :=
  parseCodePoints (preprocess input) base.

(** *** Serialisation and the getters of the class *)

(** Decimal digits of a number. *)
Fixpoint digitsFuel (fuel : nat) (n : N) (acc : jsstring) : jsstring :=
  match fuel with
  | O => acc
  | S fuel' =>
      let acc' := (ch "0" + n mod 10) :: acc in
      if n <? 10 then acc' else digitsFuel fuel' (n / 10) acc'
  end.

Definition serializeInteger (n : N) : jsstring :=
  digitsFuel (S (N.to_nat (N.log2 n))) n [].

Definition serializePath (p : Path) : jsstring :=
  match p with
  | Opaque s => s
  | Segments l => flat_map (fun seg => ch "/" :: seg) l
  end.

Definition serializeAuthority (u : t) : jsstring :=
  match host u with
  | None => []
  | Some h =>
      js "//"
      ++ (match username u, password u with
          | [], [] => []
          | user, [] => user ++ js "@"
          | user, pass => user ++ js ":" ++ pass ++ js "@"
          end)
      ++ h
      ++ (match port u with
          | Some p => ch ":" :: serializeInteger p
          | None => []
          end)
  end.

(** The URL serializer. *)
Definition serialize (u : t) : jsstring :=
  scheme u ++ js ":"
  ++ serializeAuthority u
  ++ (match host u, path u with
      | None, Segments ([] :: _ :: _) => js "/."
      | _, _ => []
      end)
  ++ serializePath (path u)
  ++ (match query u with Some q => ch "?" :: q | None => [] end)
  ++ (match fragment u with Some f => ch "#" :: f | None => [] end).

Definition href (u : t) : jsstring := serialize u.
Definition toString (u : t) : jsstring := href u.
Definition pathname (u : t) : jsstring := serializePath (path u).

Definition search (u : t) : jsstring :=
  match query u with
  | None | Some [] => []
  | Some q => ch "?" :: q
  end.

(** The serialisation of the origin: a tuple origin for the special schemes
    with a network host, ["null"] for an opaque origin. *)
Definition origin (u : t) : completion jsstring :=
  if jseqb (scheme u) (js "blob") || jseqb (scheme u) (js "file") then Unmodelled
  else if isSpecial (scheme u) then
    match host u with
    | Some h =>
        Normal (scheme u ++ js "://" ++ h
                ++ match port u with
                   | Some p => ch ":" :: serializeInteger p
                   | None => []
                   end)
    | None => Unmodelled
    end
  else Normal (js "null").

(** [new URL(input)] and [new URL(input, base)]: the base is parsed first,
    and a failure of either parse is a TypeError. *)
Definition new (input : jsstring) (base : option jsstring) : completion t :=
  match base with
  | None => parse input None
  | Some b =>
      let* parsedBase := parse b None in
      parse input (Some parsedBase)
  end.

End URL.

(** ** More of String.prototype *)

(** WhiteSpace and LineTerminator code points: what [trim] removes and what
    [\s] matches. *)
Definition isWhiteSpace (c : N) : bool :=
  mem c [0x09; 0x0A; 0x0B; 0x0C; 0x0D; 0x20; 0xA0; 0x1680; 0x2028; 0x2029;
         0x202F; 0x205F; 0x3000; 0xFEFF]
  || ((0x2000 <=? c) && (c <=? 0x200A)).


(** [s.split(',')]: splitting on a one-code-unit separator. *)
Fixpoint split (sep : N) (s : jsstring) : list jsstring :=
  match s with
  | [] => [[]]
  | c :: r =>
      if c =? sep then [] :: split sep r
      else match split sep r with
           | seg :: segs => (c :: seg) :: segs
           | [] => [[c]]
           end
  end.



(** String.prototype.toLowerCase on a byte string (header values are byte
    strings); a code unit beyond U+00FF leaves the model. *)
Definition lowerLatin1 (c : N) : N :=
  if isAsciiUpper c then c + 0x20
  else if (0xC0 <=? c) && (c <=? 0xDE) && negb (c =? 0xD7) then c + 0x20
  else c.

Definition toLowerCase (s : jsstring) : completion jsstring :=
  if forallb (fun c => c <=? 0xFF) s then Normal (map lowerLatin1 s)
  else Unmodelled.

(** [/lit/i.test(s)] for an ASCII literal without metacharacters: some
    substring equals the literal up to ASCII case (without the [u] flag no
    code unit beyond ASCII canonicalizes to an ASCII one). *)
Fixpoint startsWithNoCase (s lit : jsstring) {struct lit} : bool :=
  match lit with
  | [] => true
  | c :: lit' =>
      match s with
      | [] => false
      | d :: s' => (URL.asciiLower c =? URL.asciiLower d) && startsWithNoCase s' lit'
      end
  end.

Fixpoint testNoCase (lit s : jsstring) : bool :=
  startsWithNoCase s lit ||
  match s with
  | [] => false
  | _ :: s' => testNoCase lit s'
  end.

(** ** The pattern of the url(...) rewriters

    Both rewriters use one regular expression with the flag g: the literal
    url and an opening parenthesis, group 1 (an optional single or double
    quote), group 2 (one or more code units other than the two quotes and the
    closing parenthesis), a back-reference to group 1, and a closing
    parenthesis. *)

Definition isQuote (c : N) : bool := (c =? ch "'") || (c =? 34).

(** The negated class of group 2. *)
Definition isUrlChar (c : N) : bool := negb (isQuote c || (c =? ch ")")).

(** Group 2 is greedy: its candidates are the prefixes of the longest run of
    class members, longest first, down to length 1.  [k] is the length to
    try, [q] what group 1 captured. *)
Fixpoint tryGroup2 (k : nat) (q s : jsstring) : option (jsstring * jsstring) :=
  match k with
  | O => None
  | S k' =>
      if startsWith (skipn k s) (q ++ js ")")
      then Some (firstn k s, skipn (k + List.length q + 1) s)
      else tryGroup2 k' q s
  end.

Definition runLength (s : jsstring) : nat :=
  List.length (fst (URL.break (fun c => negb (isUrlChar c)) s)).

(** A match result: the matched text and the captures of groups 1 and 2. *)
Record urlMatch : Type := mkMatch {
  m_text : jsstring;
  m_quote : jsstring;
  m_url : jsstring
}.

(** Group 2, the back-reference and the closing parenthesis, for a capture
    [q] of group 1. *)
Definition matchGroup2 (q rest : jsstring) : option urlMatch :=
  match tryGroup2 (runLength rest) q rest with
  | Some (u, _) => Some (mkMatch (js "url(" ++ q ++ u ++ q ++ js ")") q u)
  | None => None
  end.

(** Group 1 is greedy too: it first tries to take a quote and then to be
    empty. *)
Definition matchGroup1 (r : jsstring) : option urlMatch :=
  match r with
  | c :: r' =>
      if isQuote c then
        match matchGroup2 [c] r' with
        | Some m => Some m
        | None => matchGroup2 [] r
        end
      else matchGroup2 [] r
  | [] => None
  end.

(** The backtracking matcher anchored at the start of [s]. *)
Definition matchUrlAt (s : jsstring) : option urlMatch :=
  if startsWith s (js "url(") then matchGroup1 (skipn 4 s) else None.

(** The pieces a global replace cuts a string into: the matches, found from
    left to right, each search resuming where the previous match ended, and
    the code units between them. *)
Inductive piece : Type :=
| Lit (c : N)
| Match (m : urlMatch).

Fixpoint scanUrls (skip : nat) (s : jsstring) : list piece :=
  match s with
  | [] => []
  | c :: r =>
      match skip with
      | S k => scanUrls k r
      | O =>
          match matchUrlAt s with
          | Some m => Match m :: scanUrls (List.length (m_text m) - 1) r
          | None => Lit c :: scanUrls 0 r
          end
      end
  end.

(** String.prototype.replace with that pattern and a replacer function:
    every match is replaced by what the replacer returns for it. *)
Definition replaceUrls (replacer : urlMatch -> completion jsstring)
    (s : jsstring) : completion jsstring :=
  let* parts :=
    mapM (fun p => match p with
                   | Lit c => Normal [c]
                   | Match m => replacer m
                   end) (scanUrls 0 s) in
  Normal (List.concat parts).

(** ** The rewriting engine, common to the middle variant and worker.js *)

Definition ROUTE_PREFIX : jsstring := js "/service/".

(** [function toProxiedPath(target)] *)
Definition toProxiedPath (target : jsstring) : completion jsstring :=
  let* e := encodeURIComponent target in
  Normal (ROUTE_PREFIX ++ e).

(** [function resolveUrl(base, rel)] *)
Definition resolveUrl (base rel : jsstring) : completion jsstring :=
  try_catch
    (let* u := URL.new rel (Some base) in Normal (URL.toString u))
    (fun _ => Normal rel).

(** *** Elements as the HTMLRewriter hands them to a handler *)

Definition Element : Type := list (jsstring * jsstring).

Fixpoint getAttribute (el : Element) (name : jsstring) : option jsstring :=
  match el with
  | [] => None
  | (n, v) :: r => if jseqb n name then Some v else getAttribute r name
  end.

Fixpoint setAttribute (el : Element) (name value : jsstring) : Element :=
  match el with
  | [] => [(name, value)]
  | (n, v) :: r =>
      if jseqb n name then (n, value) :: r
      else (n, v) :: setAttribute r name value
  end.

(** *** Handlers of the rule table *)

(** The handler shared by [a[href]], [link[href]], [script[src]], [img[src]],
    [source[src]] and [iframe[src]]: an absent or empty attribute leaves the
    element alone. *)
Definition rewriteAttribute (attr targetOrigin : jsstring) (el : Element)
  : completion Element :=
  match getAttribute el attr with
  | None | Some [] => Normal el
  | Some value =>
      let* abs := resolveUrl targetOrigin value in
      let* proxied := toProxiedPath abs in
      Normal (setAttribute el attr proxied)
  end.

(** [form[action]] *)
Definition formHandler (targetOrigin : jsstring) (el : Element)
  : completion Element :=
  match getAttribute el (js "action") with
  | None | Some [] => Normal el
  | Some action =>
      let* abs := resolveUrl targetOrigin action in
      let* proxied := toProxiedPath abs in
      Normal (setAttribute (setAttribute el (js "action") proxied)
                (js "target") (js "_self"))
  end.




(** The replacer of both url(...) rewriters: a URL that starts with [data:]
    gives the match back, any other one is resolved and encoded. *)
Definition urlReplacer (targetOrigin : jsstring) (m : urlMatch)
  : completion jsstring :=
  if startsWith (m_url m) (js "data:") then Normal (m_text m)
  else
    let* abs := resolveUrl targetOrigin (m_url m) in
    let* proxied := toProxiedPath abs in
    Normal (js "url(" ++ proxied ++ js ")").

(** [[style]] *)
Definition styleHandler (targetOrigin : jsstring) (el : Element)
  : completion Element :=
  match getAttribute el (js "style") with
  | None | Some [] => Normal el
  | Some style =>
      let* rewritten := replaceUrls (urlReplacer targetOrigin) style in
      Normal (setAttribute el (js "style") rewritten)
  end.

(** ** Headers, requests and responses (Fetch Standard) *)

Module Headers.

(** A header list.  Names match byte-case-insensitively. *)
Definition t : Type := list (jsstring * jsstring).

Definition lower (name : jsstring) : jsstring := map URL.asciiLower name.

Definition nameIs (name : jsstring) (h : jsstring * jsstring) : bool :=
  jseqb (lower (fst h)) (lower name).

Definition has (l : t) (name : jsstring) : bool := existsb (nameIs name) l.

(** The values of all headers of that name, joined by a comma and a space;
    [None] is the [null] of the API. *)
Definition get (l : t) (name : jsstring) : option jsstring :=
  match filter (nameIs name) l with
  | [] => None
  | hs => Some (join (js ", ") (map snd hs))
  end.

Definition delete (l : t) (name : jsstring) : t :=
  filter (fun h => negb (nameIs name h)) l.

(** The first header of that name takes the value and the others go; without
    one the header is appended. *)
Fixpoint set (l : t) (name value : jsstring) : t :=
  match l with
  | [] => [(name, value)]
  | h :: r =>
      if nameIs name h then (fst h, value) :: delete r name
      else h :: set r name value
  end.

(** [new Headers(init)]: a fresh object with the headers of [init]. *)
Definition new (init : t) : t := init.

(** Two names are distinct headers when they differ up to case. *)
Definition distinct (m n : jsstring) : Prop := jseqb (lower m) (lower n) = false.

End Headers.

Inductive Body : Type :=
| Text (s : jsstring)
    (** a string given to the Response constructor *)
| Stream (content : jsstring)
    (** the stream of a request or of an upstream response, as it is *)
| Transformed (targetOrigin : jsstring) (content : jsstring).
    (** the stream that [htmlRewriter(targetOrigin).transform] makes of one *)

Inductive ResponseType : Type := basic | cors | default | error | opaque | opaqueredirect.

Record Response : Type := mkResponse {
  status : N;
  headers : Headers.t;
  body : Body;
  type : ResponseType
}.

(** [new Response(body, { status, headers })]: a string body without a
    content-type in [headers] gets [text/plain;charset=UTF-8]. *)
Definition Response_new (b : Body) (st : N) (init : Headers.t) : Response :=
  let hs := Headers.new init in
  let hs' :=
    match b with
    | Text _ =>
        if Headers.has hs (js "content-type") then hs
        else hs ++ [(js "content-type", js "text/plain;charset=UTF-8")]
    | _ => hs
    end in
  mkResponse st hs' b default.

Record Request : Type := mkRequest {
  url : jsstring;
  method : jsstring;
  req_headers : Headers.t;
  req_body : option jsstring
}.

(** The second argument of the outbound [fetch]. *)
Record RequestInit : Type := mkInit {
  init_method : jsstring;
  init_headers : Headers.t;
  init_body : option jsstring
}.

(** How the promise of the transport settles: with a response, or rejected
    with an error whose string conversion is [err]. *)
Inductive Settled : Type :=
| Fulfilled (r : Response)
| Rejected (err : jsstring).

(** A run of a dispatcher: the outbound fetches it issued, in order, and how
    it ended. *)
Definition Run : Type := list (jsstring * RequestInit) * completion Response.

Definition respond (r : Response) : Run := ([], Normal r).
Definition stop (c : completion Response) : Run := ([], c).

(** [await resp.text()] *)
Definition text (r : Response) : jsstring :=
  match body r with
  | Text s | Stream s | Transformed _ s => s
  end.

(** [x || y] on a string or null. *)
Definition orElse (x : option jsstring) (y : jsstring) : jsstring :=
  match x with
  | None | Some [] => y
  | Some s => s
  end.

Definition isGetOrHead (m : jsstring) : bool :=
  jseqb m (js "GET") || jseqb m (js "HEAD").

(** ** The platform's HTMLRewriter.prototype.transform

    [transform] builds the parser of the rewriter for the encoding that the
    charset parameter of the content-type of its response names, [utf-8]
    when there is none.  The parser takes ASCII-compatible encodings only:
    for the label of another encoding the call throws a TypeError, before
    any byte of the body is read. *)

Definition isHttpWhiteSpace (c : N) : bool :=
  (c =? 0x09) || (c =? 0x0A) || (c =? 0x0D) || (c =? 0x20).

(** Letters, digits and four of the punctuation marks of an HTTP token. *)
Definition isMimeTokenChar (c : N) : bool := isAsciiAlnum c || mem c (js "+-._").

Definition isMimeToken (t : jsstring) : bool :=
  match t with
  | [] => false
  | _ => forallb isMimeTokenChar t
  end.

(** A type, a slash and a subtype. *)
Definition isEssence (e : jsstring) : bool :=
  let (type, rest) := URL.break (fun c => c =? ch "/") e in
  match rest with
  | _ :: subtype => isMimeToken type && isMimeToken subtype
  | [] => false
  end.

(** The charset parameter of a content-type.  A value in which the word
    charset does not occur has none.  Of the others the model reads those
    written as an essence, a semicolon, optional white space, [charset=] in
    any case and an unquoted label, with nothing behind. *)
Definition charsetParameter (contentType : jsstring) : completion (option jsstring) :=
  if negb (testNoCase (js "charset") contentType) then Normal None
  else
    let (essence, rest) := URL.break (fun c => c =? ch ";") contentType in
    match rest with
    | _ :: parameters =>
        let p := URL.dropWhile isHttpWhiteSpace parameters in
        if isEssence essence && startsWithNoCase p (js "charset=")
           && isMimeToken (skipn 8 p)
        then Normal (Some (skipn 8 p))
        else Unmodelled
    | [] => Unmodelled
    end.

(** Labels of the Encoding Standard, in lower case: those of UTF-8 and of
    windows-1252, which are ASCII-compatible, and those of UTF-16LE,
    UTF-16BE and ISO-2022-JP, which are not.  Any other label leaves the
    model. *)
Definition asciiCompatibleLabels : list jsstring :=
  [ js "utf-8"; js "utf8"; js "unicode-1-1-utf-8"; js "unicode11utf8";
    js "unicode20utf8"; js "x-unicode20utf8";
    js "windows-1252"; js "cp1252"; js "x-cp1252"; js "iso-8859-1";
    js "iso8859-1"; js "iso88591"; js "iso_8859-1"; js "latin1"; js "l1";
    js "ascii"; js "us-ascii"; js "ibm819"; js "cp819"; js "iso-ir-100";
    js "csisolatin1" ].

Definition refusedLabels : list jsstring :=
  [ js "utf-16"; js "utf-16le"; js "utf-16be"; js "ucs-2"; js "unicode";
    js "csunicode"; js "iso-10646-ucs-2"; js "unicodefeff"; js "unicodefffe";
    js "iso-2022-jp"; js "csiso2022jp" ].

Definition isLabelOf (labels : list jsstring) (label : jsstring) : bool :=
  existsb (jseqb (map URL.asciiLower label)) labels.

(** [htmlRewriter(targetOrigin).transform(response).body] *)
Definition transform (targetOrigin : jsstring) (response : Response)
  : completion Body :=
  let ct := orElse (Headers.get (headers response) (js "content-type")) [] in
  let* charset := charsetParameter ct in
  match charset with
  | None => Normal (Transformed targetOrigin (text response))
  | Some label =>
      if isLabelOf asciiCompatibleLabels label
      then Normal (Transformed targetOrigin (text response))
      else if isLabelOf refusedLabels label then Throw TypeError
      else Unmodelled
  end.

(** ** The decoding half of the codec

    Both dispatchers with a route prefix decode the target in the same three
    lines: [const encoded = url.pathname.slice(ROUTE_PREFIX.length)], the test
    [if (!encoded)], and [decodeURIComponent(encoded)] inside a [try] whose
    [catch] answers 400. *)

Inductive Decoded : Type :=
| MissingTarget
| BadEncodedTarget
| Target (target : jsstring).

Definition decode (pathname : jsstring) : completion Decoded :=
  match slice pathname (List.length ROUTE_PREFIX) with
  | [] => Normal MissingTarget
  | encoded =>
      match decodeURIComponent encoded with
      | Normal target => Normal (Target target)
      | Throw _ => Normal BadEncodedTarget
      | Unmodelled => Unmodelled
      end
  end.

(** ** src/index.js: the pass-through dispatcher *)

Module Index.

(** [s.replace(pattern, replacement)] with a string pattern: the first
    occurrence only. *)
Fixpoint replaceFirst (pattern replacement s : jsstring) : jsstring :=
  if startsWith s pattern then replacement ++ skipn (List.length pattern) s
  else match s with
       | [] => []
       | c :: r => c :: replaceFirst pattern replacement r
       end.

Section Dispatcher.

Variable transport : jsstring -> RequestInit -> Settled.

Definition fetch (request : Request) : Run :=
  match URL.new (url request) None with
  | Normal u =>
      if startsWith (URL.pathname u) (js "/service/") then
        match decodeURIComponent
                (replaceFirst (js "/service/") [] (URL.pathname u)) with
        | Normal target =>
            let init :=
              mkInit (method request) (req_headers request)
                (if negb (isGetOrHead (method request))
                 then req_body request else None) in
            match transport target init with
            | Fulfilled resp => ([(target, init)], Normal resp)
            | Rejected err =>
                ([(target, init)],
                 Normal (Response_new (Text (js "Error fetching target: " ++ err))
                           500 []))
            end
        | Throw e => stop (Throw e)
        | Unmodelled => stop Unmodelled
        end
      else
        respond (Response_new
                   (Text (js "Ultraviolet Worker running. Use /service/<url>"))
                   200 [])
  | Throw e => stop (Throw e)
  | Unmodelled => stop Unmodelled
  end.

End Dispatcher.

End Index.

(** ** The middle variant (the unnamed source file) *)

Module Middle.

Definition WORKER_BASE : jsstring := [].

(** [function sanitizeHeaders(headers, contentTypeIsHtml)] *)
Definition sanitizeHeaders (hs : Headers.t) (contentTypeIsHtml : bool)
  : Headers.t :=
  let h := Headers.new hs in
  let h := if Headers.has h (js "content-security-policy")
           then Headers.delete h (js "content-security-policy") else h in
  let h := if Headers.has h (js "content-security-policy-report-only")
           then Headers.delete h (js "content-security-policy-report-only")
           else h in
  let h := Headers.set h (js "access-control-allow-origin") (js "*") in
  let h := Headers.set h (js "access-control-allow-headers") (js "*") in
  let h := Headers.set h (js "access-control-allow-methods")
             (js "GET,POST,PUT,PATCH,DELETE,OPTIONS") in
  let h := if Headers.has h (js "x-frame-options")
           then Headers.delete h (js "x-frame-options") else h in
  let h := if Headers.has h (js "x-content-type-options")
           then Headers.delete h (js "x-content-type-options") else h in
  if contentTypeIsHtml then
    let ct := orElse (Headers.get h (js "content-type"))
                (js "text/html; charset=utf-8") in
    if negb (testNoCase (js "text/html") ct)
    then Headers.set h (js "content-type") (js "text/html; charset=utf-8")
    else h
  else h.

Section Dispatcher.

Variable transport : jsstring -> RequestInit -> Settled.

(** What follows a fulfilled outbound fetch. *)
Definition relay (target : jsstring) (resp : Response) : completion Response :=
  match type resp with
  | opaque =>
      Normal (Response_new
                (Text (js "Opaque upstream response; try a different site"))
                502 [])
  | _ =>
      let ct := orElse (Headers.get (headers resp) (js "content-type")) [] in
      let* lowerCT := toLowerCase ct in
      let isHtml := includes lowerCT (js "text/html") in
      let safeHeaders := sanitizeHeaders (headers resp) isHtml in
      if isHtml then
        let* parsed := URL.new target None in
        let targetOrigin := URL.toString parsed in
        let* transformed := transform targetOrigin resp in
        Normal (Response_new transformed (status resp) safeHeaders)
      else
        Normal (Response_new (body resp) (status resp) safeHeaders)
  end.

Definition fetch (request : Request) : Run :=
  match URL.new (url request) None with
  | Normal u =>
      if jseqb (URL.pathname u) (js "/") || jseqb (URL.pathname u) WORKER_BASE
      then respond (Response_new
                      (Text (js "Ultraviolet-style Worker: use /service/<encodedURL>"))
                      200 [])
      else if negb (startsWith (URL.pathname u) ROUTE_PREFIX)
      then respond (Response_new
                      (Text (js "Not found. Use /service/<encodedURL>")) 404 [])
      else
        match decode (URL.pathname u) with
        | Normal MissingTarget =>
            respond (Response_new (Text (js "Missing encoded URL")) 400 [])
        | Normal BadEncodedTarget =>
            respond (Response_new (Text (js "Bad encoded URL")) 400 [])
        | Throw e => stop (Throw e)
        | Unmodelled => stop Unmodelled
        | Normal (Target target) =>
            let init :=
              mkInit (method request) (req_headers request)
                (if negb (isGetOrHead (method request))
                 then req_body request else None) in
            match URL.origin u with
            | Normal origin =>
                if startsWith target origin
                then respond (Response_new
                                (Text (js "Refusing to proxy this origin"))
                                400 [])
                else
                  match transport target init with
                  | Rejected err =>
                      ([(target, init)],
                       Normal (Response_new
                                 (Text (js "Upstream fetch error: " ++ err))
                                 502 []))
                  | Fulfilled resp => ([(target, init)], relay target resp)
                  end
            | Throw e => stop (Throw e)
            | Unmodelled => stop Unmodelled
            end
        end
  | Throw e => stop (Throw e)
  | Unmodelled => stop Unmodelled
  end.

End Dispatcher.

End Middle.

(** ** src/worker.js *)

Module Worker.

(** [function sanitizeHeadersInPlace(h)] *)
Definition sanitizeHeadersInPlace (h : Headers.t) : Headers.t :=
  let h := Headers.delete h (js "content-security-policy") in
  let h := Headers.delete h (js "content-security-policy-report-only") in
  let h := Headers.delete h (js "x-frame-options") in
  let h := Headers.set h (js "access-control-allow-origin") (js "*") in
  let h := Headers.set h (js "access-control-allow-headers") (js "*") in
  Headers.set h (js "access-control-allow-methods")
    (js "GET,POST,PUT,PATCH,DELETE,OPTIONS").

(** The text transformation of [rewriteCss]. *)
Definition rewriteCssText (targetOrigin cssText : jsstring) : completion jsstring :=
  replaceUrls (urlReplacer targetOrigin) cssText.

(** [async function rewriteCss(resp, targetOrigin)] *)
Definition rewriteCss (resp : Response) (targetOrigin : jsstring)
  : completion Response :=
  let cssText := text resp in
  let* rewritten := rewriteCssText targetOrigin cssText in
  let hs := Headers.new (headers resp) in
  let hs := Headers.set hs (js "content-type") (js "text/css; charset=utf-8") in
  let hs := sanitizeHeadersInPlace hs in
  Normal (Response_new (Text rewritten) (status resp) hs).

Section Dispatcher.

Variable transport : jsstring -> RequestInit -> Settled.

(** What follows a fulfilled outbound fetch. *)
Definition relay (target : jsstring) (upstream : Response) : completion Response :=
  let ct := orElse (Headers.get (headers upstream) (js "content-type")) [] in
  let* lowerCT := toLowerCase ct in
  let hs := sanitizeHeadersInPlace (Headers.new (headers upstream)) in
  if includes lowerCT (js "text/html") then
    let* parsed := URL.new target None in
    let* rewritten := transform (URL.toString parsed) upstream in
    let hs := Headers.set hs (js "content-type") (js "text/html; charset=utf-8") in
    Normal (Response_new rewritten (status upstream) hs)
  else if includes lowerCT (js "text/css") then
    let* parsed := URL.new target None in
    rewriteCss upstream (URL.toString parsed)
  else
    Normal (Response_new (body upstream) (status upstream) hs).

Definition fetch (request : Request) : Run :=
  match URL.new (url request) None with
  | Normal u =>
      if negb (startsWith (URL.pathname u) ROUTE_PREFIX)
      then respond (Response_new
                      (Text (js "Boat Proxy Worker ready. Use /service/<encodedURL>"))
                      200 [])
      else
        match decode (URL.pathname u) with
        | Normal MissingTarget =>
            respond (Response_new (Text (js "Missing encoded URL")) 400 [])
        | Normal BadEncodedTarget =>
            respond (Response_new (Text (js "Bad encoded URL")) 400 [])
        | Throw e => stop (Throw e)
        | Unmodelled => stop Unmodelled
        | Normal (Target target) =>
            match URL.origin u with
            | Normal origin =>
                if startsWith target origin
                then respond (Response_new
                                (Text (js "Refusing to proxy worker origin"))
                                400 [])
                else
                  let init :=
                    mkInit (method request) (req_headers request)
                      (if negb (isGetOrHead (method request))
                       then req_body request else None) in
                  match transport target init with
                  | Rejected err =>
                      ([(target, init)],
                       Normal (Response_new
                                 (Text (js "Upstream fetch error: " ++ err))
                                 502 []))
                  | Fulfilled upstream =>
                      ([(target, init)], relay target upstream)
                  end
            | Throw e => stop (Throw e)
            | Unmodelled => stop Unmodelled
            end
        end
  | Throw e => stop (Throw e)
  | Unmodelled => stop Unmodelled
  end.

End Dispatcher.

End Worker.

(** ** Vocabulary of the properties *)

(** A string is an absolute URL when it is a scalar value string that
    [new URL(u)] accepts without a base. *)
Definition isAbsoluteURL (u : jsstring) : Prop :=
  isWellFormed u = true /\ exists r, URL.new u None = Normal r.

(** A reference is syntactically absolute when it starts with a scheme and a
    colon and, for a special scheme, goes on with two slashes (an
    absolute-URL string of the standard, the [file] scheme aside). *)
Definition isAbsoluteReference (ref : jsstring) : bool :=
  match URL.scanScheme (URL.preprocess ref) with
  | Some (sch, rest) => negb (URL.isSpecial sch) || startsWith rest (js "//")
  | None => false
  end.

(** A transport that reaches nothing. *)
Definition failingTransport (target : jsstring) (init : RequestInit) : Settled :=
  Rejected (js "TypeError: Network connection lost.").

(** A GET request without headers. *)
Definition GET (u : string) : Request := mkRequest (js u) (js "GET") [] None.

(** [new Response(text, { status })] as it comes out. *)
Definition plainText (st : N) (t : jsstring) : Response :=
  mkResponse st [(js "content-type", js "text/plain;charset=UTF-8")] (Text t)
    default.

(** The second argument of the outbound fetch, as all three dispatchers build
    it: method and headers copied, the body only for a method other than GET
    and HEAD. *)
Definition initOf (request : Request) : RequestInit :=
  mkInit (method request) (req_headers request)
    (if negb (isGetOrHead (method request)) then req_body request else None).








(** A url(...) occurrence as it is written: the URL between two copies of
    [q], which is empty, a single quote or a double quote. *)
Definition urlOccurrence (q u : jsstring) : jsstring :=
  js "url(" ++ q ++ u ++ q ++ js ")".

Definition isQuoteOrNothing (q : jsstring) : Prop :=
  q = [] \/ q = [ch "'"] \/ q = [34].

(** A URL without a quote and without a closing parenthesis. *)
Definition isPlainUrl (u : jsstring) : Prop :=
  Forall (fun c => isUrlChar c = true) u.

(** A URL without its query and fragment. *)
Definition stripQuery (u : URL.t) : URL.t :=
  URL.mk (URL.scheme u) (URL.username u) (URL.password u) (URL.host u)
    (URL.port u) (URL.path u) None None.

Definition cmap {A B : Type} (f : A -> B) (c : completion A) : completion B :=
  let* a := c in Normal (f a).

(** A code unit of a request URL before its query: no control, no space, no
    question mark and no number sign. *)
Definition isLocationUnit (c : N) : Prop :=
  0x20 < c /\ c <> ch "?" /\ c <> ch "#".

(** The same request with a raw query string appended to its URL. *)
Definition withRawQuery (request : Request) (q : jsstring) : Request :=
  mkRequest (url request ++ ch "?" :: q) (method request) (req_headers request)
    (req_body request).

(** The header names and values of the sanitizers. *)
Module HeaderNames.

Definition csp := js "content-security-policy".
Definition cspro := js "content-security-policy-report-only".
Definition xfo := js "x-frame-options".
Definition xcto := js "x-content-type-options".
Definition acao := js "access-control-allow-origin".
Definition acah := js "access-control-allow-headers".
Definition acam := js "access-control-allow-methods".
Definition verbs := js "GET,POST,PUT,PATCH,DELETE,OPTIONS".
Definition ctype := js "content-type".
Definition htmlUtf8 := js "text/html; charset=utf-8".

(** The edits of the middle variant before its content-type step. *)
Definition middleEdits (hs : Headers.t) : Headers.t :=
  Headers.delete
    (Headers.delete
       (Headers.set
          (Headers.set
             (Headers.set
                (Headers.delete (Headers.delete hs csp) cspro) acao (js "*"))
             acah (js "*")) acam verbs) xfo) xcto.

End HeaderNames.




(** No question mark and no number sign. *)
Definition plain (l : list N) : Prop :=
  Forall (fun c => URL.isQueryOrFragmentStart c = false) l.

(** A code point of a preprocessed URL before its query. *)
Definition isLocationPoint (c : N) : Prop :=
  URL.isC0ControlOrSpace c = false /\ URL.isTabOrNewline c = false /\
  URL.isQueryOrFragmentStart c = false.

(** A string whose elements are 16-bit code units, as every JavaScript
    string is. *)
Definition is16bit (s : jsstring) : Prop := Forall (fun c => c < 0x10000) s.

(** What an encoded target is made of: the unescaped set and the percent
    sign. *)
Definition isPathSafe (c : N) : bool := alwaysUnescaped c || (c =? ch "%").

(** A header list with exactly one header of that name, of that value. *)
Definition hasSingle (l : Headers.t) (n v : jsstring) : Prop :=
  exists n', filter (Headers.nameIs n) l = [(n', v)].

(** The content-type that [rewriteCss] sets. *)
Definition cssUtf8 : jsstring := js "text/css; charset=utf-8".

(** A code unit of the host and port of a proxy URL: printable ASCII other
    than the terminators of the authority. *)
Definition isHostUnit (c : N) : bool :=
  (0x20 <? c) && (c <? 0x7F) && negb (URL.authorityStop true c).

(** A code point that the path state copies as it is and that ends neither
    the path nor a segment. *)
Definition isSegmentPoint (c : N) : bool :=
  (0x20 <? c) && (c <? 0x80) && negb (URL.isQueryOrFragmentStart c)
  && negb (URL.pathSeparator true c) && negb (URL.inPathSet c).

(** Printable ASCII other than the question mark and the number sign. *)
Definition isPlainByte (c : N) : bool :=
  (0x20 <? c) && (c <? 0x80) && negb (URL.isQueryOrFragmentStart c).

(** A string that starts with an ASCII letter, as every absolute URL does. *)
Definition startsWithLetter (s : jsstring) : bool :=
  match s with
  | c :: _ => isAsciiAlpha c
  | [] => false
  end.

(** ** The meta refresh rule of worker.js

    The handler of [meta[http-equiv="refresh"]] matches the [content]
    attribute against a pattern with the flag i: one or more digits, a
    semicolon, any white space, the letters url and an equals sign, and
    group 1, one or more code units other than line terminators.  Each
    quantifier is greedy, and a shorter repetition never lets the rest of
    the pattern match (what follows a shorter run of digits is a digit, not
    the semicolon; what follows a shorter run of white space is white space,
    not a letter), so the longest repetitions decide. *)

Definition isLineTerminator (c : N) : bool :=
  (c =? 0x0A) || (c =? 0x0D) || (c =? 0x2028) || (c =? 0x2029).

(** The pattern anchored at the start of [s]: the capture of group 1. *)
Definition matchRefreshAt (s : jsstring) : option jsstring :=
  let (digits, r1) := URL.break (fun c => negb (isAsciiDigit c)) s in
  match digits, r1 with
  | _ :: _, c :: r2 =>
      if c =? ch ";" then
        let r3 := URL.dropWhile isWhiteSpace r2 in
        if startsWithNoCase r3 (js "url=") then
          match fst (URL.break isLineTerminator (skipn 4 r3)) with
          | [] => None
          | g => Some g
          end
        else None
      else None
  | _, _ => None
  end.

(** [content.match(pattern)]: the leftmost position where the pattern
    matches; the result is [match[1]]. *)
Fixpoint matchRefresh (s : jsstring) : option jsstring :=
  match matchRefreshAt s with
  | Some g => Some g
  | None =>
      match s with
      | [] => None
      | _ :: r => matchRefresh r
      end
  end.

(** [s.replace(pattern, replacement)] with two strings: the first occurrence
    of the pattern is replaced.  A dollar sign in the replacement would start
    a substitution pattern and leaves the model. *)
Definition replaceString (pattern replacement s : jsstring) : completion jsstring :=
  if mem (ch "$") replacement then Unmodelled
  else Normal (Index.replaceFirst pattern replacement s).

(** [meta[http-equiv="refresh"]] *)
Definition metaRefreshHandler (targetOrigin : jsstring) (el : Element)
  : completion Element :=
  match getAttribute el (js "content") with
  | None | Some [] => Normal el
  | Some content =>
      match matchRefresh content with
      | Some g =>
          let* abs := resolveUrl targetOrigin g in
          let* proxied := toProxiedPath abs in
          let* replaced := replaceString g proxied content in
          Normal (setAttribute el (js "content") replaced)
      | None => Normal el
      end
  end.

(** The text [u] does not occur in [pre ++ u] before the end of [pre]. *)
Fixpoint notEarlier (pre u : jsstring) : bool :=
  match pre with
  | [] => true
  | _ :: pre' => negb (startsWith (pre ++ u) u) && notEarlier pre' u
  end.

(** The value of a refresh: a delay, a semicolon, white space, the keyword
    in any case, and the URL. *)
Definition refreshPrefix (delay gap keyword : jsstring) : jsstring :=
  delay ++ ch ";" :: gap ++ keyword.

(** * Properties *)

(** ** Facts about the codec *)

Module CodecFacts.

Ltac Zify.zify_post_hook ::= Z.to_euclidean_division_equations.

Ltac chars :=
  change (ch "%") with 37 in *; change (ch "0") with 48 in *;
  change (ch "9") with 57 in *; change (ch "A") with 65 in *;
  change (ch "F") with 70 in *; change (ch "Z") with 90 in *;
  change (ch "a") with 97 in *; change (ch "f") with 102 in *;
  change (ch "z") with 122 in *.

(** Turn boolean comparisons on [N] into propositions, in goal and context. *)
Ltac bools :=
  repeat match goal with
  | H : _ && _ = true |- _ => apply andb_true_iff in H; destruct H
  | H : _ || _ = false |- _ => apply orb_false_iff in H; destruct H
  | H : negb _ = true |- _ => apply negb_true_iff in H
  | H : negb _ = false |- _ => apply negb_false_iff in H
  | H : (_ <? _) = true |- _ => apply N.ltb_lt in H
  | H : (_ <? _) = false |- _ => apply N.ltb_ge in H
  | H : (_ <=? _) = true |- _ => apply N.leb_le in H
  | H : (_ <=? _) = false |- _ => apply N.leb_gt in H
  | H : (_ =? _) = true |- _ => apply N.eqb_eq in H
  | H : (_ =? _) = false |- _ => apply N.eqb_neq in H
  end.

Lemma ltb_true a b : a < b -> (a <? b) = true.
Proof. apply N.ltb_lt. Qed.
Lemma ltb_false a b : b <= a -> (a <? b) = false.
Proof. apply N.ltb_ge. Qed.
Lemma leb_true a b : a <= b -> (a <=? b) = true.
Proof. apply N.leb_le. Qed.
Lemma leb_false a b : b < a -> (a <=? b) = false.
Proof. apply N.leb_gt. Qed.

(** Decide every comparison of the goal by linear arithmetic. *)
Ltac decide_cmp :=
  repeat match goal with
  | |- context [?a <? ?b] =>
      first [ rewrite (ltb_true a b) by lia | rewrite (ltb_false a b) by lia ]
  | |- context [?a <=? ?b] =>
      first [ rewrite (leb_true a b) by lia | rewrite (leb_false a b) by lia ]
  end.

Lemma hexValue_hexDigit d : d < 16 -> hexValue (hexDigit d) = Some d.
Proof.
  intros Hd. unfold hexValue, hexDigit. chars.
  destruct (d <? 10) eqn:E; bools.
  - decide_cmp. cbn [andb]. f_equal. lia.
  - decide_cmp. cbn [andb]. f_equal. lia.
Qed.

Lemma ParseHexOctet_percentOctet b :
  b < 256 -> ParseHexOctet (hexDigit (b / 16)) (hexDigit (b mod 16)) = Some b.
Proof.
  intros Hb. unfold ParseHexOctet.
  rewrite (hexValue_hexDigit (b / 16)) by lia.
  rewrite (hexValue_hexDigit (b mod 16)) by lia. f_equal. lia.
Qed.

Lemma continuationOctets_escapes bs rest :
  Forall (fun b => b < 256) bs ->
  continuationOctets (List.length bs) (flat_map percentOctet bs ++ rest)
  = Some (bs, rest).
Proof.
  induction 1 as [|b bs Hb _ IH]; [reflexivity|].
  cbn [List.length flat_map percentOctet app continuationOctets].
  rewrite N.eqb_refl, ParseHexOctet_percentOctet, IH by assumption.
  reflexivity.
Qed.

Lemma utf8_encode_octets cp :
  cp < 0x110000 -> Forall (fun b => b < 256) (utf8_encode cp).
Proof.
  intros H. unfold utf8_encode.
  destruct (cp <? 0x80) eqn:E1; [|destruct (cp <? 0x800) eqn:E2;
    [|destruct (cp <? 0x10000) eqn:E3]]; bools;
    repeat constructor; lia.
Qed.

Lemma utf8_decode_encode cp : isScalar cp -> utf8_decode (utf8_encode cp) = Some cp.
Proof.
  intros [H Hs]. unfold utf8_encode.
  destruct (cp <? 0x80) eqn:E1; [|destruct (cp <? 0x800) eqn:E2;
    [|destruct (cp <? 0x10000) eqn:E3]]; bools;
    unfold utf8_decode, isContinuation.
  - decide_cmp. reflexivity.
  - decide_cmp. cbn [andb]. f_equal. lia.
  - replace ((0xE0 + cp / 0x1000 - 0xE0) * 0x1000
             + (0x80 + (cp / 0x40) mod 0x40 - 0x80) * 0x40
             + (0x80 + cp mod 0x40 - 0x80)) with cp by lia.
    decide_cmp. cbn [andb].
    destruct (0xD800 <=? cp) eqn:E4; destruct (cp <=? 0xDFFF) eqn:E5; bools;
      try reflexivity.
    exfalso. apply Hs. lia.
  - replace ((0xF0 + cp / 0x40000 - 0xF0) * 0x40000
             + (0x80 + (cp / 0x1000) mod 0x40 - 0x80) * 0x1000
             + (0x80 + (cp / 0x40) mod 0x40 - 0x80) * 0x40
             + (0x80 + cp mod 0x40 - 0x80)) with cp by lia.
    decide_cmp. reflexivity.
Qed.

(** The first octet of an encoding announces its length. *)
Lemma leadingOnes_utf8_encode cp :
  cp < 0x110000 ->
  exists B bs, utf8_encode cp = B :: bs /\
    leadingOnes B = match bs with [] => O | _ => S (List.length bs) end /\
    (List.length bs <= 3)%nat.
Proof.
  intros H. unfold utf8_encode.
  destruct (cp <? 0x80) eqn:E1; [|destruct (cp <? 0x800) eqn:E2;
    [|destruct (cp <? 0x10000) eqn:E3]]; bools;
    eexists; eexists; (split; [reflexivity|]); unfold leadingOnes;
    decide_cmp; cbn [List.length]; split; (reflexivity || lia).
Qed.

Lemma Decode_unescaped fuel C rest :
  C <> ch "%" ->
  Decode (S fuel) (C :: rest) = let* R := Decode fuel rest in Normal (C :: R).
Proof.
  intros H. cbn [Decode]. apply N.eqb_neq in H. rewrite H. reflexivity.
Qed.

(** One iteration of Decode reads back the escapes written for one code
    point by Encode. *)
Lemma Decode_escaped fuel cp rest :
  isScalar cp ->
  Decode (S fuel) (flat_map percentOctet (utf8_encode cp) ++ rest)
  = let* R := Decode fuel rest in Normal (UTF16EncodeCodePoint cp ++ R).
Proof.
  intros Hcp. pose proof Hcp as [Hlt _].
  pose proof (utf8_encode_octets cp Hlt) as Hoct.
  pose proof (utf8_decode_encode cp Hcp) as Hdec.
  destruct (leadingOnes_utf8_encode cp Hlt) as (B & bs & HE & HL & Hlen).
  rewrite HE in *. inversion Hoct as [|? ? HB Hbs]; subst.
  change (flat_map percentOctet (B :: bs))
    with (percentOctet B ++ flat_map percentOctet bs).
  rewrite <- app_assoc. unfold percentOctet at 1. cbn [app Decode].
  rewrite N.eqb_refl, ParseHexOctet_percentOctet by assumption.
  rewrite HL.
  destruct bs as [|b1 bs'].
  - cbn [app flat_map]. cbn in Hdec.
    destruct (B <? 128) eqn:EB; [|discriminate]. injection Hdec as ->.
    unfold UTF16EncodeCodePoint. bools. decide_cmp. reflexivity.
  - rewrite (continuationOctets_escapes (b1 :: bs') rest Hbs), Hdec.
    destruct bs' as [|b2 [|b3 [|b4 bs']]]; try reflexivity.
    cbn in Hlen. lia.
Qed.

Lemma percentOctet_length b : List.length (percentOctet b) = 3%nat.
Proof. reflexivity. Qed.

Lemma flat_map_percentOctet_length bs :
  List.length (flat_map percentOctet bs) = (3 * List.length bs)%nat.
Proof. induction bs; cbn [flat_map List.length app]; [reflexivity|].
  rewrite length_app, IHbs, percentOctet_length. lia. Qed.

Lemma utf8_encode_nonempty cp : (1 <= List.length (utf8_encode cp))%nat.
Proof. unfold utf8_encode.
  destruct (cp <? 0x80), (cp <? 0x800), (cp <? 0x10000); cbn; lia. Qed.

Lemma alwaysUnescaped_not_percent C : alwaysUnescaped C = true -> C <> ch "%".
Proof. intros H ->. vm_compute in H. discriminate. Qed.

Lemma surrogate_pair_scalar C second :
  isLeadingSurrogate C = true -> isTrailingSurrogate second = true ->
  isScalar (UTF16SurrogatePairToCodePoint C second) /\
  UTF16EncodeCodePoint (UTF16SurrogatePairToCodePoint C second) = [C; second].
Proof.
  unfold isLeadingSurrogate, isTrailingSurrogate, isScalar,
    UTF16SurrogatePairToCodePoint, UTF16EncodeCodePoint.
  intros H1 H2. bools. split; [lia|].
  decide_cmp. f_equal; [|f_equal]; lia.
Qed.

(** Encode succeeds on every well-formed string, and Decode reads the result
    back, whatever fuel at least the length of the encoding it is given. *)
Lemma Decode_Encode_fuel n : forall s, (List.length s <= n)%nat ->
  isWellFormed s = true ->
  exists e, Encode s = Normal e /\
    forall fuel, (List.length e <= fuel)%nat -> Decode fuel e = Normal s.
Proof.
  induction n as [|n IH]; intros s Hn Hwf.
  - destruct s; [|cbn in Hn; lia]. exists []. split; [reflexivity|].
    intros [|fuel] _; reflexivity.
  - destruct s as [|C rest].
    { exists []. split; [reflexivity|]. intros [|fuel] _; reflexivity. }
    cbn [isWellFormed] in Hwf. cbn [Encode]. cbn [List.length] in Hn.
    destruct (alwaysUnescaped C) eqn:EU.
    + assert (Hrest : isWellFormed rest = true).
      { destruct (isTrailingSurrogate C) eqn:ET; [discriminate|].
        destruct (isLeadingSurrogate C) eqn:EL.
        - exfalso. unfold isLeadingSurrogate in EL. bools.
          assert (C < 0xD800).
          { unfold alwaysUnescaped, isAsciiAlnum, isAsciiAlpha, isAsciiUpper,
              isAsciiLower, isAsciiDigit, mem in EU. chars.
            cbn [js list_ascii_of_string map existsb] in EU.
            repeat (apply orb_true_iff in EU; destruct EU as [EU|EU]);
              bools; try lia; try discriminate.
            all: vm_compute in EU; lia. }
          lia.
        - bools. assumption. }
      destruct (IH rest ltac:(lia) Hrest) as (e & He & Hd).
      rewrite He. exists (C :: e). split; [reflexivity|].
      intros [|fuel] Hf; cbn [List.length] in Hf; [lia|].
      rewrite Decode_unescaped by (apply alwaysUnescaped_not_percent; assumption).
      rewrite Hd by lia. reflexivity.
    + destruct (isTrailingSurrogate C) eqn:ET; [discriminate|].
      destruct (isLeadingSurrogate C) eqn:EL.
      * destruct rest as [|second rest']; [discriminate|].
        apply andb_true_iff in Hwf. destruct Hwf as [E2 Hrest].
        rewrite E2. cbn [List.length] in Hn.
        destruct (IH rest' ltac:(lia) Hrest) as (e & He & Hd).
        rewrite He. cbn [bind]. eexists. split; [reflexivity|].
        destruct (surrogate_pair_scalar C second EL E2) as [Hsc Hu].
        pose proof (utf8_encode_nonempty (UTF16SurrogatePairToCodePoint C second)).
        intros fuel Hf. rewrite length_app, flat_map_percentOctet_length in Hf.
        destruct fuel as [|fuel]; [lia|].
        rewrite Decode_escaped by assumption.
        rewrite Hd by lia. cbn [bind]. rewrite Hu. reflexivity.
      * apply andb_true_iff in Hwf. destruct Hwf as [Hlt Hrest].
        destruct (IH rest ltac:(lia) Hrest) as (e & He & Hd).
        rewrite He. cbn [bind]. eexists. split; [reflexivity|].
        assert (Hsc : isScalar C).
        { unfold isScalar, isLeadingSurrogate, isTrailingSurrogate in *.
          apply N.ltb_lt in Hlt. split; [lia|]. intros [Ha Hb].
          destruct (C <=? 0xDBFF) eqn:E.
          - rewrite (leb_true _ _ Ha) in EL. discriminate.
          - bools. rewrite (leb_true 0xDC00 C) in ET by lia.
            rewrite (leb_true C 0xDFFF) in ET by lia. discriminate. }
        pose proof (utf8_encode_nonempty C).
        intros fuel Hf. rewrite length_app, flat_map_percentOctet_length in Hf.
        destruct fuel as [|fuel]; [lia|].
        rewrite Decode_escaped by assumption.
        rewrite Hd by lia. cbn [bind].
        unfold UTF16EncodeCodePoint. apply N.ltb_lt in Hlt.
        rewrite (leb_true C 0xFFFF) by lia. reflexivity.
Qed.

Lemma decode_encode s :
  isWellFormed s = true ->
  exists e, encodeURIComponent s = Normal e /\ decodeURIComponent e = Normal s.
Proof.
  intros H.
  destruct (Decode_Encode_fuel (List.length s) s (le_n _) H) as (e & He & Hd).
  exists e. split; [exact He|]. apply Hd. apply le_n.
Qed.

End CodecFacts.

(** ** The proxy address codec *)

Module Codec.

Import CodecFacts.

Lemma Encode_nonempty C rest e : Encode (C :: rest) = Normal e -> e <> [].
Proof.
  cbn [Encode].
  assert (Hne : forall cp R, flat_map percentOctet (utf8_encode cp) ++ R <> []).
  { intros cp R. pose proof (utf8_encode_nonempty cp) as H.
    destruct (utf8_encode cp); [cbn in H; lia|discriminate]. }
  destruct (alwaysUnescaped C).
  - destruct (Encode rest); cbn [bind]; intros H; inversion H; discriminate.
  - destruct (isTrailingSurrogate C); [discriminate|].
    destruct (isLeadingSurrogate C).
    + destruct rest as [|second rest']; [discriminate|].
      destruct (isTrailingSurrogate second); [|discriminate].
      destruct (Encode rest'); cbn [bind]; intros H; inversion H. apply Hne.
    + destruct (Encode rest); cbn [bind]; intros H; inversion H. apply Hne.
Qed.

(** With the length of the string as fuel, Decode always runs to its end:
    decodeURIComponent returns or throws. *)
Lemma Decode_total fuel : forall s,
  (List.length s <= fuel)%nat -> Decode fuel s <> Unmodelled.
Proof.
  assert (Hc : forall j s bs s', continuationOctets j s = Some (bs, s') ->
            (List.length s' <= List.length s)%nat).
  { induction j as [|j IH]; intros s bs s' H; cbn [continuationOctets] in H.
    - inversion H. lia.
    - destruct s as [|p [|h1 [|h2 s0]]]; try discriminate.
      destruct (p =? ch "%"); [|discriminate].
      destruct (ParseHexOctet h1 h2); [|discriminate].
      destruct (continuationOctets j s0) as [[bs0 s1]|] eqn:E; [|discriminate].
      inversion H; subst. apply IH in E. cbn [List.length]. lia. }
  induction fuel as [|fuel IH]; intros s Hlen.
  - destruct s; [discriminate|cbn in Hlen; lia].
  - destruct s as [|C rest]; [discriminate|].
    cbn [List.length] in Hlen. cbn [Decode].
    assert (Hb : forall (f : jsstring -> jsstring) t,
               (List.length t <= fuel)%nat ->
               (let* R := Decode fuel t in Normal (f R)) <> Unmodelled).
    { intros f t Ht. specialize (IH t Ht).
      destruct (Decode fuel t); cbn [bind]; congruence. }
    destruct (C =? ch "%").
    + destruct rest as [|h1 [|h2 rest']]; try discriminate.
      cbn [List.length] in Hlen.
      destruct (ParseHexOctet h1 h2) as [B|]; [|discriminate].
      destruct (leadingOnes B) as [|[|j]].
      * apply Hb with (f := fun R => B :: R). lia.
      * discriminate.
      * destruct j as [|[|[|j]]]; try discriminate;
          (destruct (continuationOctets _ rest') as [[bs r2]|] eqn:E;
             [|discriminate]);
          apply Hc in E;
          (destruct (utf8_decode (B :: bs)) as [V|]; [|discriminate]);
          apply Hb with (f := fun R => UTF16EncodeCodePoint V ++ R); lia.
    + apply Hb with (f := fun R => C :: R). lia.
Qed.

Lemma decodeURIComponent_total s : decodeURIComponent s <> Unmodelled.
Proof. apply Decode_total. apply le_n. Qed.

Lemma slice_ROUTE_PREFIX e : slice (ROUTE_PREFIX ++ e) (List.length ROUTE_PREFIX) = e.
Proof. reflexivity. Qed.

(** The round trip on every well-formed, non-empty string. *)
Lemma decode_toProxiedPath u :
  u <> [] -> isWellFormed u = true ->
  exists p, toProxiedPath u = Normal p /\ decode p = Normal (Target u).
Proof.
  intros Hne Hwf. destruct (decode_encode u Hwf) as (e & He & Hd).
  exists (ROUTE_PREFIX ++ e). unfold toProxiedPath. rewrite He. split; [reflexivity|].
  unfold decode. rewrite slice_ROUTE_PREFIX.
  destruct u as [|C rest]; [contradiction|].
  pose proof (Encode_nonempty C rest e He) as Hen.
  destruct e as [|c e']; [contradiction|]. rewrite Hd. reflexivity.
Qed.

End Codec.

(** C1. Codec round-trip: for every valid absolute URL string [u] (and more
    generally for every non-empty string without an unpaired surrogate, which
    every valid URL string is), encoding [u] into a proxied path, the route
    prefix followed by the percent-encoding of [u], succeeds, and decoding
    that path, stripping the prefix and percent-decoding as the dispatcher
    does, yields exactly [u]. *)
Theorem C1_codec_round_trip (u : jsstring) :
  u <> [] -> isWellFormed u = true ->
  exists p, toProxiedPath u = Normal p /\ decode p = Normal (Target u).
Proof.
  intros Hne Hwf.
  destruct (CodecFacts.decode_encode u Hwf) as (e & He & Hd).
  exists (ROUTE_PREFIX ++ e). unfold toProxiedPath. rewrite He.
  split; [reflexivity|].
  unfold decode. rewrite Codec.slice_ROUTE_PREFIX.
  destruct u as [|C rest]; [contradiction|].
  pose proof (Codec.Encode_nonempty C rest e He) as Hen.
  destruct e as [|c e']; [contradiction|]. rewrite Hd. reflexivity.
Qed.

Lemma C1_codec_round_trip_witness :
  exists p, toProxiedPath (js "https://example.com/a b?x=1&y=%2F#top") = Normal p
            /\ decode p = Normal (Target (js "https://example.com/a b?x=1&y=%2F#top")).
Proof.
  apply C1_codec_round_trip.
  - discriminate.
  - vm_compute. reflexivity.
Defined.

(** The same for the strings that [new URL] accepts as absolute URLs. *)
Corollary codec_round_trip_absolute (u : jsstring) :
  isAbsoluteURL u ->
  exists p, toProxiedPath u = Normal p /\ decode p = Normal (Target u).
Proof.
  intros [Hwf [r Hr]]. apply Codec.decode_toProxiedPath; [|exact Hwf].
  intros ->. vm_compute in Hr. discriminate.
Qed.

(** A target outside ASCII: a surrogate pair and a code point of three
    octets. *)
Example codec_round_trip_unicode :
  toProxiedPath (js "https://example.com/" ++ [0xD83D; 0xDE00; 0x20AC])
  = Normal (js "/service/https%3A%2F%2Fexample.com%2F%F0%9F%98%80%E2%82%AC")
  /\ decode (js "/service/https%3A%2F%2Fexample.com%2F%F0%9F%98%80%E2%82%AC")
  = Normal (Target (js "https://example.com/" ++ [0xD83D; 0xDE00; 0x20AC])).
Proof. split; vm_compute; reflexivity. Qed.

(** ** Header lists *)

Module HeadersFacts.

Import Headers.

Lemma jseqb_eq a : forall b, jseqb a b = true <-> a = b.
Proof.
  induction a as [|x a IH]; intros [|y b]; cbn [jseqb]; split; intros H;
    try reflexivity; try discriminate.
  - apply andb_true_iff in H. destruct H as [H1 H2].
    apply N.eqb_eq in H1. apply IH in H2. congruence.
  - inversion H; subst. rewrite N.eqb_refl. apply IH. reflexivity.
Qed.

Lemma jseqb_refl a : jseqb a a = true.
Proof. apply jseqb_eq. reflexivity. Qed.

Lemma nameIs_distinct m n h : distinct m n -> nameIs n h = true -> nameIs m h = false.
Proof.
  unfold distinct, nameIs. intros Hd Hn. apply jseqb_eq in Hn.
  destruct (jseqb (lower (fst h)) (lower m)) eqn:E; [|reflexivity].
  apply jseqb_eq in E. rewrite <- Hn, E, jseqb_refl in Hd. discriminate.
Qed.

Lemma distinct_sym m n : distinct m n -> distinct n m.
Proof.
  unfold distinct. intros H. destruct (jseqb (lower n) (lower m)) eqn:E; [|reflexivity].
  apply jseqb_eq in E. rewrite E, jseqb_refl in H. discriminate.
Qed.

Lemma filter_delete_same l n : filter (nameIs n) (delete l n) = [].
Proof.
  unfold delete. induction l as [|h l IH]; [reflexivity|]. cbn [filter].
  destruct (nameIs n h) eqn:E; cbn [negb filter]; [exact IH|].
  rewrite E. exact IH.
Qed.

Lemma filter_delete_other l m n :
  distinct m n -> filter (nameIs m) (delete l n) = filter (nameIs m) l.
Proof.
  intros Hd. unfold delete. induction l as [|h l IH]; [reflexivity|].
  cbn [filter]. destruct (nameIs n h) eqn:E; cbn [negb filter].
  - rewrite (nameIs_distinct m n h Hd E). exact IH.
  - destruct (nameIs m h); [f_equal|]; exact IH.
Qed.

Lemma filter_set_same l n v :
  exists n', filter (nameIs n) (set l n v) = [(n', v)].
Proof.
  induction l as [|h l [n' IH]]; cbn [set].
  - exists n. cbn [filter]. unfold nameIs at 1. cbn [fst]. rewrite jseqb_refl.
    reflexivity.
  - destruct (nameIs n h) eqn:E.
    + exists (fst h). cbn [filter]. unfold nameIs at 1. cbn [fst].
      unfold nameIs in E. rewrite E, filter_delete_same. reflexivity.
    + exists n'. cbn [filter]. rewrite E. exact IH.
Qed.

Lemma filter_set_other l m n v :
  distinct m n -> filter (nameIs m) (set l n v) = filter (nameIs m) l.
Proof.
  intros Hd. induction l as [|h l IH]; cbn [set].
  - cbn [filter]. unfold nameIs. cbn [fst].
    unfold distinct in Hd. apply distinct_sym in Hd. unfold distinct in Hd.
    rewrite Hd. reflexivity.
  - destruct (nameIs n h) eqn:E.
    + cbn [filter]. rewrite (nameIs_distinct m n h Hd E).
      assert (Hh : nameIs m (fst h, v) = false).
      { apply (nameIs_distinct m n); [exact Hd|]. exact E. }
      rewrite Hh. apply filter_delete_other. exact Hd.
    + cbn [filter]. destruct (nameIs m h); [f_equal|]; exact IH.
Qed.

Lemma has_filter l n : has l n = match filter (nameIs n) l with [] => false | _ => true end.
Proof.
  unfold has. induction l as [|h l IH]; [reflexivity|]. cbn [existsb filter].
  destruct (nameIs n h); [reflexivity|exact IH].
Qed.

Lemma has_delete_same l n : has (delete l n) n = false.
Proof. rewrite has_filter, filter_delete_same. reflexivity. Qed.

Lemma has_delete_other l m n : distinct m n -> has (delete l n) m = has l m.
Proof. intros H. rewrite !has_filter, filter_delete_other by exact H. reflexivity. Qed.

Lemma has_set_other l m n v : distinct m n -> has (set l n v) m = has l m.
Proof. intros H. rewrite !has_filter, filter_set_other by exact H. reflexivity. Qed.

Lemma get_delete_other l m n : distinct m n -> get (delete l n) m = get l m.
Proof. intros H. unfold get. rewrite filter_delete_other by exact H. reflexivity. Qed.

Lemma get_set_same l n v : get (set l n v) n = Some v.
Proof. unfold get. destruct (filter_set_same l n v) as [n' ->]. reflexivity. Qed.

Lemma get_set_other l m n v : distinct m n -> get (set l n v) m = get l m.
Proof. intros H. unfold get. rewrite filter_set_other by exact H. reflexivity. Qed.

Lemma has_set_same l n v : has (set l n v) n = true.
Proof.
  rewrite has_filter. destruct (filter_set_same l n v) as [n' ->]. reflexivity.
Qed.

(** Deleting a header that is not there changes nothing, so the guarded
    deletions of the middle variant are plain deletions. *)
Lemma delete_absent l n : has l n = false -> delete l n = l.
Proof.
  unfold has, delete. induction l as [|h l IH]; [reflexivity|]. cbn [existsb filter].
  intros H. apply orb_false_iff in H. destruct H as [H1 H2].
  rewrite H1. cbn [negb]. f_equal. apply IH. exact H2.
Qed.

Lemma guarded_delete l n : (if has l n then delete l n else l) = delete l n.
Proof.
  destruct (has l n) eqn:E; [reflexivity|]. symmetry. apply delete_absent. exact E.
Qed.

Lemma has_get l n : has l n = false <-> get l n = None.
Proof.
  rewrite has_filter. unfold get. destruct (filter (nameIs n) l); split;
    intros H; try reflexivity; discriminate.
Qed.

End HeadersFacts.

(** ** The header sanitizers *)

Module Sanitizer.

Import Headers HeadersFacts HeaderNames.

(** Push [has] and [get] through the edits of a sanitizer; the names are
    literals, so their distinctness is decided by evaluation. *)
Ltac through_edits :=
  repeat first
    [ rewrite has_delete_same
    | rewrite get_set_same
    | rewrite has_set_same
    | rewrite has_set_other by reflexivity
    | rewrite has_delete_other by reflexivity
    | rewrite get_set_other by reflexivity
    | rewrite get_delete_other by reflexivity ].

Lemma sanitizeHeaders_unfold hs b :
  Middle.sanitizeHeaders hs b =
  if b then
    if negb (testNoCase (js "text/html") (orElse (get (middleEdits hs) ctype) htmlUtf8))
    then set (middleEdits hs) ctype htmlUtf8
    else middleEdits hs
  else middleEdits hs.
Proof.
  unfold Middle.sanitizeHeaders, middleEdits, Headers.new.
  rewrite !guarded_delete. reflexivity.
Qed.

Lemma middleEdits_get hs name :
  distinct name csp -> distinct name cspro -> distinct name xfo ->
  distinct name xcto -> distinct name acao -> distinct name acah ->
  distinct name acam ->
  get (middleEdits hs) name = get hs name.
Proof.
  intros. unfold middleEdits.
  rewrite !get_delete_other, !get_set_other, !get_delete_other by assumption.
  reflexivity.
Qed.

(** What the sanitizer of the middle variant guarantees, whatever the
    content-type step does. *)
Lemma middle_removal_set hs b :
  let out := Middle.sanitizeHeaders hs b in
  has out csp = false /\ has out cspro = false /\ has out xfo = false /\
  has out xcto = false /\
  get out acao = Some (js "*") /\ get out acah = Some (js "*") /\
  get out acam = Some verbs.
Proof.
  cbv zeta. rewrite sanitizeHeaders_unfold.
  destruct b; [destruct (negb _)|]; unfold middleEdits;
    repeat split; through_edits; reflexivity.
Qed.

(** The sanitizer of worker.js deletes three names and sets the same three;
    it never touches [x-content-type-options]. *)
Lemma worker_removal_set hs :
  let out := Worker.sanitizeHeadersInPlace hs in
  has out csp = false /\ has out cspro = false /\ has out xfo = false /\
  get out xcto = get hs xcto /\
  get out acao = Some (js "*") /\ get out acah = Some (js "*") /\
  get out acam = Some verbs.
Proof.
  cbv zeta. unfold Worker.sanitizeHeadersInPlace.
  repeat split; through_edits; reflexivity.
Qed.

Lemma worker_get hs name :
  distinct name csp -> distinct name cspro -> distinct name xfo ->
  distinct name acao -> distinct name acah -> distinct name acam ->
  get (Worker.sanitizeHeadersInPlace hs) name = get hs name.
Proof.
  intros. unfold Worker.sanitizeHeadersInPlace.
  rewrite !get_set_other, !get_delete_other by assumption.
  reflexivity.
Qed.

End Sanitizer.

(** C3 (as stated, refuted). The sanitizer of worker.js keeps an
    [x-content-type-options] header of its input. *)
Lemma C3_counterexample :
  Headers.has
    (Worker.sanitizeHeadersInPlace [(js "x-content-type-options", js "nosniff")])
    (js "x-content-type-options") = true.
Proof. vm_compute. reflexivity. Qed.

(** C3 (amended). Header sanitizer removal set: for every input header set,
    - the output of [sanitizeHeaders] (middle variant) contains none of
      content-security-policy, content-security-policy-report-only,
      x-frame-options and x-content-type-options;
    - the output of [sanitizeHeadersInPlace] (worker.js) contains none of
      content-security-policy, content-security-policy-report-only and
      x-frame-options, and carries x-content-type-options exactly as the
      input does;
    - in both, access-control-allow-origin and access-control-allow-headers
      are [*] and access-control-allow-methods is the verb list. *)
Theorem C3_sanitizer_removal_set (hs : Headers.t) (contentTypeIsHtml : bool) :
  let m := Middle.sanitizeHeaders hs contentTypeIsHtml in
  let w := Worker.sanitizeHeadersInPlace hs in
  (Headers.has m (js "content-security-policy") = false /\
   Headers.has m (js "content-security-policy-report-only") = false /\
   Headers.has m (js "x-frame-options") = false /\
   Headers.has m (js "x-content-type-options") = false /\
   Headers.get m (js "access-control-allow-origin") = Some (js "*") /\
   Headers.get m (js "access-control-allow-headers") = Some (js "*") /\
   Headers.get m (js "access-control-allow-methods")
     = Some (js "GET,POST,PUT,PATCH,DELETE,OPTIONS")) /\
  (Headers.has w (js "content-security-policy") = false /\
   Headers.has w (js "content-security-policy-report-only") = false /\
   Headers.has w (js "x-frame-options") = false /\
   Headers.get w (js "x-content-type-options")
     = Headers.get hs (js "x-content-type-options") /\
   Headers.get w (js "access-control-allow-origin") = Some (js "*") /\
   Headers.get w (js "access-control-allow-headers") = Some (js "*") /\
   Headers.get w (js "access-control-allow-methods")
     = Some (js "GET,POST,PUT,PATCH,DELETE,OPTIONS")).
Proof.
  split.
  - apply (Sanitizer.middle_removal_set hs contentTypeIsHtml).
  - apply (Sanitizer.worker_removal_set hs).
Qed.

(** ** Content-type of a rewritten HTML response *)

Module ContentType.

Import Headers HeadersFacts HeaderNames Sanitizer CodecFacts.












End ContentType.




(** ** The dispatchers *)

Module Dispatch.

Lemma replaceFirst_prefix pattern s :
  startsWith s pattern = true ->
  Index.replaceFirst pattern [] s = skipn (List.length pattern) s.
Proof. intros H. destruct s; cbn [Index.replaceFirst]; rewrite H; reflexivity. Qed.

(** A decoded target comes from a non-empty remainder of the path. *)
Lemma decode_Target pathname target :
  decode pathname = Normal (Target target) ->
  decodeURIComponent (slice pathname (List.length ROUTE_PREFIX)) = Normal target.
Proof.
  unfold decode. destruct (slice pathname (List.length ROUTE_PREFIX)) as [|c e];
    [discriminate|].
  destruct (decodeURIComponent (c :: e)); intros H; inversion H. reflexivity.
Qed.

Section Runs.

Variable transport : jsstring -> RequestInit -> Settled.
Variable request : Request.
Variable u : URL.t.
Hypothesis Hurl : URL.new (url request) None = Normal u.

(** Unmatched path, worker.js. *)
Lemma worker_unmatched :
  startsWith (URL.pathname u) ROUTE_PREFIX = false ->
  Worker.fetch transport request
  = ([], Normal (plainText 200
                   (js "Boat Proxy Worker ready. Use /service/<encodedURL>"))).
Proof. intros H. unfold Worker.fetch. rewrite Hurl, H. reflexivity. Qed.

(** Unmatched path, middle variant. *)
Lemma middle_unmatched :
  startsWith (URL.pathname u) ROUTE_PREFIX = false ->
  Middle.fetch transport request
  = ([], Normal
           (if jseqb (URL.pathname u) (js "/") || jseqb (URL.pathname u) []
            then plainText 200
                   (js "Ultraviolet-style Worker: use /service/<encodedURL>")
            else plainText 404 (js "Not found. Use /service/<encodedURL>"))).
Proof.
  intros H. unfold Middle.fetch. rewrite Hurl, H. unfold Middle.WORKER_BASE.
  destruct (jseqb (URL.pathname u) (js "/") || jseqb (URL.pathname u) []);
    reflexivity.
Qed.

Variable target origin : jsstring.
Hypothesis Hprefix : startsWith (URL.pathname u) ROUTE_PREFIX = true.
Hypothesis Hdecode : decode (URL.pathname u) = Normal (Target target).
Hypothesis Horigin : URL.origin u = Normal origin.

Lemma pathname_not_root :
  jseqb (URL.pathname u) (js "/") || jseqb (URL.pathname u) Middle.WORKER_BASE
  = false.
Proof.
  destruct (jseqb (URL.pathname u) (js "/")) eqn:E1.
  - apply HeadersFacts.jseqb_eq in E1. rewrite E1 in Hprefix. discriminate.
  - destruct (jseqb (URL.pathname u) Middle.WORKER_BASE) eqn:E2; [|reflexivity].
    apply HeadersFacts.jseqb_eq in E2. rewrite E2 in Hprefix. discriminate.
Qed.

(** The guard of worker.js and of the middle variant is a test on strings:
    it refuses exactly the targets that start with the text of the origin. *)
Lemma worker_guard :
  Worker.fetch transport request
  = if startsWith target origin
    then ([], Normal (plainText 400 (js "Refusing to proxy worker origin")))
    else
      match transport target (initOf request) with
      | Rejected err =>
          ([(target, initOf request)],
           Normal (plainText 502 (js "Upstream fetch error: " ++ err)))
      | Fulfilled upstream =>
          ([(target, initOf request)], Worker.relay target upstream)
      end.
Proof.
  unfold Worker.fetch. rewrite Hurl, Hprefix, Hdecode, Horigin. cbn [negb].
  destruct (startsWith target origin); reflexivity.
Qed.

Lemma middle_guard :
  Middle.fetch transport request
  = if startsWith target origin
    then ([], Normal (plainText 400 (js "Refusing to proxy this origin")))
    else
      match transport target (initOf request) with
      | Rejected err =>
          ([(target, initOf request)],
           Normal (plainText 502 (js "Upstream fetch error: " ++ err)))
      | Fulfilled resp =>
          ([(target, initOf request)], Middle.relay target resp)
      end.
Proof.
  unfold Middle.fetch.
  rewrite Hurl, pathname_not_root, Hprefix, Hdecode, Horigin. cbn [negb].
  destruct (startsWith target origin); reflexivity.
Qed.

Lemma index_run :
  Index.fetch transport request
  = match transport target (initOf request) with
    | Rejected err =>
        ([(target, initOf request)],
         Normal (plainText 500 (js "Error fetching target: " ++ err)))
    | Fulfilled resp => ([(target, initOf request)], Normal resp)
    end.
Proof.
  unfold Index.fetch. rewrite Hurl.
  change (js "/service/") with ROUTE_PREFIX. rewrite Hprefix.
  rewrite (replaceFirst_prefix _ _ Hprefix).
  change (skipn (List.length ROUTE_PREFIX) (URL.pathname u))
    with (slice (URL.pathname u) (List.length ROUTE_PREFIX)).
  rewrite (decode_Target _ _ Hdecode). reflexivity.
Qed.

End Runs.

End Dispatch.

(** C9 (as stated, refuted). The middle variant answers a path outside the
    route prefix, other than the root, with 404. *)
Lemma C9_counterexample :
  Middle.fetch failingTransport (GET "https://proxy.example/favicon.ico")
  = ([], Normal (plainText 404 (js "Not found. Use /service/<encodedURL>"))).
Proof. vm_compute. reflexivity. Qed.

(** C9 (amended). Unmatched-path response: for every incoming request whose
    path does not start with the route prefix, no outbound fetch is
    performed, and
    - worker.js responds with status 200 and its usage string;
    - the middle variant responds with status 200 and its usage string when
      the path is [/] (or the empty worker base), and with status 404 and a
      not-found message that repeats the usage otherwise. *)
Theorem C9_unmatched_path
    (transport : jsstring -> RequestInit -> Settled) (request : Request)
    (u : URL.t) :
  URL.new (url request) None = Normal u ->
  startsWith (URL.pathname u) ROUTE_PREFIX = false ->
  Worker.fetch transport request
  = ([], Normal (plainText 200
                   (js "Boat Proxy Worker ready. Use /service/<encodedURL>")))
  /\
  Middle.fetch transport request
  = ([], Normal
           (if jseqb (URL.pathname u) (js "/") || jseqb (URL.pathname u) []
            then plainText 200
                   (js "Ultraviolet-style Worker: use /service/<encodedURL>")
            else plainText 404 (js "Not found. Use /service/<encodedURL>"))).
Proof.
  intros Hu Hp. split.
  - apply (Dispatch.worker_unmatched transport request u Hu Hp).
  - apply (Dispatch.middle_unmatched transport request u Hu Hp).
Qed.

Lemma C9_unmatched_path_witness :
  Worker.fetch failingTransport (GET "https://proxy.example/")
  = ([], Normal (plainText 200
                   (js "Boat Proxy Worker ready. Use /service/<encodedURL>")))
  /\
  Middle.fetch failingTransport (GET "https://proxy.example/")
  = ([], Normal (plainText 200
                   (js "Ultraviolet-style Worker: use /service/<encodedURL>"))).
Proof.
  refine (C9_unmatched_path failingTransport (GET "https://proxy.example/")
            (URL.mk (js "https") [] [] (Some (js "proxy.example")) None
               (URL.Segments [[]]) None None) _ _).
  - vm_compute. reflexivity.
  - vm_compute. reflexivity.
Defined.

(** C4 (as stated, refuted). The dispatcher of index.js answers a failed
    outbound fetch with status 500. *)
Lemma C4_counterexample :
  Index.fetch failingTransport
    (GET "https://proxy.example/service/https%3A%2F%2Fexample.com%2F")
  = ([(js "https://example.com/", mkInit (js "GET") [] None)],
     Normal (plainText 500
               (js "Error fetching target: TypeError: Network connection lost."))).
Proof. vm_compute. reflexivity. Qed.

(** C4 (amended). Upstream fetch failure: for every request under the route
    prefix whose target decodes and does not start with the proxy's origin,
    if the outbound fetch is rejected with an error that converts to the
    string [err], then
    - worker.js and the middle variant respond with status 502 and the
      plain-text body [Upstream fetch error: ] followed by [err];
    - index.js responds with status 500 and the plain-text body
      [Error fetching target: ] followed by [err];
    each after exactly one outbound fetch, to the decoded target. *)
Theorem C4_upstream_fetch_failure
    (transport : jsstring -> RequestInit -> Settled) (request : Request)
    (u : URL.t) (target origin err : jsstring) :
  URL.new (url request) None = Normal u ->
  startsWith (URL.pathname u) ROUTE_PREFIX = true ->
  decode (URL.pathname u) = Normal (Target target) ->
  URL.origin u = Normal origin ->
  startsWith target origin = false ->
  transport target (initOf request) = Rejected err ->
  Worker.fetch transport request
  = ([(target, initOf request)],
     Normal (plainText 502 (js "Upstream fetch error: " ++ err)))
  /\
  Middle.fetch transport request
  = ([(target, initOf request)],
     Normal (plainText 502 (js "Upstream fetch error: " ++ err)))
  /\
  Index.fetch transport request
  = ([(target, initOf request)],
     Normal (plainText 500 (js "Error fetching target: " ++ err))).
Proof.
  intros Hu Hp Hd Ho Hg Ht. repeat split.
  - rewrite (Dispatch.worker_guard transport request u Hu target origin Hp Hd Ho).
    rewrite Hg, Ht. reflexivity.
  - rewrite (Dispatch.middle_guard transport request u Hu target origin Hp Hd Ho).
    rewrite Hg, Ht. reflexivity.
  - rewrite (Dispatch.index_run transport request u Hu target Hp Hd).
    rewrite Ht. reflexivity.
Qed.

Lemma C4_upstream_fetch_failure_witness :
  let request := GET "https://proxy.example/service/https%3A%2F%2Fexample.com%2Fa%20b" in
  let sent := [(js "https://example.com/a b", mkInit (js "GET") [] None)] in
  Worker.fetch failingTransport request
  = (sent, Normal (plainText 502
       (js "Upstream fetch error: " ++ js "TypeError: Network connection lost.")))
  /\
  Middle.fetch failingTransport request
  = (sent, Normal (plainText 502
       (js "Upstream fetch error: " ++ js "TypeError: Network connection lost.")))
  /\
  Index.fetch failingTransport request
  = (sent, Normal (plainText 500
       (js "Error fetching target: " ++ js "TypeError: Network connection lost."))).
Proof.
  refine (C4_upstream_fetch_failure failingTransport
            (GET "https://proxy.example/service/https%3A%2F%2Fexample.com%2Fa%20b")
            (URL.mk (js "https") [] [] (Some (js "proxy.example")) None
               (URL.Segments [js "service"; js "https%3A%2F%2Fexample.com%2Fa%20b"])
               None None)
            (js "https://example.com/a b") (js "https://proxy.example")
            (js "TypeError: Network connection lost.") _ _ _ _ _ _);
    vm_compute; reflexivity.
Defined.

(** ** The recursion guard *)

(** C2 (the code departs from the claim). The request below asks the proxy
    at [https://proxy.example] for the target [HTTPS://proxy.example/loop].
    The origin of that target is the origin of the proxy, yet the target
    does not start with the text [https://proxy.example]: worker.js and the
    middle variant let it through and issue the outbound fetch, whatever the
    transport.  In the other direction the target
    [https://proxy.example.evil.test/] has another origin and is refused,
    because it starts with that text. *)
Theorem C2_recursion_guard_compares_text
    (transport : jsstring -> RequestInit -> Settled) :
  let self := GET "https://proxy.example/service/HTTPS%3A%2F%2Fproxy.example%2Floop" in
  let other := GET "https://proxy.example/service/https%3A%2F%2Fproxy.example.evil.test%2F" in
  (exists u t,
     URL.new (url self) None = Normal u /\
     decode (URL.pathname u) = Normal (Target (js "HTTPS://proxy.example/loop")) /\
     URL.new (js "HTTPS://proxy.example/loop") None = Normal t /\
     URL.origin u = Normal (js "https://proxy.example") /\
     URL.origin t = Normal (js "https://proxy.example") /\
     fst (Worker.fetch transport self)
       = [(js "HTTPS://proxy.example/loop", mkInit (js "GET") [] None)] /\
     fst (Middle.fetch transport self)
       = [(js "HTTPS://proxy.example/loop", mkInit (js "GET") [] None)]) /\
  (exists u t,
     URL.new (url other) None = Normal u /\
     decode (URL.pathname u)
       = Normal (Target (js "https://proxy.example.evil.test/")) /\
     URL.new (js "https://proxy.example.evil.test/") None = Normal t /\
     URL.origin u = Normal (js "https://proxy.example") /\
     URL.origin t = Normal (js "https://proxy.example.evil.test") /\
     Worker.fetch transport other
       = ([], Normal (plainText 400 (js "Refusing to proxy worker origin"))) /\
     Middle.fetch transport other
       = ([], Normal (plainText 400 (js "Refusing to proxy this origin")))).
Proof.
  cbv zeta.
  set (proxy := js "https://proxy.example").
  set (pu1 := URL.mk (js "https") [] [] (Some (js "proxy.example")) None
                (URL.Segments [js "service"; js "HTTPS%3A%2F%2Fproxy.example%2Floop"])
                None None).
  set (pu2 := URL.mk (js "https") [] [] (Some (js "proxy.example")) None
                (URL.Segments
                   [js "service"; js "https%3A%2F%2Fproxy.example.evil.test%2F"])
                None None).
  split.
  - assert (Hu : URL.new (url (GET "https://proxy.example/service/HTTPS%3A%2F%2Fproxy.example%2Floop")) None
                 = Normal pu1) by (vm_compute; reflexivity).
    assert (Hp : startsWith (URL.pathname pu1) ROUTE_PREFIX = true)
      by (vm_compute; reflexivity).
    assert (Hd : decode (URL.pathname pu1)
                 = Normal (Target (js "HTTPS://proxy.example/loop")))
      by (vm_compute; reflexivity).
    assert (Ho : URL.origin pu1 = Normal proxy) by (vm_compute; reflexivity).
    assert (Hg : startsWith (js "HTTPS://proxy.example/loop") proxy = false)
      by (vm_compute; reflexivity).
    exists pu1. eexists.
    split; [exact Hu|]. split; [exact Hd|].
    split; [vm_compute; reflexivity|]. split; [exact Ho|].
    split; [vm_compute; reflexivity|].
    split.
    + rewrite (Dispatch.worker_guard transport _ pu1 Hu _ proxy Hp Hd Ho), Hg.
      destruct (transport _ _); reflexivity.
    + rewrite (Dispatch.middle_guard transport _ pu1 Hu _ proxy Hp Hd Ho), Hg.
      destruct (transport _ _); reflexivity.
  - assert (Hu : URL.new (url (GET "https://proxy.example/service/https%3A%2F%2Fproxy.example.evil.test%2F")) None
                 = Normal pu2) by (vm_compute; reflexivity).
    assert (Hp : startsWith (URL.pathname pu2) ROUTE_PREFIX = true)
      by (vm_compute; reflexivity).
    assert (Hd : decode (URL.pathname pu2)
                 = Normal (Target (js "https://proxy.example.evil.test/")))
      by (vm_compute; reflexivity).
    assert (Ho : URL.origin pu2 = Normal proxy) by (vm_compute; reflexivity).
    assert (Hg : startsWith (js "https://proxy.example.evil.test/") proxy = true)
      by (vm_compute; reflexivity).
    exists pu2. eexists.
    split; [exact Hu|]. split; [exact Hd|].
    split; [vm_compute; reflexivity|]. split; [exact Ho|].
    split; [vm_compute; reflexivity|].
    split.
    + rewrite (Dispatch.worker_guard transport _ pu2 Hu _ proxy Hp Hd Ho), Hg.
      reflexivity.
    + rewrite (Dispatch.middle_guard transport _ pu2 Hu _ proxy Hp Hd Ho), Hg.
      reflexivity.
Qed.

(** ** The URL resolver *)

Module Resolver.

(** The parser consults the base only for a reference without a scheme, or
    with a special scheme that is not followed by two slashes. *)
Lemma parse_absolute ref b :
  isAbsoluteReference ref = true ->
  URL.parse ref (Some b) = URL.parse ref None.
Proof.
  unfold isAbsoluteReference, URL.parse, URL.parseCodePoints.
  destruct (URL.scanScheme (URL.preprocess ref)) as [[sch rest]|]; [|discriminate].
  intros H. destruct (jseqb sch (js "file")); [reflexivity|].
  destruct (URL.isSpecial sch); [|reflexivity].
  cbn [negb orb] in H.
  destruct (jseqb (URL.scheme b) sch); [|reflexivity].
  unfold URL.specialRelativeOrAuthority, URL.specialAuthoritySlashes.
  rewrite H. reflexivity.
Qed.

End Resolver.

(** C5 (as stated, refuted). The reference [https://example.com] is an
    absolute URL; the resolver returns it with a slash added. *)
Lemma C5_counterexample :
  isAbsoluteReference (js "https://example.com") = true /\
  resolveUrl (js "https://proxy.example/") (js "https://example.com")
    = Normal (js "https://example.com/") /\
  js "https://example.com/" <> js "https://example.com".
Proof.
  split; [vm_compute; reflexivity|]. split; [vm_compute; reflexivity|].
  vm_compute. discriminate.
Qed.

(** C5 (amended). URL resolver on absolute input: for every reference that
    is a syntactically absolute URL and every base that parses,
    [resolveUrl(base, ref)] does not depend on the base: it returns the
    serialization of the reference parsed on its own, that is the same URL in
    the normal form of the URL class (which is the input character for
    character only when the input is in that form already); a reference that
    does not parse is returned unchanged. *)
Theorem C5_resolve_absolute (base ref : jsstring) (b : URL.t) :
  URL.parse base None = Normal b ->
  isAbsoluteReference ref = true ->
  resolveUrl base ref
  = match URL.new ref None with
    | Normal u => Normal (URL.toString u)
    | Throw _ => Normal ref
    | Unmodelled => Unmodelled
    end.
Proof.
  intros Hb Ha. unfold resolveUrl, URL.new. rewrite Hb. cbn [bind].
  rewrite (Resolver.parse_absolute ref b Ha).
  destruct (URL.parse ref None); reflexivity.
Qed.

Lemma C5_resolve_absolute_witness :
  resolveUrl (js "https://proxy.example/a/b?c") (js "HTTP://Example.COM:80/x/../y")
  = Normal (js "http://example.com/y").
Proof.
  refine (eq_trans
            (C5_resolve_absolute (js "https://proxy.example/a/b?c")
               (js "HTTP://Example.COM:80/x/../y")
               (URL.mk (js "https") [] [] (Some (js "proxy.example")) None
                  (URL.Segments [js "a"; js "b"]) (Some (js "c")) None) _ _) _);
    vm_compute; reflexivity.
Defined.

(** ** srcset values *)

Module Srcset.
























End Srcset.




(** ** url(...) occurrences in style attributes and style sheets *)

Module CssUrls.

Lemma break_run u c rest :
  isPlainUrl u -> isUrlChar c = false ->
  URL.break (fun c => negb (isUrlChar c)) (u ++ c :: rest) = (u, c :: rest).
Proof.
  intros Hu Hc. induction Hu as [|x u Hx _ IH]; cbn [app URL.break].
  - rewrite Hc. reflexivity.
  - rewrite Hx. cbn [negb]. rewrite IH. reflexivity.
Qed.

Lemma runLength_run u c rest :
  isPlainUrl u -> isUrlChar c = false ->
  runLength (u ++ c :: rest) = List.length u.
Proof. intros Hu Hc. unfold runLength. rewrite break_run by assumption. reflexivity. Qed.

Lemma skipn_length_app {A} (a b : list A) : skipn (List.length a) (a ++ b) = b.
Proof. induction a; [reflexivity|exact IHa]. Qed.

Lemma firstn_length_app {A} (a b : list A) : firstn (List.length a) (a ++ b) = a.
Proof. induction a; [reflexivity|]. cbn [List.length app firstn]. f_equal. exact IHa. Qed.

Lemma startsWith_app p s : startsWith (p ++ s) p = true.
Proof. induction p; [reflexivity|]. cbn [app startsWith]. rewrite N.eqb_refl. exact IHp. Qed.

(** Group 2 takes the whole run when the back-reference and the closing
    parenthesis follow it. *)
Lemma tryGroup2_run q u rest :
  u <> [] ->
  exists r, tryGroup2 (List.length u) q (u ++ (q ++ js ")") ++ rest) = Some (u, r).
Proof.
  intros Hne. destruct u as [|c u]; [contradiction|].
  cbn [List.length tryGroup2].
  change (S (List.length u)) with (List.length (c :: u)).
  rewrite skipn_length_app, startsWith_app, firstn_length_app.
  eexists. reflexivity.
Qed.

Lemma matchGroup2_run q u c rest :
  isPlainUrl u -> u <> [] -> isUrlChar c = false ->
  q ++ js ")" = c :: tl (q ++ js ")") ->
  matchGroup2 q (u ++ (q ++ js ")") ++ rest)
  = Some (mkMatch (urlOccurrence q u) q u).
Proof.
  intros Hu Hne Hc Hq. unfold matchGroup2.
  assert (E : runLength (u ++ (q ++ js ")") ++ rest) = List.length u).
  { rewrite Hq. cbn [app]. apply runLength_run; assumption. }
  rewrite E. destruct (tryGroup2_run q u rest Hne) as [r ->]. reflexivity.
Qed.

(** The pattern matches a plain occurrence where it starts, with the quote
    and the URL as captures. *)
Lemma matchUrlAt_occurrence q u rest :
  isQuoteOrNothing q -> isPlainUrl u -> u <> [] ->
  matchUrlAt (urlOccurrence q u ++ rest)
  = Some (mkMatch (urlOccurrence q u) q u).
Proof.
  intros Hq Hu Hne.
  assert (E : urlOccurrence q u ++ rest
              = js "url(" ++ q ++ u ++ (q ++ js ")") ++ rest).
  { unfold urlOccurrence. rewrite <- !app_assoc. reflexivity. }
  rewrite E.
  change (matchUrlAt (js "url(" ++ q ++ u ++ (q ++ js ")") ++ rest))
    with (matchGroup1 (q ++ u ++ (q ++ js ")") ++ rest)).
  destruct Hq as [->|[->| ->]].
  - destruct u as [|c u'] eqn:Eu; [contradiction|].
    assert (Hc : isQuote c = false).
    { inversion Hu as [|? ? Hc _]; subst.
      unfold isUrlChar in Hc. apply negb_true_iff in Hc.
      apply orb_false_iff in Hc. apply Hc. }
    cbn [app matchGroup1]. rewrite Hc.
    apply (matchGroup2_run [] (c :: u') (ch ")") rest Hu Hne); reflexivity.
  - pose proof (matchGroup2_run [ch "'"] u (ch "'") rest Hu Hne
                  eq_refl eq_refl) as X.
    change (matchGroup1 ([ch "'"] ++ u ++ ([ch "'"] ++ js ")") ++ rest))
      with (match matchGroup2 [ch "'"] (u ++ ([ch "'"] ++ js ")") ++ rest) with
            | Some m => Some m
            | None => matchGroup2 [] ([ch "'"] ++ u ++ ([ch "'"] ++ js ")") ++ rest)
            end).
    rewrite X. reflexivity.
  - pose proof (matchGroup2_run [34] u 34 rest Hu Hne eq_refl eq_refl) as X.
    change (matchGroup1 ([34] ++ u ++ ([34] ++ js ")") ++ rest))
      with (match matchGroup2 [34] (u ++ ([34] ++ js ")") ++ rest) with
            | Some m => Some m
            | None => matchGroup2 [] ([34] ++ u ++ ([34] ++ js ")") ++ rest)
            end).
    rewrite X. reflexivity.
Qed.

Lemma scanUrls_skip a : forall rest,
  scanUrls (List.length a) (a ++ rest) = scanUrls 0 rest.
Proof. induction a as [|c a IH]; intros rest; [reflexivity|]. cbn. apply IH. Qed.

Lemma scanUrls_match m c a rest :
  matchUrlAt ((c :: a) ++ rest) = Some m -> m_text m = c :: a ->
  scanUrls 0 ((c :: a) ++ rest) = Match m :: scanUrls 0 rest.
Proof.
  intros Hm Ht. cbn [app scanUrls]. cbn [app] in Hm. rewrite Hm, Ht.
  replace (List.length (c :: a) - 1)%nat with (List.length a)
    by (cbn [List.length]; lia).
  f_equal. apply scanUrls_skip.
Qed.

(** No match starts in a text without an opening parenthesis that precedes
    an occurrence. *)
Lemma startsWith_before pre x :
  pre <> [] -> Forall (fun c => c <> ch "(") pre ->
  startsWith (pre ++ js "url(" ++ x) (js "url(") = false.
Proof.
  intros Hne H. change (js "url(") with [117; 114; 108; 40].
  destruct pre as [|a [|b [|c [|d pre]]]]; [contradiction| | | |];
    cbn [app startsWith].
  - destruct (117 =? a); reflexivity.
  - destruct (117 =? a); [|reflexivity]. destruct (114 =? b); reflexivity.
  - destruct (117 =? a); [|reflexivity]. destruct (114 =? b); [|reflexivity].
    destruct (108 =? c); reflexivity.
  - inversion H as [|? ? _ H1]; subst. inversion H1 as [|? ? _ H2]; subst.
    inversion H2 as [|? ? _ H3]; subst. inversion H3 as [|? ? Hd _]; subst.
    destruct (117 =? a); [|reflexivity]. destruct (114 =? b); [|reflexivity].
    destruct (108 =? c); [|reflexivity].
    destruct (40 =? d) eqn:E; [|reflexivity].
    apply N.eqb_eq in E. exfalso. apply Hd. symmetry. exact E.
Qed.



Lemma scanUrls_before pre x :
  Forall (fun c => c <> ch "(") pre ->
  scanUrls 0 (pre ++ js "url(" ++ x) = map Lit pre ++ scanUrls 0 (js "url(" ++ x).
Proof.
  induction 1 as [|c pre Hc Hpre IH]; [reflexivity|].
  change ((c :: pre) ++ js "url(" ++ x) with (c :: (pre ++ js "url(" ++ x)).
  cbn [scanUrls map app]. unfold matchUrlAt.
  change (c :: pre ++ js "url(" ++ x) with ((c :: pre) ++ js "url(" ++ x).
  rewrite startsWith_before; [|discriminate|constructor; assumption].
  f_equal. exact IH.
Qed.

Lemma mapM_app {A B} (f : A -> completion B) l1 l2 :
  mapM f (l1 ++ l2)
  = let* a := mapM f l1 in let* b := mapM f l2 in Normal (a ++ b).
Proof.
  induction l1 as [|x l1 IH]; cbn [app mapM bind].
  - destruct (mapM f l2); reflexivity.
  - destruct (f x); cbn [bind]; try reflexivity. rewrite IH.
    destruct (mapM f l1); cbn [bind]; try reflexivity.
    destruct (mapM f l2); reflexivity.
Qed.

Lemma mapM_Lit (f : urlMatch -> completion jsstring) pre :
  mapM (fun p => match p with Lit c => Normal [c] | Match m => f m end)
       (map Lit pre)
  = Normal (map (fun c => [c]) pre).
Proof. induction pre as [|c pre IH]; [reflexivity|]. cbn [map mapM]. rewrite IH. reflexivity. Qed.

Lemma concat_singletons (l : jsstring) : List.concat (map (fun c => [c]) l) = l.
Proof. induction l as [|c l IH]; [reflexivity|]. cbn. f_equal. exact IH. Qed.


End CssUrls.




(** ** The request URL: path against query *)

Module RawQuery.

Import URL.

Lemma dropWhile_app_stop p a c b :
  p c = false -> dropWhile p (a ++ c :: b) = dropWhile p a ++ c :: b.
Proof.
  intros Hc. induction a as [|x a IH]; cbn [app dropWhile].
  - rewrite Hc. reflexivity.
  - destruct (p x); [exact IH|reflexivity].
Qed.

Lemma dropWhile_id p a :
  Forall (fun c => p c = false) a -> dropWhile p a = a.
Proof. destruct 1 as [|x a Hx _]; [reflexivity|]. cbn. rewrite Hx. reflexivity. Qed.

Lemma dropWhileEnd_id p a :
  Forall (fun c => p c = false) a -> dropWhileEnd p a = a.
Proof.
  intros H. unfold dropWhileEnd. rewrite dropWhile_id by (apply Forall_rev; exact H).
  apply rev_involutive.
Qed.

Lemma dropWhileEnd_app_stop p a c b :
  p c = false -> dropWhileEnd p (a ++ c :: b) = a ++ c :: dropWhileEnd p b.
Proof.
  intros Hc. unfold dropWhileEnd.
  rewrite rev_app_distr. cbn [rev]. rewrite <- app_assoc. cbn [app].
  rewrite dropWhile_app_stop by exact Hc.
  rewrite rev_app_distr. cbn [rev]. rewrite rev_involutive, <- app_assoc.
  reflexivity.
Qed.

Lemma filter_id {A} (f : A -> bool) l :
  Forall (fun c => f c = true) l -> filter f l = l.
Proof. induction 1 as [|x l Hx _ IH]; [reflexivity|]. cbn. rewrite Hx, IH. reflexivity. Qed.

Lemma Forall_dropWhile (P : N -> Prop) p l : Forall P l -> Forall P (dropWhile p l).
Proof.
  induction 1 as [|x l Hx Hl IH]; [constructor|]. cbn [dropWhile].
  destruct (p x); [exact IH|constructor; assumption].
Qed.

Lemma Forall_skipn_N (P : N -> Prop) n : forall l, Forall P l -> Forall P (skipn n l).
Proof.
  induction n as [|n IH]; intros l H; [exact H|].
  destruct H as [|x l _ Hl]; [constructor|]. cbn [skipn]. apply IH. exact Hl.
Qed.

Lemma break_app_stop stop a c b :
  stop c = true ->
  break stop (a ++ c :: b) = (fst (break stop a), snd (break stop a) ++ c :: b).
Proof.
  intros Hc. induction a as [|x a IH]; cbn [app break].
  - rewrite Hc. reflexivity.
  - destruct (stop x); [reflexivity|].
    rewrite IH. destruct (break stop a). reflexivity.
Qed.

Lemma break_id stop a :
  Forall (fun c => stop c = false) a -> break stop a = (a, []).
Proof.
  induction 1 as [|x a Hx _ IH]; [reflexivity|]. cbn [break].
  rewrite Hx, IH. reflexivity.
Qed.

Lemma Forall_break (P : N -> Prop) stop l :
  Forall P l -> Forall P (fst (break stop l)) /\ Forall P (snd (break stop l)).
Proof.
  induction 1 as [|x l Hx Hl [IH1 IH2]]; [split; constructor|].
  cbn [break]. destruct (stop x).
  - split; [constructor|constructor; assumption].
  - destruct (break stop l). cbn [fst snd] in *.
    split; [constructor; assumption|assumption].
Qed.

Lemma startsWith_app_other p c : Forall (fun x => x <> c) p -> forall a b,
  startsWith (a ++ c :: b) p = startsWith a p.
Proof.
  induction 1 as [|x p Hx _ IH]; intros a b; [reflexivity|].
  destruct a as [|y a]; cbn [app startsWith].
  - apply N.eqb_neq in Hx. rewrite Hx. reflexivity.
  - rewrite IH. reflexivity.
Qed.

Lemma skipn_app_long {A} n : forall (a b : list A),
  (n <= List.length a)%nat -> skipn n (a ++ b) = skipn n a ++ b.
Proof.
  induction n as [|n IH]; intros a b H; [reflexivity|].
  destruct a as [|x a]; [cbn in H; lia|]. cbn [app skipn]. apply IH.
  cbn in H. lia.
Qed.

Lemma startsWith_length s p :
  startsWith s p = true -> (List.length p <= List.length s)%nat.
Proof.
  revert s. induction p as [|x p IH]; intros s H; [cbn; lia|].
  destruct s as [|y s]; [discriminate|]. cbn [startsWith] in H.
  apply andb_true_iff in H. destruct H as [_ H]. apply IH in H. cbn. lia.
Qed.

(** *** Preprocessing *)

Lemma toUSV_app n : forall s, (List.length s <= n)%nat -> forall c q,
  isLeadingSurrogate c = false -> isTrailingSurrogate c = false ->
  toUSV (s ++ c :: q) = toUSV s ++ c :: toUSV q.
Proof.
  induction n as [|n IH]; intros s Hn c q Hl Ht.
  - destruct s; [|cbn in Hn; lia]. cbn [app toUSV]. rewrite Hl, Ht. reflexivity.
  - destruct s as [|C rest].
    + cbn [app toUSV]. rewrite Hl, Ht. reflexivity.
    + cbn [List.length] in Hn. cbn [app toUSV].
      destruct (isLeadingSurrogate C).
      * destruct rest as [|second rest'].
        -- cbn [app toUSV]. rewrite Ht, Hl. reflexivity.
        -- cbn [app]. cbn [List.length] in Hn.
           destruct (isTrailingSurrogate second).
           ++ rewrite (IH rest') by (assumption || lia). reflexivity.
           ++ change (second :: rest' ++ c :: q) with ((second :: rest') ++ c :: q).
              rewrite (IH (second :: rest')) by (assumption || (cbn; lia)).
              reflexivity.
      * destruct (isTrailingSurrogate C);
          rewrite (IH rest) by (assumption || lia); reflexivity.
Qed.

Lemma toUSV_Forall (P : N -> Prop) :
  P 0xFFFD -> (forall a b, P (UTF16SurrogatePairToCodePoint a b)) ->
  forall n s, (List.length s <= n)%nat -> Forall P s -> Forall P (toUSV s).
Proof.
  intros Hr Hp. induction n as [|n IH]; intros s Hn H.
  - destruct s; [constructor|cbn in Hn; lia].
  - destruct s as [|C rest]; [constructor|].
    cbn [List.length] in Hn. inversion H as [|? ? HC Hrest]; subst.
    cbn [toUSV]. destruct (isLeadingSurrogate C).
    + destruct rest as [|second rest']; [repeat constructor; exact Hr|].
      inversion Hrest as [|? ? _ Hrest']; subst. cbn [List.length] in Hn.
      destruct (isTrailingSurrogate second); constructor;
        try apply Hp; try exact Hr; apply IH; (assumption || lia || (cbn; lia)).
    + destruct (isTrailingSurrogate C); constructor;
        try exact Hr; try exact HC; apply IH; (assumption || lia).
Qed.

Lemma isLocationPoint_big c : 0x80 <= c -> isLocationPoint c.
Proof.
  intros H. unfold isLocationPoint, isC0ControlOrSpace, isTabOrNewline,
    isQueryOrFragmentStart.
  change (ch "?") with 63. change (ch "#") with 35.
  repeat split.
  - apply N.leb_gt. lia.
  - rewrite !orb_false_iff. repeat split; apply N.eqb_neq; lia.
  - rewrite !orb_false_iff. repeat split; apply N.eqb_neq; lia.
Qed.

Lemma isLocationUnit_Point c : isLocationUnit c -> isLocationPoint c.
Proof.
  intros (H1 & H2 & H3). unfold isLocationPoint, isC0ControlOrSpace,
    isTabOrNewline, isQueryOrFragmentStart.
  repeat split.
  - apply N.leb_gt. exact H1.
  - rewrite !orb_false_iff. repeat split; apply N.eqb_neq; lia.
  - rewrite !orb_false_iff. split; apply N.eqb_neq; assumption.
Qed.

Lemma toUSV_location s : Forall isLocationUnit s -> Forall isLocationPoint (toUSV s).
Proof.
  intros H. apply (toUSV_Forall isLocationPoint) with (n := List.length s).
  - apply isLocationPoint_big. lia.
  - intros a b. apply isLocationPoint_big.
    unfold UTF16SurrogatePairToCodePoint. lia.
  - apply le_n.
  - eapply Forall_impl; [|exact H]. apply isLocationUnit_Point.
Qed.

Lemma preprocess_location s :
  Forall isLocationUnit s -> preprocess s = toUSV s.
Proof.
  intros H. apply toUSV_location in H. unfold preprocess.
  rewrite dropWhile_id, dropWhileEnd_id, filter_id; try reflexivity;
    eapply Forall_impl; try exact H; cbv beta; intros c (H1 & H2 & H3);
    try assumption.
  rewrite H2. reflexivity.
Qed.

(** The raw query never reaches the part of the input before it. *)
Lemma preprocess_rawQuery s q :
  Forall isLocationUnit s ->
  exists q', preprocess (s ++ ch "?" :: q) = toUSV s ++ ch "?" :: q'.
Proof.
  intros H. pose proof (toUSV_location s H) as Hl. unfold preprocess.
  rewrite (toUSV_app (List.length s) s (le_n _)) by reflexivity.
  assert (E : dropWhile isC0ControlOrSpace (toUSV s ++ ch "?" :: toUSV q)
              = toUSV s ++ ch "?" :: toUSV q).
  { destruct Hl as [|c l (Hc & _) _]; [reflexivity|].
    cbn [app dropWhile]. rewrite Hc. reflexivity. }
  rewrite E, dropWhileEnd_app_stop by reflexivity.
  rewrite filter_app. cbn [filter].
  change (negb (isTabOrNewline (ch "?"))) with true. cbn match.
  rewrite filter_id.
  - eexists. reflexivity.
  - eapply Forall_impl; [|exact Hl]. cbv beta. intros c (_ & H2 & _).
    rewrite H2. reflexivity.
Qed.

(** *** The states of the parser *)

Lemma schemeTail_rawQuery l q :
  schemeTail (l ++ ch "?" :: q)
  = match schemeTail l with
    | Some (s, rest) => Some (s, rest ++ ch "?" :: q)
    | None => None
    end.
Proof.
  induction l as [|c l IH]; [reflexivity|]. cbn [app schemeTail].
  destruct (c =? ch ":"); [reflexivity|].
  destruct (isSchemeChar c); [|reflexivity].
  rewrite IH. destruct (schemeTail l) as [[s rest]|]; reflexivity.
Qed.

Lemma schemeTail_plain l s rest :
  schemeTail l = Some (s, rest) -> plain l -> plain rest.
Proof.
  revert s rest. induction l as [|c l IH]; intros s rest H Hp; [discriminate|].
  inversion Hp as [|? ? _ Hl]; subst. cbn [schemeTail] in H.
  destruct (c =? ch ":"); [inversion H; subst; exact Hl|].
  destruct (isSchemeChar c); [|discriminate].
  destruct (schemeTail l) as [[s' rest']|] eqn:E; [|discriminate].
  inversion H; subst. eapply IH; [reflexivity|exact Hl].
Qed.

Lemma scanScheme_rawQuery l q :
  scanScheme (l ++ ch "?" :: q)
  = match scanScheme l with
    | Some (s, rest) => Some (s, rest ++ ch "?" :: q)
    | None => None
    end.
Proof.
  destruct l as [|c l]; [reflexivity|]. cbn [app scanScheme].
  destruct (isAsciiAlpha c); [|reflexivity].
  rewrite schemeTail_rawQuery. destruct (schemeTail l) as [[s rest]|]; reflexivity.
Qed.

Lemma scanScheme_plain l s rest :
  scanScheme l = Some (s, rest) -> plain l -> plain rest.
Proof.
  destruct l as [|c l]; [discriminate|]. cbn [scanScheme]. intros H Hp.
  inversion Hp as [|? ? _ Hl]; subst.
  destruct (isAsciiAlpha c); [|discriminate].
  destruct (schemeTail l) as [[s' rest']|] eqn:E; [|discriminate].
  inversion H; subst. eapply schemeTail_plain; [exact E|exact Hl].
Qed.

Lemma withPath_rawQuery sch user pass hst prt special t q p :
  plain t ->
  stripQuery (withPath sch user pass hst prt special (t ++ ch "?" :: q) p)
  = stripQuery (withPath sch user pass hst prt special t p).
Proof.
  intros Ht. unfold withPath, pathState.
  rewrite break_app_stop by reflexivity. rewrite break_id by exact Ht.
  cbn [fst snd app].
  destruct (queryFragment special (ch "?" :: q)).
  destruct (queryFragment special []). reflexivity.
Qed.

Lemma pathStart_rawQuery sch special a tail q :
  plain tail ->
  stripQuery (pathStart sch special a (tail ++ ch "?" :: q))
  = stripQuery (pathStart sch special a tail).
Proof.
  intros Ht. unfold pathStart. destruct special.
  - destruct tail as [|c r]; cbn [app].
    + change ((ch "?" =? ch "/") || (ch "?" =? ch "\")) with false. cbn match.
      apply (withPath_rawQuery _ _ _ _ _ _ [] q []). constructor.
    + inversion Ht as [|? ? Hc Hr]; subst.
      destruct ((c =? ch "/") || (c =? ch "\")).
      * apply withPath_rawQuery. exact Hr.
      * apply (withPath_rawQuery _ _ _ _ _ _ (c :: r) q []). exact Ht.
  - destruct tail as [|c r]; cbn [app].
    + change (isQueryOrFragmentStart (ch "?")) with true. cbn match.
      destruct (queryFragment false (ch "?" :: q)). reflexivity.
    + inversion Ht as [|? ? Hc Hr]; subst. rewrite Hc.
      destruct (c =? ch "/").
      * apply withPath_rawQuery. exact Hr.
      * apply (withPath_rawQuery _ _ _ _ _ _ (c :: r) q []). exact Ht.
Qed.

Lemma parseAuthority_rawQuery sch special l q :
  parseAuthority sch special (l ++ ch "?" :: q)
  = let* r := parseAuthority sch special l in
    Normal (fst r, snd r ++ ch "?" :: q).
Proof.
  unfold parseAuthority.
  rewrite break_app_stop by (destruct special; reflexivity).
  destruct (break (authorityStop special) l) as [auth tail]. cbn [fst snd].
  destruct (match splitLast isAt auth with
            | Some (c, hp) => (Some c, hp)
            | None => (None, auth)
            end) as [creds hostport].
  destruct (match creds with
            | Some c => let (u, p) := break isColon c in
                        (percentEncodeAll inUserinfoSet u,
                         percentEncodeAll inUserinfoSet (tl p))
            | None => ([], [])
            end) as [user pass].
  destruct creds as [c|]; destruct hostport as [|h0 hp]; try reflexivity.
  all: destruct (breakHost false _) as [h [portText|]].
  all: try (destruct h as [|h1 h]; [reflexivity|];
            destruct (hostParse (h1 :: h) (negb special)); cbn [bind];
            try reflexivity;
            destruct (portParse sch portText); reflexivity).
  all: destruct special; destruct h as [|h1 h]; try reflexivity;
       destruct (hostParse _ _); reflexivity.
Qed.

Lemma parseAuthority_plain sch special l r :
  parseAuthority sch special l = Normal r -> plain l -> plain (snd r).
Proof.
  unfold parseAuthority. intros H Hp.
  pose proof (Forall_break _ (authorityStop special) l Hp) as [_ Ht].
  destruct (break (authorityStop special) l) as [auth tail]. cbn [snd] in Ht.
  destruct (match splitLast isAt auth with
            | Some (c, hp) => (Some c, hp)
            | None => (None, auth)
            end) as [creds hostport].
  destruct (match creds with
            | Some c => let (u, p) := break isColon c in
                        (percentEncodeAll inUserinfoSet u,
                         percentEncodeAll inUserinfoSet (tl p))
            | None => ([], [])
            end) as [user pass].
  assert (Hgen : forall (c : completion (authority * list N)),
            (forall x, c = Normal x -> snd x = tail) ->
            c = Normal r -> plain (snd r)).
  { intros c Hc E. rewrite (Hc r E). exact Ht. }
  revert H. apply Hgen. intros x.
  destruct creds as [c|]; destruct hostport as [|h0 hp]; try discriminate.
  all: destruct (breakHost false _) as [h [portText|]].
  all: try (destruct h as [|h1 h]; [discriminate|];
            destruct (hostParse (h1 :: h) (negb special)); cbn [bind];
            try discriminate;
            destruct (portParse sch portText); cbn [bind]; try discriminate;
            intros E; inversion E; reflexivity).
  all: destruct special; destruct h as [|h1 h]; try discriminate;
       destruct (hostParse _ _); cbn [bind]; try discriminate;
       intros E; inversion E; reflexivity.
Qed.

Lemma authorityState_rawQuery sch special l q :
  plain l ->
  cmap stripQuery (authorityState sch special (l ++ ch "?" :: q))
  = cmap stripQuery (authorityState sch special l).
Proof.
  intros Hl. unfold authorityState. rewrite parseAuthority_rawQuery.
  destruct (parseAuthority sch special l) as [r| |] eqn:E; try reflexivity.
  cbn [bind cmap fst snd]. f_equal. apply pathStart_rawQuery.
  eapply parseAuthority_plain; [exact E|exact Hl].
Qed.

Lemma ignoreSlashes_rawQuery sch l q :
  plain l ->
  cmap stripQuery (specialAuthorityIgnoreSlashes sch (l ++ ch "?" :: q))
  = cmap stripQuery (specialAuthorityIgnoreSlashes sch l).
Proof.
  intros Hl. unfold specialAuthorityIgnoreSlashes.
  rewrite dropWhile_app_stop by reflexivity.
  apply authorityState_rawQuery. apply Forall_dropWhile. exact Hl.
Qed.

Lemma specialAuthoritySlashes_rawQuery sch l q :
  plain l ->
  cmap stripQuery (specialAuthoritySlashes sch (l ++ ch "?" :: q))
  = cmap stripQuery (specialAuthoritySlashes sch l).
Proof.
  intros Hl. unfold specialAuthoritySlashes.
  rewrite startsWith_app_other by (repeat constructor; discriminate).
  destruct (startsWith l (js "//")) eqn:E.
  - rewrite skipn_app_long by (apply startsWith_length in E; exact E).
    apply ignoreSlashes_rawQuery. apply Forall_skipn_N. exact Hl.
  - apply ignoreSlashes_rawQuery. exact Hl.
Qed.

Lemma pathOrAuthority_rawQuery sch l q :
  plain l ->
  cmap stripQuery (pathOrAuthority sch (l ++ ch "?" :: q))
  = cmap stripQuery (pathOrAuthority sch l).
Proof.
  intros Hl. unfold pathOrAuthority. destruct l as [|c r]; cbn [app].
  - change (ch "?" =? ch "/") with false. cbn match. cbn [cmap bind]. f_equal.
    apply (withPath_rawQuery _ _ _ _ _ _ [] q []). constructor.
  - inversion Hl as [|? ? _ Hr]; subst. destruct (c =? ch "/").
    + apply authorityState_rawQuery. exact Hr.
    + cbn [cmap bind]. f_equal.
      apply (withPath_rawQuery _ _ _ _ _ _ (c :: r) q []). exact Hl.
Qed.

Lemma opaquePath_rawQuery sch l q :
  plain l ->
  cmap stripQuery (opaquePath sch (l ++ ch "?" :: q))
  = cmap stripQuery (opaquePath sch l).
Proof.
  intros Hl. unfold opaquePath.
  rewrite break_app_stop by reflexivity. rewrite break_id by exact Hl.
  cbn [fst snd app]. destruct (mem 32 l); [reflexivity|].
  destruct (queryFragment false (ch "?" :: q)).
  destruct (queryFragment false []). reflexivity.
Qed.

(** The state machine reads the same scheme, authority and path whether a
    raw query follows or not. *)
Lemma parseCodePoints_rawQuery l q :
  plain l ->
  cmap stripQuery (parseCodePoints (l ++ ch "?" :: q) None)
  = cmap stripQuery (parseCodePoints l None).
Proof.
  intros Hl. unfold parseCodePoints. rewrite scanScheme_rawQuery.
  destruct (scanScheme l) as [[sch rest]|] eqn:E; [|reflexivity].
  pose proof (scanScheme_plain l sch rest E Hl) as Hr.
  destruct (jseqb sch (js "file")); [reflexivity|].
  destruct (isSpecial sch).
  - apply specialAuthoritySlashes_rawQuery. exact Hr.
  - destruct rest as [|c r]; cbn [app].
    + change (ch "?" =? ch "/") with false. cbn match.
      apply (opaquePath_rawQuery sch [] q). constructor.
    + inversion Hr as [|? ? _ Hr']; subst. destruct (c =? ch "/").
      * apply pathOrAuthority_rawQuery. exact Hr'.
      * apply (opaquePath_rawQuery sch (c :: r) q). exact Hr.
Qed.

Lemma parse_rawQuery s q :
  Forall isLocationUnit s ->
  cmap stripQuery (parse (s ++ ch "?" :: q) None)
  = cmap stripQuery (parse s None).
Proof.
  intros H. unfold parse.
  destruct (preprocess_rawQuery s q H) as [q' ->].
  rewrite (preprocess_location s H).
  apply parseCodePoints_rawQuery.
  pose proof (toUSV_location s H) as Hl.
  eapply Forall_impl; [|exact Hl]. intros c (_ & _ & Hc). exact Hc.
Qed.

Lemma pathname_stripQuery u : pathname (stripQuery u) = pathname u.
Proof. reflexivity. Qed.

Lemma origin_stripQuery u : origin (stripQuery u) = origin u.
Proof. reflexivity. Qed.

Lemma isLocationUnit_forallb s :
  forallb (fun c => (0x20 <? c) && negb (c =? ch "?") && negb (c =? ch "#")) s
  = true ->
  Forall isLocationUnit s.
Proof.
  intros H. apply Forall_forall. intros c Hc.
  rewrite forallb_forall in H. specialize (H c Hc).
  apply andb_true_iff in H. destruct H as [H H3].
  apply andb_true_iff in H. destruct H as [H1 H2].
  apply negb_true_iff in H2, H3.
  repeat split; [apply N.ltb_lt| apply N.eqb_neq | apply N.eqb_neq]; assumption.
Qed.

Section Dispatchers.

Variable transport : jsstring -> RequestInit -> Settled.

Lemma new_rawQuery request q :
  Forall isLocationUnit (url request) ->
  cmap stripQuery (URL.new (url (withRawQuery request q)) None)
  = cmap stripQuery (URL.new (url request) None).
Proof. intros H. apply parse_rawQuery. exact H. Qed.

Lemma stripQuery_getters u1 u2 :
  stripQuery u1 = stripQuery u2 ->
  URL.pathname u1 = URL.pathname u2 /\ URL.origin u1 = URL.origin u2.
Proof.
  intros H. rewrite <- (pathname_stripQuery u1), <- (pathname_stripQuery u2).
  rewrite <- (origin_stripQuery u1), <- (origin_stripQuery u2), H.
  split; reflexivity.
Qed.

(** worker.js reads the pathname and the origin of the request URL, and
    nothing else of it. *)
Lemma worker_rawQuery request q :
  Forall isLocationUnit (url request) ->
  Worker.fetch transport (withRawQuery request q) = Worker.fetch transport request.
Proof.
  intros H. pose proof (new_rawQuery request q H) as E. unfold Worker.fetch.
  destruct (URL.new (url (withRawQuery request q)) None) as [u1| |];
    destruct (URL.new (url request) None) as [u2| |];
    cbn [cmap bind] in E; try discriminate; try (inversion E; reflexivity).
  assert (Es : stripQuery u1 = stripQuery u2) by congruence.
  destruct (stripQuery_getters u1 u2 Es) as [-> ->].
  reflexivity.
Qed.

Lemma middle_rawQuery request q :
  Forall isLocationUnit (url request) ->
  Middle.fetch transport (withRawQuery request q) = Middle.fetch transport request.
Proof.
  intros H. pose proof (new_rawQuery request q H) as E. unfold Middle.fetch.
  destruct (URL.new (url (withRawQuery request q)) None) as [u1| |];
    destruct (URL.new (url request) None) as [u2| |];
    cbn [cmap bind] in E; try discriminate; try (inversion E; reflexivity).
  assert (Es : stripQuery u1 = stripQuery u2) by congruence.
  destruct (stripQuery_getters u1 u2 Es) as [-> ->].
  reflexivity.
Qed.

(** Every outbound fetch goes to the decoding of the path. *)
Lemma worker_fetched request target init :
  In (target, init) (fst (Worker.fetch transport request)) ->
  exists u, URL.new (url request) None = Normal u /\
            decode (URL.pathname u) = Normal (Target target).
Proof.
  unfold Worker.fetch.
  destruct (URL.new (url request) None) as [u| |]; try contradiction.
  destruct (negb (startsWith (URL.pathname u) ROUTE_PREFIX)); [contradiction|].
  destruct (decode (URL.pathname u)) as [[| |t]| |] eqn:Ed; try contradiction.
  destruct (URL.origin u) as [o| |]; try contradiction.
  destruct (startsWith t o); [contradiction|].
  intros Hin. exists u. split; [reflexivity|].
  destruct (transport t _); cbn [fst In] in Hin;
    destruct Hin as [Hin|[]]; inversion Hin; subst; exact Ed.
Qed.

Lemma middle_fetched request target init :
  In (target, init) (fst (Middle.fetch transport request)) ->
  exists u, URL.new (url request) None = Normal u /\
            decode (URL.pathname u) = Normal (Target target).
Proof.
  unfold Middle.fetch.
  destruct (URL.new (url request) None) as [u| |]; try contradiction.
  destruct (jseqb (URL.pathname u) (js "/") || jseqb (URL.pathname u) Middle.WORKER_BASE);
    [contradiction|].
  destruct (negb (startsWith (URL.pathname u) ROUTE_PREFIX)); [contradiction|].
  destruct (decode (URL.pathname u)) as [[| |t]| |] eqn:Ed; try contradiction.
  destruct (URL.origin u) as [o| |]; try contradiction.
  destruct (startsWith t o); [contradiction|].
  intros Hin. exists u. split; [reflexivity|].
  destruct (transport t _); cbn [fst In] in Hin;
    destruct Hin as [Hin|[]]; inversion Hin; subst; exact Ed.
Qed.

End Dispatchers.

End RawQuery.

(** C10. Target taken from the path only: for every incoming request whose
    URL has no query, and every raw query string appended to that URL after
    a question mark, worker.js and the middle variant run exactly as without
    it: same outbound fetch, same response.  Every outbound fetch goes to the
    percent-decoding of the request path after the route prefix, so a
    question mark reaches the target only when it is percent-encoded in the
    path. *)
Theorem C10_target_from_path_only
    (transport : jsstring -> RequestInit -> Settled) (request : Request)
    (q : jsstring) :
  Forall isLocationUnit (url request) ->
  (Worker.fetch transport (withRawQuery request q) = Worker.fetch transport request
   /\
   Middle.fetch transport (withRawQuery request q) = Middle.fetch transport request)
  /\
  (forall target init,
     In (target, init) (fst (Worker.fetch transport (withRawQuery request q))) \/
     In (target, init) (fst (Middle.fetch transport (withRawQuery request q))) ->
     exists u, URL.new (url request) None = Normal u /\
               decode (URL.pathname u) = Normal (Target target)).
Proof.
  intros H. split; [split|].
  - apply RawQuery.worker_rawQuery. exact H.
  - apply RawQuery.middle_rawQuery. exact H.
  - intros target init [Hin|Hin].
    + rewrite RawQuery.worker_rawQuery in Hin by exact H.
      eapply RawQuery.worker_fetched. exact Hin.
    + rewrite RawQuery.middle_rawQuery in Hin by exact H.
      eapply RawQuery.middle_fetched. exact Hin.
Qed.

Lemma C10_target_from_path_only_witness :
  Worker.fetch failingTransport
    (GET "https://proxy.example/service/https%3A%2F%2Fexample.com%2Fsearch%3Fq%3D1?utm=2")
  = ([(js "https://example.com/search?q=1", mkInit (js "GET") [] None)],
     Normal (plainText 502
               (js "Upstream fetch error: TypeError: Network connection lost."))).
Proof.
  refine (eq_trans
            (proj1 (proj1
               (C10_target_from_path_only failingTransport
                  (GET "https://proxy.example/service/https%3A%2F%2Fexample.com%2Fsearch%3Fq%3D1")
                  (js "utm=2") _))) _).
  - apply RawQuery.isLocationUnit_forallb. vm_compute. reflexivity.
  - vm_compute. reflexivity.
Defined.

(** ** The worked examples of the specification *)

(** An anchor with a path-absolute reference. *)
Example rewrite_anchor :
  rewriteAttribute (js "href") (js "https://example.com/") [(js "href", js "/x")]
  = Normal [(js "href", js "/service/https%3A%2F%2Fexample.com%2Fx")].
Proof. vm_compute. reflexivity. Qed.

(** A form keeps its submissions in the same frame. *)
Example rewrite_form :
  formHandler (js "https://example.com/") [(js "action", js "search?q=1")]
  = Normal [(js "action", js "/service/https%3A%2F%2Fexample.com%2Fsearch%3Fq%3D1");
            (js "target", js "_self")].
Proof. vm_compute. reflexivity. Qed.

(** An element without the attribute value is left alone. *)
Example rewrite_empty :
  rewriteAttribute (js "src") (js "https://example.com/") [(js "src", [])]
  = Normal [(js "src", [])].
Proof. reflexivity. Qed.

(** A style sheet fetched from the root of the origin. *)
Example rewrite_css_background :
  Worker.rewriteCssText (js "https://example.com/")
    (js "body{background:url(bg.png)}")
  = Normal (js "body{background:url(/service/https%3A%2F%2Fexample.com%2Fbg.png)}").
Proof. vm_compute. reflexivity. Qed.

(** A malformed reference degrades to itself before it is encoded. *)
Example resolve_malformed :
  resolveUrl (js "https://example.com/") (js "https://exa mple.com/x")
  = Normal (js "https://exa mple.com/x").
Proof. vm_compute. reflexivity. Qed.

(** * Further properties of the code *)

(** ** The encoder *)

Module Encoder.

Import CodecFacts.

Lemma alwaysUnescaped_ascii C : alwaysUnescaped C = true -> C < 0x80.
Proof.
  unfold alwaysUnescaped, isAsciiAlnum, isAsciiAlpha, isAsciiUpper,
    isAsciiLower, isAsciiDigit, mem. chars.
  cbn [js list_ascii_of_string map existsb]. intros EU.
  repeat (apply orb_true_iff in EU; destruct EU as [EU|EU]);
    bools; try lia; try discriminate.
  all: vm_compute in EU; lia.
Qed.

Lemma hexDigit_unescaped d : d < 16 -> alwaysUnescaped (hexDigit d) = true.
Proof.
  intros Hd. unfold alwaysUnescaped, isAsciiAlnum, isAsciiAlpha, isAsciiUpper,
    isAsciiLower, isAsciiDigit, hexDigit. chars.
  destruct (d <? 10) eqn:E; bools; decide_cmp; reflexivity.
Qed.

Lemma percentOctet_safe b : b < 256 -> Forall (fun c => isPathSafe c = true) (percentOctet b).
Proof.
  intros Hb. unfold percentOctet, isPathSafe. repeat constructor.
  - rewrite hexDigit_unescaped by lia. reflexivity.
  - rewrite hexDigit_unescaped by lia. reflexivity.
Qed.

Lemma escapes_safe cp :
  cp < 0x110000 ->
  Forall (fun c => isPathSafe c = true) (flat_map percentOctet (utf8_encode cp)).
Proof.
  intros H. pose proof (utf8_encode_octets cp H) as Ho.
  induction Ho as [|b bs Hb _ IH]; [constructor|].
  cbn [flat_map]. apply Forall_app. split; [apply percentOctet_safe; exact Hb|exact IH].
Qed.

Lemma Encode_safe n : forall s e, (List.length s <= n)%nat ->
  is16bit s -> Encode s = Normal e -> Forall (fun c => isPathSafe c = true) e.
Proof.
  induction n as [|n IH]; intros s e Hn H16 He.
  - destruct s; [|cbn in Hn; lia]. inversion He. constructor.
  - destruct s as [|C rest]; [inversion He; constructor|].
    cbn [List.length] in Hn. inversion H16 as [|? ? HC Hrest]; subst.
    cbn [Encode] in He.
    destruct (alwaysUnescaped C) eqn:EU.
    + destruct (Encode rest) as [R| |] eqn:ER; cbn [bind] in He; try discriminate.
      inversion He; subst. constructor.
      * unfold isPathSafe. rewrite EU. reflexivity.
      * apply (IH rest R); (assumption || lia).
    + destruct (isTrailingSurrogate C); [discriminate|].
      destruct (isLeadingSurrogate C) eqn:EL.
      * destruct rest as [|second rest']; [discriminate|].
        destruct (isTrailingSurrogate second) eqn:ET; [|discriminate].
        inversion Hrest as [|? ? _ Hrest']; subst. cbn [List.length] in Hn.
        destruct (Encode rest') as [R| |] eqn:ER; cbn [bind] in He; try discriminate.
        inversion He; subst. apply Forall_app. split.
        -- apply escapes_safe.
           destruct (surrogate_pair_scalar C second EL ET) as [[Hlt _] _]. exact Hlt.
        -- apply (IH rest' R); (assumption || lia).
      * destruct (Encode rest) as [R| |] eqn:ER; cbn [bind] in He; try discriminate.
        inversion He; subst. apply Forall_app. split.
        -- apply escapes_safe. lia.
        -- apply (IH rest R); (assumption || lia).
Qed.

(** On 16-bit strings the encoder throws exactly when a surrogate has no
    partner. *)
Lemma Encode_illFormed n : forall s, (List.length s <= n)%nat ->
  is16bit s -> isWellFormed s = false -> Encode s = Throw URIError.
Proof.
  induction n as [|n IH]; intros s Hn H16 Hwf.
  - destruct s; [discriminate|cbn in Hn; lia].
  - destruct s as [|C rest]; [discriminate|].
    cbn [List.length] in Hn. inversion H16 as [|? ? HC Hrest]; subst.
    cbn [isWellFormed] in Hwf. cbn [Encode].
    destruct (alwaysUnescaped C) eqn:EU.
    + pose proof (alwaysUnescaped_ascii C EU) as Hascii.
      assert (ET : isTrailingSurrogate C = false).
      { unfold isTrailingSurrogate. rewrite (leb_false 0xDC00 C) by lia. reflexivity. }
      assert (EL : isLeadingSurrogate C = false).
      { unfold isLeadingSurrogate. rewrite (leb_false 0xD800 C) by lia. reflexivity. }
      rewrite ET, EL in Hwf. rewrite (ltb_true C 0x10000 HC) in Hwf.
      cbn [andb] in Hwf. rewrite (IH rest) by (assumption || lia). reflexivity.
    + destruct (isTrailingSurrogate C); [reflexivity|].
      destruct (isLeadingSurrogate C).
      * destruct rest as [|second rest']; [reflexivity|].
        destruct (isTrailingSurrogate second); [|reflexivity].
        cbn [andb] in Hwf. inversion Hrest as [|? ? _ Hrest']; subst.
        cbn [List.length] in Hn.
        rewrite (IH rest') by (assumption || lia). reflexivity.
      * rewrite (ltb_true C 0x10000 HC) in Hwf. cbn [andb] in Hwf.
        rewrite (IH rest) by (assumption || lia). reflexivity.
Qed.

Lemma Encode_Normal_wellFormed s e :
  is16bit s -> Encode s = Normal e -> isWellFormed s = true.
Proof.
  intros H16 He. destruct (isWellFormed s) eqn:E; [reflexivity|].
  rewrite (Encode_illFormed (List.length s) s (le_n _) H16 E) in He. discriminate.
Qed.

End Encoder.

(** X1. The proxied path of any 16-bit string is the route prefix followed
    by code units of the unescaped set and percent signs only: it is ASCII
    and holds no slash after the prefix, no question mark, no number sign, no
    space, no quote character other than the apostrophe and no dollar sign. *)
Theorem X1_proxied_path_alphabet (target p : jsstring) :
  is16bit target -> toProxiedPath target = Normal p ->
  exists e, p = ROUTE_PREFIX ++ e /\ Forall (fun c => isPathSafe c = true) e.
Proof.
  intros H16. unfold toProxiedPath, encodeURIComponent.
  destruct (Encode target) as [e| |] eqn:He; cbn [bind]; try discriminate.
  intros H. inversion H; subst. exists e. split; [reflexivity|].
  apply (Encoder.Encode_safe (List.length target) target e (le_n _) H16 He).
Qed.

Lemma X1_proxied_path_alphabet_witness :
  exists e, js "/service/https%3A%2F%2Fexample.com%2Fa%20b%3Fq%3D%24" = ROUTE_PREFIX ++ e
            /\ Forall (fun c => isPathSafe c = true) e.
Proof.
  apply (X1_proxied_path_alphabet (js "https://example.com/a b?q=$")).
  - repeat constructor.
  - vm_compute. reflexivity.
Defined.

(** X2. On 16-bit strings [toProxiedPath] returns exactly for the strings
    without unpaired surrogate, and throws URIError for every other one. *)
Theorem X2_proxied_path_defined (target : jsstring) :
  is16bit target ->
  (isWellFormed target = true -> exists p, toProxiedPath target = Normal p) /\
  (isWellFormed target = false -> toProxiedPath target = Throw URIError).
Proof.
  intros H16. unfold toProxiedPath, encodeURIComponent. split; intros Hwf.
  - destruct (CodecFacts.decode_encode target Hwf) as (e & He & _).
    unfold encodeURIComponent in He. rewrite He. eexists. reflexivity.
  - rewrite (Encoder.Encode_illFormed (List.length target) target (le_n _) H16 Hwf).
    reflexivity.
Qed.

Lemma X2_proxied_path_defined_witness :
  toProxiedPath (js "https://example.com/" ++ [0xD83D]) = Throw URIError.
Proof.
  apply (X2_proxied_path_defined (js "https://example.com/" ++ [0xD83D])).
  - repeat constructor.
  - vm_compute. reflexivity.
Defined.

(** X3. [toProxiedPath] is injective on 16-bit strings: two targets with the
    same proxied path are the same target. *)
Theorem X3_proxied_path_injective (t1 t2 p : jsstring) :
  is16bit t1 -> is16bit t2 ->
  toProxiedPath t1 = Normal p -> toProxiedPath t2 = Normal p -> t1 = t2.
Proof.
  intros H1 H2. unfold toProxiedPath, encodeURIComponent.
  destruct (Encode t1) as [e1| |] eqn:E1; cbn [bind]; try discriminate.
  destruct (Encode t2) as [e2| |] eqn:E2; cbn [bind]; try discriminate.
  intros P1 P2. inversion P1 as [Q1]. inversion P2 as [Q2].
  assert (Ee : e1 = e2).
  { apply (app_inv_head ROUTE_PREFIX). congruence. }
  subst e2.
  destruct (CodecFacts.decode_encode t1 (Encoder.Encode_Normal_wellFormed t1 e1 H1 E1))
    as (x1 & Hx1 & Hd1).
  destruct (CodecFacts.decode_encode t2 (Encoder.Encode_Normal_wellFormed t2 e1 H2 E2))
    as (x2 & Hx2 & Hd2).
  unfold encodeURIComponent in Hx1, Hx2.
  rewrite E1 in Hx1. rewrite E2 in Hx2. inversion Hx1; inversion Hx2; subst.
  congruence.
Qed.

Lemma X3_proxied_path_injective_witness :
  js "https://example.com/a" = js "https://example.com/a".
Proof.
  apply (X3_proxied_path_injective _ _
           (js "/service/https%3A%2F%2Fexample.com%2Fa")).
  - repeat constructor.
  - repeat constructor.
  - vm_compute. reflexivity.
  - vm_compute. reflexivity.
Defined.

(** ** The decoding step of the dispatchers *)

Module Decoder.

Import CodecFacts.

Lemma ParseHexOctet_percent_r h : ParseHexOctet h (ch "%") = None.
Proof. unfold ParseHexOctet. destruct (hexValue h); reflexivity. Qed.

Lemma ParseHexOctet_percent_l h : ParseHexOctet (ch "%") h = None.
Proof. reflexivity. Qed.

(** Continuation escapes never swallow a percent sign that ends the
    string. *)
Lemma continuationOctets_trailing j : forall x bs r,
  continuationOctets j (x ++ [ch "%"]) = Some (bs, r) ->
  exists t, r = t ++ [ch "%"] /\ (List.length t <= List.length x)%nat.
Proof.
  induction j as [|j IH]; intros x bs r H; cbn [continuationOctets] in H.
  - inversion H; subst. exists x. split; [reflexivity|lia].
  - destruct x as [|p [|h1 [|h2 x']]]; cbn [app] in H.
    + discriminate.
    + discriminate.
    + destruct (p =? ch "%"); [|discriminate].
      rewrite ParseHexOctet_percent_r in H. discriminate.
    + destruct (p =? ch "%"); [|discriminate].
      destruct (ParseHexOctet h1 h2); [|discriminate].
      destruct (continuationOctets j (x' ++ [ch "%"])) as [[bs0 r0]|] eqn:E;
        [|discriminate].
      inversion H; subst. destruct (IH x' bs0 r E) as (t & -> & Hl).
      exists t. split; [reflexivity|]. cbn [List.length]. lia.
Qed.

(** A string that ends with a percent sign never decodes. *)
Lemma Decode_trailing_percent fuel : forall s,
  (List.length s < fuel)%nat -> Decode fuel (s ++ [ch "%"]) = Throw URIError.
Proof.
  induction fuel as [|fuel IH]; intros s Hlen; [lia|].
  destruct s as [|C s'].
  - reflexivity.
  - cbn [List.length] in Hlen. cbn [app Decode].
    destruct (C =? ch "%").
    + destruct s' as [|h1 [|h2 s'']]; cbn [app].
      * reflexivity.
      * rewrite ParseHexOctet_percent_r. reflexivity.
      * cbn [List.length] in Hlen.
        destruct (ParseHexOctet h1 h2) as [B|]; [|reflexivity].
        destruct (leadingOnes B) as [|[|j]].
        -- rewrite IH by lia. reflexivity.
        -- reflexivity.
        -- destruct j as [|[|[|j]]]; try reflexivity;
             (destruct (continuationOctets _ (s'' ++ [ch "%"])) as [[bs r]|] eqn:E;
                [|reflexivity]);
             (destruct (continuationOctets_trailing _ _ _ _ E) as (t & -> & Hl));
             (destruct (utf8_decode (B :: bs)); [|reflexivity]);
             rewrite IH by lia; reflexivity.
    + rewrite IH by lia. reflexivity.
Qed.

Lemma decodeURIComponent_trailing_percent s :
  decodeURIComponent (s ++ [ch "%"]) = Throw URIError.
Proof.
  unfold decodeURIComponent. apply Decode_trailing_percent.
  rewrite length_app. cbn. lia.
Qed.

(** A string without percent sign decodes to itself. *)
Lemma Decode_literal fuel : forall s,
  (List.length s <= fuel)%nat -> Forall (fun c => c <> ch "%") s ->
  Decode fuel s = Normal s.
Proof.
  induction fuel as [|fuel IH]; intros s Hlen H.
  - destruct s; [reflexivity|cbn in Hlen; lia].
  - destruct H as [|C s HC Hs]; [reflexivity|].
    cbn [List.length] in Hlen.
    rewrite Decode_unescaped by exact HC. rewrite IH by (assumption || lia).
    reflexivity.
Qed.

Lemma startsWith_prefix_app p s : startsWith (p ++ s) p = true.
Proof. induction p; [reflexivity|]. cbn [app startsWith]. rewrite N.eqb_refl. exact IHp. Qed.

End Decoder.

(** X4. A request whose path is the route prefix followed by anything that
    ends with a percent sign is answered 400 [Bad encoded URL] by worker.js
    and by the middle variant, without outbound fetch; in index.js, where
    the decoding is outside the [try], the handler throws URIError and there
    is no response. *)
Theorem X4_malformed_escape
    (transport : jsstring -> RequestInit -> Settled) (request : Request)
    (u : URL.t) (s : jsstring) :
  URL.new (url request) None = Normal u ->
  URL.pathname u = ROUTE_PREFIX ++ s ++ [ch "%"] ->
  Worker.fetch transport request
  = ([], Normal (plainText 400 (js "Bad encoded URL"))) /\
  Middle.fetch transport request
  = ([], Normal (plainText 400 (js "Bad encoded URL"))) /\
  Index.fetch transport request = ([], Throw URIError).
Proof.
  intros Hu Hp.
  assert (Hs : startsWith (URL.pathname u) ROUTE_PREFIX = true).
  { rewrite Hp. apply Decoder.startsWith_prefix_app. }
  assert (Hd : decode (URL.pathname u) = Normal BadEncodedTarget).
  { unfold decode. rewrite Hp, Codec.slice_ROUTE_PREFIX.
    pose proof (Decoder.decodeURIComponent_trailing_percent s) as Ht.
    destruct (s ++ [ch "%"]) eqn:E; [destruct s; discriminate|].
    rewrite Ht. reflexivity. }
  repeat split.
  - unfold Worker.fetch. rewrite Hu, Hs, Hd. reflexivity.
  - unfold Middle.fetch.
    rewrite Hu, (Dispatch.pathname_not_root u Hs), Hs, Hd. reflexivity.
  - unfold Index.fetch. rewrite Hu.
    change (js "/service/") with ROUTE_PREFIX. rewrite Hs.
    rewrite (Dispatch.replaceFirst_prefix _ _ Hs), Hp.
    change (skipn (List.length ROUTE_PREFIX) (ROUTE_PREFIX ++ s ++ [ch "%"]))
      with (s ++ [ch "%"]).
    rewrite Decoder.decodeURIComponent_trailing_percent. reflexivity.
Qed.

Lemma X4_malformed_escape_witness :
  Worker.fetch failingTransport (GET "https://proxy.example/service/https%3A%2F%2Fa.test%2F100%")
  = ([], Normal (plainText 400 (js "Bad encoded URL"))) /\
  Middle.fetch failingTransport (GET "https://proxy.example/service/https%3A%2F%2Fa.test%2F100%")
  = ([], Normal (plainText 400 (js "Bad encoded URL"))) /\
  Index.fetch failingTransport (GET "https://proxy.example/service/https%3A%2F%2Fa.test%2F100%")
  = ([], Throw URIError).
Proof.
  refine (X4_malformed_escape failingTransport
            (GET "https://proxy.example/service/https%3A%2F%2Fa.test%2F100%")
            (URL.mk (js "https") [] [] (Some (js "proxy.example")) None
               (URL.Segments [js "service"; js "https%3A%2F%2Fa.test%2F100%"])
               None None)
            (js "https%3A%2F%2Fa.test%2F100") _ _);
    vm_compute; reflexivity.
Defined.

(** X5. A request whose path is exactly the route prefix is answered 400
    [Missing encoded URL] by worker.js and by the middle variant, without
    outbound fetch; index.js has no such test and fetches the empty URL. *)
Theorem X5_missing_target
    (transport : jsstring -> RequestInit -> Settled) (request : Request)
    (u : URL.t) :
  URL.new (url request) None = Normal u ->
  URL.pathname u = ROUTE_PREFIX ->
  Worker.fetch transport request
  = ([], Normal (plainText 400 (js "Missing encoded URL"))) /\
  Middle.fetch transport request
  = ([], Normal (plainText 400 (js "Missing encoded URL"))) /\
  fst (Index.fetch transport request) = [([], initOf request)].
Proof.
  intros Hu Hp. repeat split.
  - unfold Worker.fetch. rewrite Hu, Hp. reflexivity.
  - unfold Middle.fetch. rewrite Hu, Hp. reflexivity.
  - unfold Index.fetch. rewrite Hu, Hp.
    change (startsWith ROUTE_PREFIX (js "/service/")) with true. cbn match.
    change (decodeURIComponent (Index.replaceFirst (js "/service/") [] ROUTE_PREFIX))
      with (@Normal jsstring []).
    cbn match. fold (initOf request).
    destruct (transport [] (initOf request)); reflexivity.
Qed.

Lemma X5_missing_target_witness :
  Worker.fetch failingTransport (GET "https://proxy.example/service/")
  = ([], Normal (plainText 400 (js "Missing encoded URL"))) /\
  Middle.fetch failingTransport (GET "https://proxy.example/service/")
  = ([], Normal (plainText 400 (js "Missing encoded URL"))) /\
  fst (Index.fetch failingTransport (GET "https://proxy.example/service/"))
  = [([], initOf (GET "https://proxy.example/service/"))].
Proof.
  refine (X5_missing_target failingTransport
            (GET "https://proxy.example/service/")
            (URL.mk (js "https") [] [] (Some (js "proxy.example")) None
               (URL.Segments [js "service"; []]) None None) _ _);
    vm_compute; reflexivity.
Defined.

(** X6. A path that holds no percent sign after the route prefix is taken
    as the target as it is written: nothing requires the target to be
    encoded, or to be a URL. *)
Theorem X6_literal_target (s : jsstring) :
  s <> [] -> Forall (fun c => c <> ch "%") s ->
  decode (ROUTE_PREFIX ++ s) = Normal (Target s).
Proof.
  intros Hne H. unfold decode. rewrite Codec.slice_ROUTE_PREFIX.
  destruct s as [|c s']; [contradiction|].
  unfold decodeURIComponent.
  rewrite (Decoder.Decode_literal _ (c :: s') (le_n _) H). reflexivity.
Qed.

Lemma X6_literal_target_witness :
  decode (ROUTE_PREFIX ++ js "example.com") = Normal (Target (js "example.com")).
Proof.
  apply X6_literal_target.
  - discriminate.
  - repeat constructor; discriminate.
Defined.

(** ** The sanitizers, once more *)

Module Idempotence.

Import Headers HeadersFacts HeaderNames Sanitizer.

Lemma filter_empty_delete l n : filter (nameIs n) l = [] -> delete l n = l.
Proof. intros H. apply delete_absent. rewrite has_filter, H. reflexivity. Qed.

(** Setting a header that is there once, to the value it has, changes
    nothing. *)
Lemma set_fixed l n v : hasSingle l n v -> set l n v = l.
Proof.
  intros [n' H]. induction l as [|h l IH]; [discriminate|].
  cbn [set]. cbn [filter] in H. destruct (nameIs n h) eqn:E.
  - inversion H as [[Hh Hl]]. cbn [fst].
    rewrite (filter_empty_delete l n Hl). reflexivity.
  - f_equal. apply IH. exact H.
Qed.

Lemma hasSingle_set l n v : hasSingle (set l n v) n v.
Proof. apply filter_set_same. Qed.

Lemma hasSingle_set_other l n v m w :
  distinct n m -> hasSingle l n v -> hasSingle (set l m w) n v.
Proof. intros Hd [n' H]. exists n'. rewrite filter_set_other by exact Hd. exact H. Qed.

Lemma hasSingle_delete_other l n v m :
  distinct n m -> hasSingle l n v -> hasSingle (delete l m) n v.
Proof. intros Hd [n' H]. exists n'. rewrite filter_delete_other by exact Hd. exact H. Qed.

Ltac single :=
  repeat first
    [ apply hasSingle_set
    | apply hasSingle_set_other; [reflexivity|]
    | apply hasSingle_delete_other; [reflexivity|] ].

Ltac absent := apply delete_absent; through_edits; reflexivity.

(** The six edits of worker.js, applied to their own result. *)
Lemma worker_fixed hs :
  let out := Worker.sanitizeHeadersInPlace hs in
  delete out csp = out /\ delete out cspro = out /\ delete out xfo = out /\
  set out acao (js "*") = out /\ set out acah (js "*") = out /\
  set out acam verbs = out.
Proof.
  cbv zeta. unfold Worker.sanitizeHeadersInPlace.
  change (js "content-security-policy") with csp.
  change (js "content-security-policy-report-only") with cspro.
  change (js "x-frame-options") with xfo.
  change (js "access-control-allow-origin") with acao.
  change (js "access-control-allow-headers") with acah.
  change (js "access-control-allow-methods") with acam.
  change (js "GET,POST,PUT,PATCH,DELETE,OPTIONS") with verbs.
  repeat split; try absent; apply set_fixed; single.
Qed.

(** The seven edits of the middle variant fix every header list on which
    they have been done, also after a content-type has been set. *)
Lemma middleEdits_fixed (l : Headers.t) :
  has l csp = false -> has l cspro = false -> has l xfo = false ->
  has l xcto = false ->
  hasSingle l acao (js "*") -> hasSingle l acah (js "*") ->
  hasSingle l acam verbs ->
  middleEdits l = l.
Proof.
  intros H1 H2 H3 H4 H5 H6 H7. unfold middleEdits.
  rewrite (delete_absent l csp H1), (delete_absent l cspro H2).
  rewrite (set_fixed l acao _ H5), (set_fixed l acah _ H6), (set_fixed l acam _ H7).
  rewrite (delete_absent l xfo H3), (delete_absent l xcto H4). reflexivity.
Qed.

Lemma middleEdits_idem hs : middleEdits (middleEdits hs) = middleEdits hs.
Proof.
  apply middleEdits_fixed; unfold middleEdits;
    try (through_edits; reflexivity); single.
Qed.

Lemma middleEdits_set_ctype hs :
  middleEdits (set (middleEdits hs) ctype htmlUtf8)
  = set (middleEdits hs) ctype htmlUtf8.
Proof.
  apply middleEdits_fixed; unfold middleEdits;
    try (through_edits; reflexivity); single.
Qed.

End Idempotence.

(** X7. [sanitizeHeadersInPlace] of worker.js is idempotent: applied to its
    own result it changes nothing, neither a value nor the order of the
    headers. *)
Theorem X7_sanitizeHeadersInPlace_idempotent (hs : Headers.t) :
  Worker.sanitizeHeadersInPlace (Worker.sanitizeHeadersInPlace hs)
  = Worker.sanitizeHeadersInPlace hs.
Proof.
  destruct (Idempotence.worker_fixed hs) as (H1 & H2 & H3 & H4 & H5 & H6).
  set (out := Worker.sanitizeHeadersInPlace hs) in *.
  unfold Worker.sanitizeHeadersInPlace at 1.
  change (js "content-security-policy") with HeaderNames.csp.
  change (js "content-security-policy-report-only") with HeaderNames.cspro.
  change (js "x-frame-options") with HeaderNames.xfo.
  change (js "access-control-allow-origin") with HeaderNames.acao.
  change (js "access-control-allow-headers") with HeaderNames.acah.
  change (js "access-control-allow-methods") with HeaderNames.acam.
  change (js "GET,POST,PUT,PATCH,DELETE,OPTIONS") with HeaderNames.verbs.
  rewrite H1, H2, H3, H4, H5, H6. reflexivity.
Qed.

(** X8. [sanitizeHeaders] of the middle variant is idempotent for either
    value of its flag, whatever content-type the input has or lacks. *)
Theorem X8_sanitizeHeaders_idempotent (hs : Headers.t) (contentTypeIsHtml : bool) :
  Middle.sanitizeHeaders (Middle.sanitizeHeaders hs contentTypeIsHtml)
    contentTypeIsHtml
  = Middle.sanitizeHeaders hs contentTypeIsHtml.
Proof.
  rewrite (Sanitizer.sanitizeHeaders_unfold hs).
  destruct contentTypeIsHtml.
  - destruct (negb (testNoCase (js "text/html")
                      (orElse (Headers.get (HeaderNames.middleEdits hs) HeaderNames.ctype)
                         HeaderNames.htmlUtf8))) eqn:E.
    + rewrite Sanitizer.sanitizeHeaders_unfold.
      rewrite Idempotence.middleEdits_set_ctype.
      rewrite HeadersFacts.get_set_same. reflexivity.
    + rewrite Sanitizer.sanitizeHeaders_unfold.
      rewrite Idempotence.middleEdits_idem, E. reflexivity.
  - rewrite Sanitizer.sanitizeHeaders_unfold.
    apply Idempotence.middleEdits_idem.
Qed.

(** X9. With the HTML flag set, [sanitizeHeaders] gives no content-type to a
    header set that has none, or an empty one: the default it reads in that
    case already indicates HTML, so the header is left as it is. *)
Theorem X9_sanitizeHeaders_absent_content_type (hs : Headers.t) :
  orElse (Headers.get hs (js "content-type")) [] = [] ->
  Headers.get (Middle.sanitizeHeaders hs true) (js "content-type")
  = Headers.get hs (js "content-type").
Proof.
  intros H. rewrite Sanitizer.sanitizeHeaders_unfold.
  change (js "content-type") with HeaderNames.ctype in *.
  rewrite (Sanitizer.middleEdits_get hs HeaderNames.ctype) by reflexivity.
  assert (E : orElse (Headers.get hs HeaderNames.ctype) HeaderNames.htmlUtf8
              = HeaderNames.htmlUtf8).
  { destruct (Headers.get hs HeaderNames.ctype) as [[|c v]|];
      [reflexivity|discriminate|reflexivity]. }
  rewrite E.
  change (negb (testNoCase (js "text/html") HeaderNames.htmlUtf8)) with false.
  cbn match. apply Sanitizer.middleEdits_get; reflexivity.
Qed.

Lemma X9_sanitizeHeaders_absent_content_type_witness :
  Headers.get (Middle.sanitizeHeaders [(js "etag", js "abc")] true)
    (js "content-type")
  = Headers.get [(js "etag", js "abc")] (js "content-type").
Proof.
  apply X9_sanitizeHeaders_absent_content_type. vm_compute. reflexivity.
Defined.

(** ** What is relayed *)

Module Relay.

Import Headers HeadersFacts HeaderNames Sanitizer.

Lemma rewriteCss_headers resp :
  let hs := Worker.sanitizeHeadersInPlace
              (set (Headers.new (headers resp)) ctype cssUtf8) in
  has hs ctype = true /\ get hs ctype = Some cssUtf8.
Proof.
  cbv zeta. unfold Worker.sanitizeHeadersInPlace. split.
  - through_edits. reflexivity.
  - through_edits. reflexivity.
Qed.

End Relay.

(** X10. [rewriteCss] answers with the status of the upstream response, a
    string body that is the rewritten style sheet, and the content-type
    [text/css; charset=utf-8] whatever the upstream one was; the three
    policy headers are gone and every header other than content-type and the
    six sanitizer names has its upstream value. *)
Theorem X10_rewriteCss_response
    (resp r : Response) (targetOrigin : jsstring) :
  Worker.rewriteCss resp targetOrigin = Normal r ->
  status r = status resp /\
  (exists rewritten,
     Worker.rewriteCssText targetOrigin (text resp) = Normal rewritten /\
     body r = Text rewritten) /\
  Headers.get (headers r) (js "content-type") = Some (js "text/css; charset=utf-8") /\
  Headers.has (headers r) (js "content-security-policy") = false /\
  Headers.has (headers r) (js "content-security-policy-report-only") = false /\
  Headers.has (headers r) (js "x-frame-options") = false /\
  (forall name,
     Headers.distinct name (js "content-security-policy") ->
     Headers.distinct name (js "content-security-policy-report-only") ->
     Headers.distinct name (js "x-frame-options") ->
     Headers.distinct name (js "access-control-allow-origin") ->
     Headers.distinct name (js "access-control-allow-headers") ->
     Headers.distinct name (js "access-control-allow-methods") ->
     Headers.distinct name (js "content-type") ->
     Headers.get (headers r) name = Headers.get (headers resp) name).
Proof.
  unfold Worker.rewriteCss.
  destruct (Worker.rewriteCssText targetOrigin (text resp)) as [rewritten| |];
    cbn [bind]; try discriminate.
  intros H. inversion H; subst; clear H.
  destruct (Relay.rewriteCss_headers resp) as [Hhas Hget].
  assert (Hh : headers
                 (Response_new (Text rewritten) (status resp)
                    (Worker.sanitizeHeadersInPlace
                       (Headers.set (Headers.new (headers resp))
                          (js "content-type") (js "text/css; charset=utf-8"))))
               = Worker.sanitizeHeadersInPlace
                   (Headers.set (Headers.new (headers resp))
                      (js "content-type") (js "text/css; charset=utf-8"))).
  { unfold Response_new. cbn [headers]. unfold Headers.new at 1.
    change (js "content-type") with HeaderNames.ctype.
    change (js "text/css; charset=utf-8") with cssUtf8.
    rewrite Hhas. reflexivity. }
  rewrite Hh. split; [reflexivity|]. split; [exists rewritten; split; reflexivity|].
  split; [exact Hget|].
  destruct (Sanitizer.worker_removal_set
              (Headers.set (Headers.new (headers resp))
                 (js "content-type") (js "text/css; charset=utf-8")))
    as (H1 & H2 & H3 & _).
  split; [exact H1|]. split; [exact H2|]. split; [exact H3|].
  intros name D1 D2 D3 D4 D5 D6 D7.
  rewrite Sanitizer.worker_get by assumption.
  rewrite HeadersFacts.get_set_other by exact D7. reflexivity.
Qed.

Lemma X10_rewriteCss_response_witness :
  exists r,
    Worker.rewriteCss
      (mkResponse 200
         [(js "content-security-policy", js "default-src 'self'");
          (js "etag", js "abc"); (js "content-type", js "text/css")]
         (Stream (js "a{background:url(bg.png)}")) basic)
      (js "https://example.com/") = Normal r /\
    Headers.get (headers r) (js "content-type")
    = Some (js "text/css; charset=utf-8").
Proof.
  eexists. split; [vm_compute; reflexivity|].
  refine (proj1 (proj2 (proj2
            (X10_rewriteCss_response
               (mkResponse 200
                  [(js "content-security-policy", js "default-src 'self'");
                   (js "etag", js "abc"); (js "content-type", js "text/css")]
                  (Stream (js "a{background:url(bg.png)}")) basic)
               _ (js "https://example.com/") _)))).
  vm_compute. reflexivity.
Defined.





(** ** The url(...) rewriters on the other occurrences *)

Module CssRewrite.

Lemma scanUrls_plain_text s :
  includes s (js "url(") = false -> scanUrls 0 s = map Lit s.
Proof.
  induction s as [|c s IH]; [reflexivity|].
  intros H. cbn [includes] in H. apply orb_false_iff in H. destruct H as [H1 H2].
  cbn [scanUrls map]. unfold matchUrlAt. rewrite H1. f_equal. apply IH. exact H2.
Qed.

Lemma replaceUrls_plain_text f s :
  includes s (js "url(") = false -> replaceUrls f s = Normal s.
Proof.
  intros H. unfold replaceUrls. rewrite (scanUrls_plain_text s H).
  rewrite CssUrls.mapM_Lit. cbn [bind]. rewrite CssUrls.concat_singletons.
  reflexivity.
Qed.

Lemma setAttribute_same el name : forall value,
  getAttribute el name = Some value -> setAttribute el name value = el.
Proof.
  induction el as [|[n v] el IH]; intros value H; [discriminate|].
  cbn [getAttribute] in H. cbn [setAttribute].
  destruct (jseqb n name).
  - inversion H. reflexivity.
  - rewrite (IH value H). reflexivity.
Qed.

(** A plain occurrence whose URL does not start with [data:] is replaced by
    the proxied path of the resolved URL, without the quotes. *)
Lemma replaceUrls_occurrence targetOrigin pre q u rest :
  Forall (fun c => c <> ch "(") pre ->
  isQuoteOrNothing q -> isPlainUrl u -> u <> [] ->
  startsWith u (js "data:") = false ->
  replaceUrls (urlReplacer targetOrigin) (pre ++ urlOccurrence q u ++ rest)
  = let* abs := resolveUrl targetOrigin u in
    let* proxied := toProxiedPath abs in
    let* R := replaceUrls (urlReplacer targetOrigin) rest in
    Normal (pre ++ js "url(" ++ proxied ++ js ")" ++ R).
Proof.
  intros Hpre Hq Hu Hne Hd.
  pose proof (CssUrls.matchUrlAt_occurrence q u rest Hq Hu Hne) as Hm.
  unfold replaceUrls.
  assert (E : urlOccurrence q u ++ rest
              = js "url(" ++ (q ++ u ++ q ++ js ")") ++ rest).
  { unfold urlOccurrence. rewrite <- app_assoc. reflexivity. }
  rewrite E, CssUrls.scanUrls_before by exact Hpre. rewrite <- E.
  assert (Hs : scanUrls 0 (urlOccurrence q u ++ rest)
               = Match (mkMatch (urlOccurrence q u) q u) :: scanUrls 0 rest).
  { remember (urlOccurrence q u) as occ eqn:Eo.
    destruct occ as [|c a]; [unfold urlOccurrence in Eo; discriminate|].
    apply CssUrls.scanUrls_match; [exact Hm|reflexivity]. }
  rewrite Hs, CssUrls.mapM_app, CssUrls.mapM_Lit. cbn [bind mapM].
  unfold urlReplacer at 1. cbn [m_url m_text]. rewrite Hd.
  destruct (resolveUrl targetOrigin u) as [abs| |]; cbn [bind]; try reflexivity.
  destruct (toProxiedPath abs) as [proxied| |]; cbn [bind]; try reflexivity.
  destruct (mapM _ (scanUrls 0 rest)) as [parts| |]; cbn [bind]; try reflexivity.
  rewrite concat_app, CssUrls.concat_singletons. cbn [List.concat].
  rewrite <- !app_assoc. reflexivity.
Qed.

End CssRewrite.

(** X13. A url(...) occurrence of a style sheet or of a [style] attribute,
    written without padding and preceded by text without an opening
    parenthesis, whose URL does not start with [data:], comes out as [url(]
    followed by the proxied path of the resolved URL and [)]: the quotes of
    the source are dropped, the text before the occurrence is kept and the
    rewriting goes on behind it.  A failure of the encoder for this URL is
    the failure of the whole rewriting. *)
Theorem X13_css_occurrence_rewritten
    (targetOrigin pre q u rest : jsstring) (el : Element) :
  Forall (fun c => c <> ch "(") pre ->
  isQuoteOrNothing q -> isPlainUrl u -> u <> [] ->
  startsWith u (js "data:") = false ->
  Worker.rewriteCssText targetOrigin (pre ++ urlOccurrence q u ++ rest)
  = (let* abs := resolveUrl targetOrigin u in
     let* proxied := toProxiedPath abs in
     let* R := Worker.rewriteCssText targetOrigin rest in
     Normal (pre ++ js "url(" ++ proxied ++ js ")" ++ R))
  /\
  (getAttribute el (js "style") = Some (pre ++ urlOccurrence q u ++ rest) ->
   styleHandler targetOrigin el
   = let* abs := resolveUrl targetOrigin u in
     let* proxied := toProxiedPath abs in
     let* R := replaceUrls (urlReplacer targetOrigin) rest in
     Normal (setAttribute el (js "style")
               (pre ++ js "url(" ++ proxied ++ js ")" ++ R))).
Proof.
  intros Hpre Hq Hu Hne Hd. split.
  - apply CssRewrite.replaceUrls_occurrence; assumption.
  - intros Hg. unfold styleHandler. rewrite Hg.
    destruct (pre ++ urlOccurrence q u ++ rest) as [|c s] eqn:E.
    { exfalso. apply app_eq_nil in E. destruct E as [_ E].
      unfold urlOccurrence in E. discriminate. }
    rewrite <- E, CssRewrite.replaceUrls_occurrence by assumption.
    destruct (resolveUrl targetOrigin u) as [abs| |]; cbn [bind]; try reflexivity.
    destruct (toProxiedPath abs) as [proxied| |]; cbn [bind]; try reflexivity.
    destruct (replaceUrls (urlReplacer targetOrigin) rest); reflexivity.
Qed.

Lemma X13_css_occurrence_rewritten_witness :
  Worker.rewriteCssText (js "https://example.com/css/site.css")
    (js "@font-face{src:url('../fonts/a.woff2')}")
  = Normal
      (js "@font-face{src:url(/service/https%3A%2F%2Fexample.com%2Ffonts%2Fa.woff2)}").
Proof.
  refine (eq_trans
            (proj1 (X13_css_occurrence_rewritten (js "https://example.com/css/site.css")
                      (js "@font-face{src:") (js "'") (js "../fonts/a.woff2") (js "}")
                      [] _ _ _ _ _)) _).
  - repeat constructor; discriminate.
  - right. left. reflexivity.
  - repeat constructor.
  - discriminate.
  - reflexivity.
  - vm_compute. reflexivity.
Defined.

(** X14. A text in which [url(] does not occur goes through both url(...)
    rewriters unchanged: the CSS body is returned as it is, and the handler
    of [style] attributes leaves the element as it found it. *)
Theorem X14_text_without_url_unchanged
    (targetOrigin s : jsstring) (el : Element) :
  includes s (js "url(") = false ->
  Worker.rewriteCssText targetOrigin s = Normal s /\
  (getAttribute el (js "style") = Some s ->
   styleHandler targetOrigin el = Normal el).
Proof.
  intros H. split.
  - apply CssRewrite.replaceUrls_plain_text. exact H.
  - intros Hg. unfold styleHandler. rewrite Hg.
    destruct s as [|c s]; [reflexivity|].
    rewrite (CssRewrite.replaceUrls_plain_text _ _ H). cbn [bind].
    rewrite (CssRewrite.setAttribute_same _ _ _ Hg). reflexivity.
Qed.

Lemma X14_text_without_url_unchanged_witness :
  styleHandler (js "https://example.com/")
    [(js "class", js "hero"); (js "style", js "color:red;margin:0")]
  = Normal [(js "class", js "hero"); (js "style", js "color:red;margin:0")].
Proof.
  refine (proj2 (X14_text_without_url_unchanged (js "https://example.com/")
                   (js "color:red;margin:0") _ _) _).
  - vm_compute. reflexivity.
  - reflexivity.
Defined.

(** ** Handlers and the dispatcher *)

Module Handlers.

Lemma getAttribute_setAttribute el name value :
  getAttribute (setAttribute el name value) name = Some value.
Proof.
  induction el as [|[n v] el IH]; cbn [setAttribute getAttribute].
  - rewrite HeadersFacts.jseqb_refl. reflexivity.
  - destruct (jseqb n name) eqn:E; cbn [getAttribute]; rewrite E;
      [reflexivity|exact IH].
Qed.

Lemma getAttribute_setAttribute_other el name value other :
  other <> name ->
  getAttribute (setAttribute el name value) other = getAttribute el other.
Proof.
  intros Hne. induction el as [|[n v] el IH]; cbn [setAttribute getAttribute].
  - destruct (jseqb name other) eqn:E; [|reflexivity].
    apply HeadersFacts.jseqb_eq in E. congruence.
  - destruct (jseqb n name) eqn:E; cbn [getAttribute].
    + apply HeadersFacts.jseqb_eq in E. subst n.
      destruct (jseqb name other) eqn:E2; [|reflexivity].
      apply HeadersFacts.jseqb_eq in E2. congruence.
    + destruct (jseqb n other); [reflexivity|exact IH].
Qed.

Lemma serialize_nonempty u : URL.serialize u <> [].
Proof.
  unfold URL.serialize. destruct (URL.scheme u); discriminate.
Qed.

(** What [resolveUrl] returns for a non-empty reference is not empty. *)
Lemma resolveUrl_nonempty base rel abs :
  rel <> [] -> resolveUrl base rel = Normal abs -> abs <> [].
Proof.
  intros Hne. unfold resolveUrl.
  destruct (URL.new rel (Some base)) as [u| |]; cbn [bind try_catch];
    intros H; inversion H; subst; [apply serialize_nonempty|exact Hne].
Qed.

(** The proxied path of a resolved URL decodes back to it. *)
Lemma proxied_decodes abs proxied :
  abs <> [] -> is16bit abs -> toProxiedPath abs = Normal proxied ->
  decode proxied = Normal (Target abs).
Proof.
  intros Hne H16 Hp.
  assert (Hwf : isWellFormed abs = true).
  { unfold toProxiedPath, encodeURIComponent in Hp.
    destruct (Encode abs) as [e| |] eqn:E; try discriminate.
    exact (Encoder.Encode_Normal_wellFormed abs e H16 E). }
  destruct (Codec.decode_toProxiedPath abs Hne Hwf) as (p & Hp' & Hd).
  congruence.
Qed.

End Handlers.

(** X15. The handler shared by the link, script, image, source and iframe
    rules: when it rewrites a non-empty attribute, the new value is a path
    that the dispatcher decodes back to the resolved URL, and every other
    attribute of the element is as before. *)
Theorem X15_rewritten_attribute_decodes
    (attr targetOrigin value abs : jsstring) (el el' : Element) :
  getAttribute el attr = Some value -> value <> [] ->
  resolveUrl targetOrigin value = Normal abs -> is16bit abs ->
  rewriteAttribute attr targetOrigin el = Normal el' ->
  (exists proxied,
     getAttribute el' attr = Some proxied /\
     decode proxied = Normal (Target abs)) /\
  (forall name, name <> attr -> getAttribute el' name = getAttribute el name).
Proof.
  intros Hg Hne Hr H16. unfold rewriteAttribute. rewrite Hg.
  destruct value as [|c value]; [contradiction|]. rewrite Hr. cbn [bind].
  destruct (toProxiedPath abs) as [proxied| |] eqn:Ep; cbn [bind]; try discriminate.
  intros H. inversion H; subst. split.
  - exists proxied. split; [apply Handlers.getAttribute_setAttribute|].
    apply Handlers.proxied_decodes; try assumption.
    eapply Handlers.resolveUrl_nonempty; [|exact Hr]. discriminate.
  - intros name Hn. apply Handlers.getAttribute_setAttribute_other. exact Hn.
Qed.

Lemma X15_rewritten_attribute_decodes_witness :
  exists proxied,
    getAttribute
      [(js "class", js "nav"); (js "href", js "/service/https%3A%2F%2Fexample.com%2Fdocs%2Fb.html")]
      (js "href") = Some proxied /\
    decode proxied = Normal (Target (js "https://example.com/docs/b.html")).
Proof.
  refine (proj1 (X15_rewritten_attribute_decodes (js "href")
                   (js "https://example.com/docs/a.html") (js "b.html")
                   (js "https://example.com/docs/b.html")
                   [(js "class", js "nav"); (js "href", js "b.html")] _
                   _ _ _ _ _)).
  - reflexivity.
  - discriminate.
  - vm_compute. reflexivity.
  - repeat constructor.
  - vm_compute. reflexivity.
Defined.

(** X16. The form handler: when it rewrites a non-empty [action], the new
    value decodes back to the resolved URL, [target] is [_self] whatever it
    was, and every attribute other than these two is as before. *)
Theorem X16_form_handler
    (targetOrigin action abs : jsstring) (el el' : Element) :
  getAttribute el (js "action") = Some action -> action <> [] ->
  resolveUrl targetOrigin action = Normal abs -> is16bit abs ->
  formHandler targetOrigin el = Normal el' ->
  (exists proxied,
     getAttribute el' (js "action") = Some proxied /\
     decode proxied = Normal (Target abs)) /\
  getAttribute el' (js "target") = Some (js "_self") /\
  (forall name, name <> js "action" -> name <> js "target" ->
     getAttribute el' name = getAttribute el name).
Proof.
  intros Hg Hne Hr H16. unfold formHandler. rewrite Hg.
  destruct action as [|c action]; [contradiction|]. rewrite Hr. cbn [bind].
  destruct (toProxiedPath abs) as [proxied| |] eqn:Ep; cbn [bind]; try discriminate.
  intros H. inversion H; subst. split; [|split].
  - exists proxied. split.
    + rewrite Handlers.getAttribute_setAttribute_other by discriminate.
      apply Handlers.getAttribute_setAttribute.
    + apply Handlers.proxied_decodes; try assumption.
      eapply Handlers.resolveUrl_nonempty; [|exact Hr]. discriminate.
  - apply Handlers.getAttribute_setAttribute.
  - intros name Ha Ht.
    rewrite !Handlers.getAttribute_setAttribute_other by assumption.
    reflexivity.
Qed.

Lemma X16_form_handler_witness :
  getAttribute
    [(js "action", js "/service/https%3A%2F%2Fexample.com%2Fsearch");
     (js "target", js "_self")]
    (js "target") = Some (js "_self").
Proof.
  refine (proj1 (proj2 (X16_form_handler (js "https://example.com/")
                          (js "/search") (js "https://example.com/search")
                          [(js "action", js "/search"); (js "target", js "_blank")] _
                          _ _ _ _ _))).
  - reflexivity.
  - discriminate.
  - vm_compute. reflexivity.
  - repeat constructor.
  - vm_compute. reflexivity.
Defined.

(** ** From a rewritten link to the outbound fetch *)

Module Follow.

Import URL.
Import CodecFacts.

Lemma below_128 (P : N -> bool) :
  forallb P (map N.of_nat (seq 0 128)) = true ->
  forall c, c < 128 -> P c = true.
Proof.
  intros H c Hc. rewrite forallb_forall in H. apply H.
  apply in_map_iff. exists (N.to_nat c). split; [apply N2Nat.id|].
  apply in_seq. lia.
Qed.

Lemma pathSafe_segment c : isPathSafe c = true -> isSegmentPoint c = true.
Proof.
  intros H.
  assert (Hc : c < 128).
  { unfold isPathSafe in H. apply orb_true_iff in H. destruct H as [H|H].
    - apply Encoder.alwaysUnescaped_ascii in H. lia.
    - apply N.eqb_eq in H. subst c. reflexivity. }
  pose proof (below_128 (fun c => implb (isPathSafe c) (isSegmentPoint c))
                ltac:(vm_compute; reflexivity) c Hc) as X.
  cbv beta in X. rewrite H in X. exact X.
Qed.

Lemma segment_plainByte c : isSegmentPoint c = true -> isPlainByte c = true.
Proof.
  unfold isSegmentPoint, isPlainByte. intros H.
  apply andb_true_iff in H. destruct H as [H _].
  apply andb_true_iff in H. destruct H as [H _]. exact H.
Qed.

Lemma hostUnit_plainByte c : isHostUnit c = true -> isPlainByte c = true.
Proof.
  intros H.
  assert (Hc : c < 128).
  { unfold isHostUnit in H. bools. lia. }
  pose proof (below_128 (fun c => implb (isHostUnit c) (isPlainByte c))
                ltac:(vm_compute; reflexivity) c Hc) as X.
  cbv beta in X. rewrite H in X. exact X.
Qed.

Lemma hostUnit_noStop c : isHostUnit c = true -> authorityStop true c = false.
Proof. unfold isHostUnit. intros H. bools. assumption. Qed.

Lemma hostUnit_noSlash c : isHostUnit c = true -> isSlash c = false.
Proof.
  intros H.
  assert (Hc : c < 128).
  { unfold isHostUnit in H. bools. lia. }
  pose proof (below_128 (fun c => implb (isHostUnit c) (negb (isSlash c)))
                ltac:(vm_compute; reflexivity) c Hc) as X.
  cbv beta in X. rewrite H in X. apply negb_true_iff in X. exact X.
Qed.

Lemma toUSV_id s : Forall (fun c => c < 0xD800) s -> toUSV s = s.
Proof.
  induction 1 as [|c s Hc _ IH]; [reflexivity|].
  cbn [toUSV].
  replace (isLeadingSurrogate c) with false
    by (symmetry; apply andb_false_iff; left; apply N.leb_gt; lia).
  replace (isTrailingSurrogate c) with false
    by (symmetry; apply andb_false_iff; left; apply N.leb_gt; lia).
  rewrite IH. reflexivity.
Qed.

(** Printable ASCII without question mark and number sign is what the parser
    reads of it. *)
Lemma preprocess_plainBytes s :
  Forall (fun c => isPlainByte c = true) s -> preprocess s = s.
Proof.
  intros H. rewrite RawQuery.preprocess_location.
  - apply toUSV_id. eapply Forall_impl; [|exact H]. cbv beta.
    unfold isPlainByte. intros c Hc. bools. lia.
  - eapply Forall_impl; [|exact H]. cbv beta.
    unfold isPlainByte, isQueryOrFragmentStart, isLocationUnit.
    intros c Hc. bools. repeat split; assumption.
Qed.

Lemma parseAuthority_stop sch special l c q :
  authorityStop special c = true ->
  parseAuthority sch special (l ++ c :: q)
  = let* r := parseAuthority sch special l in
    Normal (fst r, snd r ++ c :: q).
Proof.
  intros Hc. unfold parseAuthority.
  rewrite RawQuery.break_app_stop by exact Hc.
  destruct (break (authorityStop special) l) as [auth tail]. cbn [fst snd].
  destruct (match splitLast isAt auth with
            | Some (c, hp) => (Some c, hp)
            | None => (None, auth)
            end) as [creds hostport].
  destruct (match creds with
            | Some c => let (u, p) := break isColon c in
                        (percentEncodeAll inUserinfoSet u,
                         percentEncodeAll inUserinfoSet (tl p))
            | None => ([], [])
            end) as [user pass].
  destruct creds as [c0|]; destruct hostport as [|h0 hp]; try reflexivity.
  all: destruct (breakHost false _) as [h [portText|]].
  all: try (destruct h as [|h1 h]; [reflexivity|];
            destruct (hostParse (h1 :: h) (negb special)); cbn [bind];
            try reflexivity;
            destruct (portParse sch portText); reflexivity).
  all: destruct special; destruct h as [|h1 h]; try reflexivity;
       destruct (hostParse _ _); reflexivity.
Qed.

Lemma parseAuthority_tail sch special l r :
  parseAuthority sch special l = Normal r ->
  snd r = snd (break (authorityStop special) l).
Proof.
  unfold parseAuthority.
  destruct (break (authorityStop special) l) as [auth tail]. cbn [snd].
  destruct (match splitLast isAt auth with
            | Some (c, hp) => (Some c, hp)
            | None => (None, auth)
            end) as [creds hostport].
  destruct (match creds with
            | Some c => let (u, p) := break isColon c in
                        (percentEncodeAll inUserinfoSet u,
                         percentEncodeAll inUserinfoSet (tl p))
            | None => ([], [])
            end) as [user pass].
  destruct creds as [c|]; destruct hostport as [|h0 hp]; try discriminate.
  all: destruct (breakHost false _) as [h [portText|]].
  all: try (destruct h as [|h1 h]; [discriminate|];
            destruct (hostParse (h1 :: h) (negb special)); cbn [bind];
            try discriminate;
            destruct (portParse sch portText); cbn [bind]; try discriminate;
            intros E; inversion E; reflexivity).
  all: destruct special; destruct h as [|h1 h]; try discriminate;
       destruct (hostParse _ _); cbn [bind]; try discriminate;
       intros E; inversion E; reflexivity.
Qed.

Lemma splitOn_id sep e :
  Forall (fun c => sep c = false) e -> splitOn sep e = [e].
Proof.
  induction 1 as [|c e Hc _ IH]; [reflexivity|].
  cbn [splitOn]. rewrite Hc, IH. reflexivity.
Qed.

Lemma splitOn_app_sep sep a c b :
  Forall (fun c => sep c = false) a -> sep c = true ->
  splitOn sep (a ++ c :: b) = a :: splitOn sep b.
Proof.
  intros Ha Hc. induction Ha as [|x a Hx _ IH]; cbn [app splitOn].
  - rewrite Hc. reflexivity.
  - rewrite Hx, IH. reflexivity.
Qed.

Lemma percentEncodeAll_id set e :
  Forall (fun c => set c = false) e -> percentEncodeAll set e = e.
Proof.
  induction 1 as [|c e Hc _ IH]; [reflexivity|].
  unfold percentEncodeAll in *. cbn [flat_map]. unfold percentEncode at 1.
  rewrite Hc, IH. reflexivity.
Qed.

Lemma segment_facts e :
  Forall (fun c => isSegmentPoint c = true) e ->
  Forall (fun c => isQueryOrFragmentStart c = false) e /\
  Forall (fun c => pathSeparator true c = false) e /\
  Forall (fun c => inPathSet c = false) e.
Proof.
  intros H. repeat split; (eapply Forall_impl; [|exact H]); cbv beta;
    unfold isSegmentPoint; intros c Hc; bools; assumption.
Qed.

(** The path state on the text of a proxied path behind its first slash. *)
Lemma withPath_proxied sch user pass hst prt e :
  Forall (fun c => isSegmentPoint c = true) e ->
  isSingleDot e = false -> isDoubleDot e = false ->
  withPath sch user pass hst prt true (js "service/" ++ e) []
  = mk sch user pass hst prt (Segments [js "service"; e]) None None.
Proof.
  intros He Hd1 Hd2. destruct (segment_facts e He) as (Hq & Hs & Hp).
  unfold withPath, pathState.
  rewrite RawQuery.break_id.
  2:{ apply Forall_app. split; [|exact Hq]. repeat constructor. }
  change (js "service/" ++ e) with (js "service" ++ ch "/" :: e).
  rewrite splitOn_app_sep by first [reflexivity | repeat constructor].
  rewrite (splitOn_id _ e Hs).
  cbn [pathSegments].
  change (percentEncodeAll inPathSet (js "service")) with (js "service").
  change (isDoubleDot (js "service")) with false.
  change (isSingleDot (js "service")) with false.
  cbv iota. rewrite (percentEncodeAll_id _ e Hp), Hd1, Hd2. reflexivity.
Qed.

(** A URL made of [http] or [https], [://], a host and what follows it goes
    from the scheme states straight to the authority state. *)
Lemma parseCodePoints_authority sch c h rest :
  sch = js "http" \/ sch = js "https" ->
  isSlash c = false ->
  parseCodePoints (sch ++ js "://" ++ (c :: h) ++ rest) None
  = authorityState sch true ((c :: h) ++ rest).
Proof.
  intros [-> | ->] Hc.
  - change (parseCodePoints (js "http" ++ js "://" ++ (c :: h) ++ rest) None)
      with (authorityState (js "http") true (dropWhile isSlash ((c :: h) ++ rest))).
    cbn [app dropWhile]. rewrite Hc. reflexivity.
  - change (parseCodePoints (js "https" ++ js "://" ++ (c :: h) ++ rest) None)
      with (authorityState (js "https") true (dropWhile isSlash ((c :: h) ++ rest))).
    cbn [app dropWhile]. rewrite Hc. reflexivity.
Qed.

Lemma scheme_plainBytes sch :
  sch = js "http" \/ sch = js "https" ->
  Forall (fun c => isPlainByte c = true) (sch ++ js "://").
Proof. intros [-> | ->]; repeat constructor. Qed.

(** The request URL of a proxied path under a proxy root that parses: its
    pathname is the proxied path and its origin the one of the root. *)
Lemma parse_proxied sch h e b :
  sch = js "http" \/ sch = js "https" ->
  Forall (fun c => isHostUnit c = true) h ->
  Forall (fun c => isSegmentPoint c = true) e ->
  isSingleDot e = false -> isDoubleDot e = false ->
  parse (sch ++ js "://" ++ h) None = Normal b ->
  exists u o,
    parse (sch ++ js "://" ++ h ++ ROUTE_PREFIX ++ e) None = Normal u /\
    pathname u = ROUTE_PREFIX ++ e /\
    origin u = Normal o /\ origin b = Normal o.
Proof.
  intros Hs Hh He Hd1 Hd2 Hb.
  assert (Hplain : Forall (fun c => isPlainByte c = true) h).
  { eapply Forall_impl; [|exact Hh]. apply hostUnit_plainByte. }
  unfold parse in *.
  rewrite preprocess_plainBytes in Hb.
  2:{ rewrite app_assoc. apply Forall_app. split;
        [apply scheme_plainBytes; exact Hs|exact Hplain]. }
  rewrite preprocess_plainBytes.
  2:{ rewrite app_assoc. apply Forall_app. split;
        [apply scheme_plainBytes; exact Hs|].
      apply Forall_app. split; [exact Hplain|].
      apply Forall_app. split; [repeat constructor|].
      eapply Forall_impl; [|exact He]. apply segment_plainByte. }
  destruct h as [|c h].
  { exfalso. destruct Hs as [-> | ->]; vm_compute in Hb; discriminate. }
  assert (Hc : isSlash c = false).
  { inversion Hh; subst. apply hostUnit_noSlash. assumption. }
  rewrite <- (app_nil_r (c :: h)) in Hb.
  rewrite (parseCodePoints_authority sch c h [] Hs Hc) in Hb.
  rewrite (parseCodePoints_authority sch c h (ROUTE_PREFIX ++ e) Hs Hc).
  rewrite app_nil_r in Hb.
  unfold authorityState in *.
  destruct (parseAuthority sch true (c :: h)) as [[a tail]| |] eqn:Ea;
    cbn [bind] in Hb; try discriminate.
  pose proof (parseAuthority_tail _ _ _ _ Ea) as Ht. cbn [snd] in Ht.
  rewrite RawQuery.break_id in Ht.
  2:{ eapply Forall_impl; [|exact Hh]. apply hostUnit_noStop. }
  cbn [snd] in Ht. subst tail.
  change (ROUTE_PREFIX ++ e) with (ch "/" :: js "service/" ++ e).
  rewrite parseAuthority_stop by reflexivity. rewrite Ea.
  cbn [bind fst snd app].
  inversion Hb as [Eb]. clear Hb.
  unfold pathStart.
  change ((ch "/" =? ch "/") || (ch "/" =? ch "\")) with true. cbv iota.
  rewrite (withPath_proxied _ _ _ _ _ e He Hd1 Hd2).
  exists (mk sch (a_username a) (a_password a) (Some (a_host a)) (a_port a)
            (Segments [js "service"; e]) None None).
  destruct Hs as [-> | ->].
  - eexists. split; [reflexivity|]. split.
    + unfold pathname. cbn [path serializePath flat_map]. rewrite app_nil_r.
      reflexivity.
    + split; reflexivity.
  - eexists. split; [reflexivity|]. split.
    + unfold pathname. cbn [path serializePath flat_map]. rewrite app_nil_r.
      reflexivity.
    + split; reflexivity.
Qed.

Lemma letter_not_dot c :
  isAsciiAlpha c = true ->
  (c =? 46) = false /\ (asciiLower c =? 46) = false /\ (asciiLower c =? 37) = false.
Proof.
  unfold isAsciiAlpha, asciiLower, isAsciiUpper, isAsciiLower. chars. intros H.
  destruct ((65 <=? c) && (c <=? 90)) eqn:E.
  - bools. repeat split; apply N.eqb_neq; lia.
  - cbn [orb] in H. bools. repeat split; apply N.eqb_neq; lia.
Qed.

(** The encoding of a string that starts with a letter is no dot segment. *)
Lemma Encode_letter target e :
  startsWithLetter target = true -> Encode target = Normal e ->
  isSingleDot e = false /\ isDoubleDot e = false.
Proof.
  destruct target as [|c t]; [discriminate|]. cbn [startsWithLetter].
  intros Ha He. cbn [Encode] in He.
  assert (Hu : alwaysUnescaped c = true).
  { unfold alwaysUnescaped, isAsciiAlnum. rewrite Ha. reflexivity. }
  rewrite Hu in He.
  destruct (Encode t) as [R| |]; cbn [bind] in He; try discriminate.
  inversion He; subst.
  destruct (letter_not_dot c Ha) as (H1 & H2 & H3).
  unfold isSingleDot, isDoubleDot, eqNoCase.
  change (js ".") with [46]. change (js "..") with [46; 46].
  change (js "%2e") with [37; 50; 101].
  change (js ".%2e") with [46; 37; 50; 101].
  change (js "%2e.") with [37; 50; 101; 46].
  change (js "%2e%2e") with [37; 50; 101; 37; 50; 101].
  cbn [map jseqb]. rewrite H1, H2, H3. split; reflexivity.
Qed.

End Follow.

(** X17. Following a rewritten link.  Let the proxy be served from a root
    URL made of [http] or [https], [://] and a host (with an optional port)
    that parses.  For every target that starts with a letter and that
    [toProxiedPath] encodes, the request whose URL is the root followed by
    the proxied path is parsed by the dispatchers to a URL with exactly that
    path and with the origin of the root, the path decodes to the target,
    and unless the target starts with the text of that origin worker.js and
    the middle variant issue exactly one outbound fetch, to the target, with
    the method, headers and body rule of the request; index.js does so in
    every case. *)
Theorem X17_rewritten_link_followed
    (transport : jsstring -> RequestInit -> Settled) (request : Request)
    (sch h target p : jsstring) (b : URL.t) :
  sch = js "http" \/ sch = js "https" ->
  Forall (fun c => isHostUnit c = true) h ->
  URL.new (sch ++ js "://" ++ h) None = Normal b ->
  is16bit target -> startsWithLetter target = true ->
  toProxiedPath target = Normal p ->
  url request = sch ++ js "://" ++ h ++ p ->
  exists u o,
    URL.new (url request) None = Normal u /\
    URL.pathname u = p /\
    URL.origin u = Normal o /\ URL.origin b = Normal o /\
    decode (URL.pathname u) = Normal (Target target) /\
    (startsWith target o = false ->
     fst (Worker.fetch transport request) = [(target, initOf request)] /\
     fst (Middle.fetch transport request) = [(target, initOf request)]) /\
    fst (Index.fetch transport request) = [(target, initOf request)].
Proof.
  intros Hs Hh Hb H16 Hl Hp Hurl.
  assert (Hne : target <> []) by (destruct target; discriminate).
  pose proof (Handlers.proxied_decodes target p Hne H16 Hp) as Hd.
  unfold toProxiedPath, encodeURIComponent in Hp.
  destruct (Encode target) as [e| |] eqn:Ee; cbn [bind] in Hp; try discriminate.
  inversion Hp; subst p. clear Hp.
  destruct (Follow.Encode_letter target e Hl Ee) as [Hd1 Hd2].
  assert (He : Forall (fun c => isSegmentPoint c = true) e).
  { pose proof (Encoder.Encode_safe (List.length target) target e (le_n _) H16 Ee)
      as Hsafe.
    eapply Forall_impl; [|exact Hsafe]. apply Follow.pathSafe_segment. }
  destruct (Follow.parse_proxied sch h e b Hs Hh He Hd1 Hd2 Hb)
    as (u & o & Hu & Hpath & Ho & Hob).
  assert (Hnew : URL.new (url request) None = Normal u).
  { rewrite Hurl. exact Hu. }
  assert (Hprefix : startsWith (URL.pathname u) ROUTE_PREFIX = true).
  { rewrite Hpath. apply CssUrls.startsWith_app. }
  assert (Hdec : decode (URL.pathname u) = Normal (Target target)).
  { rewrite Hpath. exact Hd. }
  exists u, o. repeat split; try assumption.
  - rewrite (Dispatch.worker_guard transport request u Hnew target o
               Hprefix Hdec Ho).
    rewrite H. destruct (transport target (initOf request)); reflexivity.
  - rewrite (Dispatch.middle_guard transport request u Hnew target o
               Hprefix Hdec Ho).
    rewrite H. destruct (transport target (initOf request)); reflexivity.
  - rewrite (Dispatch.index_run transport request u Hnew target Hprefix Hdec).
    destruct (transport target (initOf request)); reflexivity.
Qed.

Lemma X17_rewritten_link_followed_witness :
  exists u o,
    URL.new (js "https://proxy.example:8443/service/https%3A%2F%2Fexample.com%2Fa%3Fb") None
    = Normal u /\
    URL.pathname u = js "/service/https%3A%2F%2Fexample.com%2Fa%3Fb" /\
    URL.origin u = Normal o /\
    URL.origin (URL.mk (js "https") [] [] (Some (js "proxy.example")) (Some 8443)
                  (URL.Segments [[]]) None None) = Normal o /\
    decode (URL.pathname u) = Normal (Target (js "https://example.com/a?b")) /\
    (startsWith (js "https://example.com/a?b") o = false ->
     fst (Worker.fetch failingTransport
            (GET "https://proxy.example:8443/service/https%3A%2F%2Fexample.com%2Fa%3Fb"))
     = [(js "https://example.com/a?b", mkInit (js "GET") [] None)] /\
     fst (Middle.fetch failingTransport
            (GET "https://proxy.example:8443/service/https%3A%2F%2Fexample.com%2Fa%3Fb"))
     = [(js "https://example.com/a?b", mkInit (js "GET") [] None)]) /\
    fst (Index.fetch failingTransport
           (GET "https://proxy.example:8443/service/https%3A%2F%2Fexample.com%2Fa%3Fb"))
    = [(js "https://example.com/a?b", mkInit (js "GET") [] None)].
Proof.
  apply (X17_rewritten_link_followed failingTransport
           (GET "https://proxy.example:8443/service/https%3A%2F%2Fexample.com%2Fa%3Fb")
           (js "https") (js "proxy.example:8443") (js "https://example.com/a?b")
           (js "/service/https%3A%2F%2Fexample.com%2Fa%3Fb")).
  - right. reflexivity.
  - repeat constructor.
  - vm_compute. reflexivity.
  - repeat constructor.
  - reflexivity.
  - vm_compute. reflexivity.
  - vm_compute. reflexivity.
Defined.

(** ** The recursion guard and the outbound traffic *)

Module Guard.

(** The serialisation of a URL of a special scheme without credentials
    starts with the serialisation of its origin. *)
Lemma href_origin t o :
  URL.isSpecial (URL.scheme t) = true ->
  URL.username t = [] -> URL.password t = [] ->
  URL.origin t = Normal o ->
  startsWith (URL.href t) o = true.
Proof.
  intros Hs Hu Hp Ho. unfold URL.origin in Ho.
  destruct (jseqb (URL.scheme t) (js "blob") || jseqb (URL.scheme t) (js "file"));
    [discriminate|].
  rewrite Hs in Ho. destruct (URL.host t) as [h|] eqn:Eh; [|discriminate].
  inversion Ho as [Eo]. clear Ho.
  unfold URL.href, URL.serialize, URL.serializeAuthority. rewrite Eh, Hu, Hp.
  change (js "://") with (js ":" ++ js "//").
  cbn [app]. rewrite <- !app_assoc. cbn [app].
  rewrite !app_assoc. rewrite <- !app_assoc.
  repeat rewrite (app_assoc (URL.scheme t)).
  match goal with
  | |- startsWith ?s ?p = true =>
      assert (E : exists r, s = p ++ r)
  end.
  { eexists. rewrite <- !app_assoc. cbn [app]. rewrite <- !app_assoc.
    reflexivity. }
  destruct E as [r ->]. apply CssUrls.startsWith_app.
Qed.

End Guard.

(** X18. The recursion guard catches every target in serialised form: when
    the decoded target is the serialisation of a URL of a special scheme
    without credentials whose origin is the origin of the request URL,
    worker.js and the middle variant answer 400 and perform no outbound
    fetch. *)
Theorem X18_guard_refuses_serialized_target
    (transport : jsstring -> RequestInit -> Settled) (request : Request)
    (u t : URL.t) (o : jsstring) :
  URL.new (url request) None = Normal u ->
  startsWith (URL.pathname u) ROUTE_PREFIX = true ->
  decode (URL.pathname u) = Normal (Target (URL.href t)) ->
  URL.origin u = Normal o -> URL.origin t = Normal o ->
  URL.isSpecial (URL.scheme t) = true ->
  URL.username t = [] -> URL.password t = [] ->
  Worker.fetch transport request
  = ([], Normal (plainText 400 (js "Refusing to proxy worker origin"))) /\
  Middle.fetch transport request
  = ([], Normal (plainText 400 (js "Refusing to proxy this origin"))).
Proof.
  intros Hurl Hprefix Hdec Ho Hot Hs Hu Hp.
  pose proof (Guard.href_origin t o Hs Hu Hp Hot) as Hg.
  rewrite (Dispatch.worker_guard transport request u Hurl (URL.href t) o
             Hprefix Hdec Ho).
  rewrite (Dispatch.middle_guard transport request u Hurl (URL.href t) o
             Hprefix Hdec Ho).
  rewrite Hg. split; reflexivity.
Qed.

Lemma X18_guard_refuses_serialized_target_witness :
  Worker.fetch failingTransport
    (GET "https://proxy.example/service/https%3A%2F%2Fproxy.example%2Fservice%2Fx")
  = ([], Normal (plainText 400 (js "Refusing to proxy worker origin"))).
Proof.
  refine (proj1 (X18_guard_refuses_serialized_target failingTransport
                   (GET "https://proxy.example/service/https%3A%2F%2Fproxy.example%2Fservice%2Fx")
                   (URL.mk (js "https") [] [] (Some (js "proxy.example")) None
                      (URL.Segments [js "service"; js "https%3A%2F%2Fproxy.example%2Fservice%2Fx"])
                      None None)
                   (URL.mk (js "https") [] [] (Some (js "proxy.example")) None
                      (URL.Segments [js "service"; js "x"]) None None)
                   (js "https://proxy.example") _ _ _ _ _ _ _ _)).
  - vm_compute. reflexivity.
  - vm_compute. reflexivity.
  - vm_compute. reflexivity.
  - vm_compute. reflexivity.
  - vm_compute. reflexivity.
  - reflexivity.
  - reflexivity.
  - reflexivity.
Defined.

(** X19. The outbound traffic of worker.js and of the middle variant: a run
    that performs an outbound fetch performs exactly one, with the method and
    headers of the incoming request and its body for a method other than GET
    and HEAD, and to a target that does not start with the text of the
    origin of the request URL. *)
Theorem X19_single_admitted_fetch
    (transport : jsstring -> RequestInit -> Settled) (request : Request)
    (target : jsstring) (init : RequestInit) :
  In (target, init) (fst (Worker.fetch transport request)) \/
  In (target, init) (fst (Middle.fetch transport request)) ->
  init = initOf request /\
  (exists u o,
     URL.new (url request) None = Normal u /\ URL.origin u = Normal o /\
     startsWith target o = false) /\
  (In (target, init) (fst (Worker.fetch transport request)) ->
   fst (Worker.fetch transport request) = [(target, init)]) /\
  (In (target, init) (fst (Middle.fetch transport request)) ->
   fst (Middle.fetch transport request) = [(target, init)]).
Proof.
  assert (W : In (target, init) (fst (Worker.fetch transport request)) ->
              init = initOf request /\
              (exists u o,
                 URL.new (url request) None = Normal u /\ URL.origin u = Normal o /\
                 startsWith target o = false) /\
              fst (Worker.fetch transport request) = [(target, init)]).
  { unfold Worker.fetch.
    destruct (URL.new (url request) None) as [u| |]; try contradiction.
    destruct (negb (startsWith (URL.pathname u) ROUTE_PREFIX)); [contradiction|].
    destruct (decode (URL.pathname u)) as [[| |t]| |]; try contradiction.
    destruct (URL.origin u) as [o| |] eqn:Eo; try contradiction.
    destruct (startsWith t o) eqn:Eg; [contradiction|].
    intros Hin.
    assert (E : (target, init) = (t, initOf request)).
    { destruct (transport t _); cbn [fst In] in Hin;
        destruct Hin as [Hin|[]]; symmetry; exact Hin. }
    inversion E; subst. split; [reflexivity|]. split.
    - exists u, o. split; [reflexivity|]. split; [exact Eo|exact Eg].
    - destruct (transport t _); reflexivity. }
  assert (M : In (target, init) (fst (Middle.fetch transport request)) ->
              init = initOf request /\
              (exists u o,
                 URL.new (url request) None = Normal u /\ URL.origin u = Normal o /\
                 startsWith target o = false) /\
              fst (Middle.fetch transport request) = [(target, init)]).
  { unfold Middle.fetch.
    destruct (URL.new (url request) None) as [u| |]; try contradiction.
    destruct (jseqb (URL.pathname u) (js "/")
              || jseqb (URL.pathname u) Middle.WORKER_BASE); [contradiction|].
    destruct (negb (startsWith (URL.pathname u) ROUTE_PREFIX)); [contradiction|].
    destruct (decode (URL.pathname u)) as [[| |t]| |]; try contradiction.
    destruct (URL.origin u) as [o| |] eqn:Eo; try contradiction.
    destruct (startsWith t o) eqn:Eg; [contradiction|].
    intros Hin.
    assert (E : (target, init) = (t, initOf request)).
    { destruct (transport t _); cbn [fst In] in Hin;
        destruct Hin as [Hin|[]]; symmetry; exact Hin. }
    inversion E; subst. split; [reflexivity|]. split.
    - exists u, o. split; [reflexivity|]. split; [exact Eo|exact Eg].
    - destruct (transport t _); reflexivity. }
  intros [H|H].
  - destruct (W H) as (H1 & H2 & H3).
    split; [exact H1|]. split; [exact H2|]. split; [intros _; exact H3|].
    intros H'. exact (proj2 (proj2 (M H'))).
  - destruct (M H) as (H1 & H2 & H3).
    split; [exact H1|]. split; [exact H2|]. split; [|intros _; exact H3].
    intros H'. exact (proj2 (proj2 (W H'))).
Qed.

Lemma X19_single_admitted_fetch_witness :
  mkInit (js "POST") [(js "accept", js "*/*")] (Some (js "a=1"))
  = initOf (mkRequest (js "https://proxy.example/service/https%3A%2F%2Fexample.com%2Fform")
              (js "POST") [(js "accept", js "*/*")] (Some (js "a=1"))).
Proof.
  refine (proj1 (X19_single_admitted_fetch failingTransport
                   (mkRequest (js "https://proxy.example/service/https%3A%2F%2Fexample.com%2Fform")
                      (js "POST") [(js "accept", js "*/*")] (Some (js "a=1")))
                   (js "https://example.com/form") _ _)).
  left. vm_compute. left. reflexivity.
Defined.

(** ** The meta refresh rule *)

Module MetaRefresh.

Import CodecFacts.

Lemma dropWhile_all p w rest :
  Forall (fun c => p c = true) w ->
  URL.dropWhile p (w ++ rest) = URL.dropWhile p rest.
Proof.
  induction 1 as [|c w Hc _ IH]; [reflexivity|].
  cbn [app URL.dropWhile]. rewrite Hc. exact IH.
Qed.

Lemma keyword_units k :
  map URL.asciiLower k = js "url=" ->
  exists k0 k1 k2 k3,
    k = [k0; k1; k2; k3] /\ URL.asciiLower k0 = 117 /\ URL.asciiLower k1 = 114 /\
    URL.asciiLower k2 = 108 /\ URL.asciiLower k3 = 61.
Proof.
  change (js "url=") with [117; 114; 108; 61]. intros H.
  destruct k as [|k0 [|k1 [|k2 [|k3 [|k4 k]]]]]; try discriminate.
  inversion H. exists k0, k1, k2, k3. repeat split; reflexivity.
Qed.

Lemma letter_u_noWhiteSpace c : URL.asciiLower c = 117 -> isWhiteSpace c = false.
Proof.
  unfold URL.asciiLower. destruct (isAsciiUpper c); intros H.
  - assert (E : c = 85) by lia. subst c. reflexivity.
  - subst c. reflexivity.
Qed.

Lemma digit_noLineTerminator c :
  isAsciiDigit c = true -> isLineTerminator c = false.
Proof.
  unfold isAsciiDigit, isLineTerminator. chars. intros H. bools.
  rewrite !orb_false_iff. repeat split; apply N.eqb_neq; lia.
Qed.

(** The pattern on a value written as a refresh. *)
Lemma matchRefreshAt_value d w k u :
  d <> [] -> Forall (fun c => isAsciiDigit c = true) d ->
  Forall (fun c => isWhiteSpace c = true) w ->
  map URL.asciiLower k = js "url=" ->
  u <> [] -> Forall (fun c => isLineTerminator c = false) u ->
  matchRefreshAt (refreshPrefix d w k ++ u) = Some u.
Proof.
  intros Hd Hdigits Hw Hk Hu Hline.
  destruct (keyword_units k Hk) as (k0 & k1 & k2 & k3 & -> & E0 & E1 & E2 & E3).
  unfold refreshPrefix, matchRefreshAt.
  rewrite <- app_assoc. cbn [app].
  rewrite RawQuery.break_app_stop by reflexivity.
  rewrite RawQuery.break_id.
  2:{ eapply Forall_impl; [|exact Hdigits]. cbv beta. intros c Hc.
      rewrite Hc. reflexivity. }
  cbn [fst snd app]. destruct d as [|d0 d]; [contradiction|].
  rewrite N.eqb_refl. rewrite <- app_assoc. rewrite (dropWhile_all _ w _ Hw).
  cbn [app URL.dropWhile]. rewrite (letter_u_noWhiteSpace k0 E0).
  change (js "url=") with [117; 114; 108; 61]. cbn [startsWithNoCase skipn].
  rewrite E0, E1, E2, E3. cbn [andb N.eqb Pos.eqb URL.asciiLower].
  change (URL.asciiLower 117) with 117. change (URL.asciiLower 114) with 114.
  change (URL.asciiLower 108) with 108. change (URL.asciiLower 61) with 61.
  rewrite !N.eqb_refl. cbn [andb].
  rewrite (RawQuery.break_id _ u Hline). cbn [fst].
  destruct u; [contradiction|reflexivity].
Qed.

Lemma matchRefresh_value d w k u :
  d <> [] -> Forall (fun c => isAsciiDigit c = true) d ->
  Forall (fun c => isWhiteSpace c = true) w ->
  map URL.asciiLower k = js "url=" ->
  u <> [] -> Forall (fun c => isLineTerminator c = false) u ->
  matchRefresh (refreshPrefix d w k ++ u) = Some u.
Proof.
  intros Hd Hdigits Hw Hk Hu Hline.
  pose proof (matchRefreshAt_value d w k u Hd Hdigits Hw Hk Hu Hline) as H.
  destruct (refreshPrefix d w k ++ u); cbn [matchRefresh]; rewrite H; reflexivity.
Qed.

Lemma pathSafe_noDollar c : isPathSafe c = true -> (ch "$" =? c) = false.
Proof.
  intros H.
  assert (Hc : c < 128).
  { unfold isPathSafe in H. apply orb_true_iff in H. destruct H as [H|H].
    - apply Encoder.alwaysUnescaped_ascii in H. lia.
    - apply N.eqb_eq in H. subst c. reflexivity. }
  pose proof (Follow.below_128
                (fun c => implb (isPathSafe c) (negb (ch "$" =? c)))
                ltac:(vm_compute; reflexivity) c Hc) as X.
  cbv beta in X. rewrite H in X. apply negb_true_iff in X. exact X.
Qed.

(** A proxied path holds no dollar sign. *)
Lemma proxied_noDollar abs proxied :
  is16bit abs -> toProxiedPath abs = Normal proxied ->
  mem (ch "$") proxied = false.
Proof.
  intros H16 Hp. unfold toProxiedPath, encodeURIComponent in Hp.
  destruct (Encode abs) as [e| |] eqn:E; cbn [bind] in Hp; try discriminate.
  assert (Ep : proxied = ROUTE_PREFIX ++ e) by congruence.
  rewrite Ep. unfold mem. rewrite existsb_app.
  change (existsb (N.eqb (ch "$")) ROUTE_PREFIX) with false. cbn [orb].
  pose proof (Encoder.Encode_safe (List.length abs) abs e (le_n _) H16 E) as Hs.
  clear E Hp Ep. induction Hs as [|c e Hc _ IH]; [reflexivity|].
  cbn [existsb]. rewrite (pathSafe_noDollar c Hc). exact IH.
Qed.

Lemma startsWith_refl u : startsWith u u = true.
Proof. induction u as [|c u IH]; [reflexivity|]. cbn. rewrite N.eqb_refl. exact IH. Qed.

Lemma replaceFirst_head u x rest :
  Index.replaceFirst u x (u ++ rest) = x ++ rest.
Proof.
  destruct u as [|c u]; destruct rest as [|r rest]; cbn [app Index.replaceFirst].
  - reflexivity.
  - reflexivity.
  - rewrite app_nil_r, startsWith_refl, skipn_all. reflexivity.
  - change (c :: u ++ r :: rest) with ((c :: u) ++ r :: rest).
    rewrite CssUrls.startsWith_app, CssUrls.skipn_length_app. reflexivity.
Qed.

Lemma replaceFirst_at u x pre :
  notEarlier pre u = true -> Index.replaceFirst u x (pre ++ u) = pre ++ x.
Proof.
  induction pre as [|c pre IH]; intros H.
  - cbn [app]. rewrite <- (app_nil_r u) at 2. rewrite replaceFirst_head.
    apply app_nil_r.
  - cbn [notEarlier] in H. apply andb_true_iff in H. destruct H as [H1 H2].
    apply negb_true_iff in H1. cbn [app] in *. cbn [Index.replaceFirst].
    rewrite H1. f_equal. apply IH. exact H2.
Qed.

(** The handler on a value written as a refresh: group 1 is the URL, and
    the handler replaces the first occurrence of that text in the value. *)
Lemma handler_value targetOrigin el d w k u abs proxied :
  getAttribute el (js "content") = Some (refreshPrefix d w k ++ u) ->
  d <> [] -> Forall (fun c => isAsciiDigit c = true) d ->
  Forall (fun c => isWhiteSpace c = true) w ->
  map URL.asciiLower k = js "url=" ->
  u <> [] -> Forall (fun c => isLineTerminator c = false) u ->
  resolveUrl targetOrigin u = Normal abs -> is16bit abs ->
  toProxiedPath abs = Normal proxied ->
  metaRefreshHandler targetOrigin el
  = Normal (setAttribute el (js "content")
              (Index.replaceFirst u proxied (refreshPrefix d w k ++ u))).
Proof.
  intros Hg Hd Hdigits Hw Hk Hu Hline Hr H16 Hp.
  unfold metaRefreshHandler. rewrite Hg.
  rewrite (matchRefresh_value d w k u Hd Hdigits Hw Hk Hu Hline).
  rewrite Hr. cbn [bind]. rewrite Hp. cbn [bind].
  unfold replaceString. rewrite (proxied_noDollar abs proxied H16 Hp).
  cbn [bind].
  destruct (refreshPrefix d w k ++ u) eqn:E; [|reflexivity].
  exfalso. apply app_eq_nil in E. destruct E as [_ E]. contradiction.
Qed.

Lemma matchRefreshAt_none s :
  Forall (fun c => c <> ch ";") s -> matchRefreshAt s = None.
Proof.
  intros H. unfold matchRefreshAt.
  pose proof (RawQuery.Forall_break _ (fun c => negb (isAsciiDigit c)) s H)
    as [_ Hr].
  destruct (URL.break (fun c => negb (isAsciiDigit c)) s) as [digits r1].
  cbn [snd] in Hr. destruct digits; [reflexivity|].
  destruct r1 as [|c r2]; [reflexivity|].
  inversion Hr as [|? ? Hc _]; subst. apply N.eqb_neq in Hc. rewrite Hc.
  reflexivity.
Qed.

Lemma matchRefresh_none s :
  Forall (fun c => c <> ch ";") s -> matchRefresh s = None.
Proof.
  induction 1 as [|c s Hc Hs IH]; [reflexivity|].
  cbn [matchRefresh].
  rewrite (matchRefreshAt_none (c :: s)) by (constructor; assumption).
  exact IH.
Qed.

End MetaRefresh.

(** X20. The meta refresh rule of worker.js.  For a [content] value made of
    a delay in digits, a semicolon, any white space, the keyword [url=] in
    any case and a URL without line terminator, where the text of the URL
    does not occur earlier in the value, the handler keeps everything up to
    the keyword and puts the proxied path of the resolved URL in the place
    of the URL. *)
Theorem X20_meta_refresh_rewritten
    (targetOrigin delay gap keyword u abs proxied : jsstring) (el : Element) :
  getAttribute el (js "content") = Some (refreshPrefix delay gap keyword ++ u) ->
  delay <> [] -> Forall (fun c => isAsciiDigit c = true) delay ->
  Forall (fun c => isWhiteSpace c = true) gap ->
  map URL.asciiLower keyword = js "url=" ->
  u <> [] -> Forall (fun c => isLineTerminator c = false) u ->
  notEarlier (refreshPrefix delay gap keyword) u = true ->
  resolveUrl targetOrigin u = Normal abs -> is16bit abs ->
  toProxiedPath abs = Normal proxied ->
  metaRefreshHandler targetOrigin el
  = Normal (setAttribute el (js "content")
              (refreshPrefix delay gap keyword ++ proxied)).
Proof.
  intros Hg Hd Hdigits Hw Hk Hu Hline Hfirst Hr H16 Hp.
  rewrite (MetaRefresh.handler_value targetOrigin el delay gap keyword u abs
             proxied Hg Hd Hdigits Hw Hk Hu Hline Hr H16 Hp).
  rewrite (MetaRefresh.replaceFirst_at u proxied _ Hfirst). reflexivity.
Qed.

Lemma X20_meta_refresh_rewritten_witness :
  metaRefreshHandler (js "https://example.com/a/")
    [(js "http-equiv", js "refresh"); (js "content", js "5; URL=next.html")]
  = Normal
      [(js "http-equiv", js "refresh");
       (js "content", js "5; URL=/service/https%3A%2F%2Fexample.com%2Fa%2Fnext.html")].
Proof.
  refine (X20_meta_refresh_rewritten (js "https://example.com/a/")
            (js "5") (js " ") (js "URL=") (js "next.html")
            (js "https://example.com/a/next.html")
            (js "/service/https%3A%2F%2Fexample.com%2Fa%2Fnext.html")
            [(js "http-equiv", js "refresh"); (js "content", js "5; URL=next.html")]
            _ _ _ _ _ _ _ _ _ _ _).
  - reflexivity.
  - discriminate.
  - repeat constructor.
  - repeat constructor.
  - reflexivity.
  - discriminate.
  - repeat constructor.
  - reflexivity.
  - vm_compute. reflexivity.
  - repeat constructor.
  - vm_compute. reflexivity.
Defined.

(** X21. The replacement of the meta refresh rule is by text, not by
    position: when the URL of the refresh is written with the same digits
    as the delay, it is the delay that is overwritten with the proxied path,
    and the URL stays as it was. *)
Theorem X21_meta_refresh_overwrites_delay
    (targetOrigin n gap keyword abs proxied : jsstring) (el : Element) :
  getAttribute el (js "content") = Some (refreshPrefix n gap keyword ++ n) ->
  n <> [] -> Forall (fun c => isAsciiDigit c = true) n ->
  Forall (fun c => isWhiteSpace c = true) gap ->
  map URL.asciiLower keyword = js "url=" ->
  resolveUrl targetOrigin n = Normal abs -> is16bit abs ->
  toProxiedPath abs = Normal proxied ->
  metaRefreshHandler targetOrigin el
  = Normal (setAttribute el (js "content")
              (proxied ++ ch ";" :: gap ++ keyword ++ n)).
Proof.
  intros Hg Hn Hdigits Hw Hk Hr H16 Hp.
  assert (Hline : Forall (fun c => isLineTerminator c = false) n).
  { eapply Forall_impl; [|exact Hdigits]. apply MetaRefresh.digit_noLineTerminator. }
  rewrite (MetaRefresh.handler_value targetOrigin el n gap keyword n abs
             proxied Hg Hn Hdigits Hw Hk Hn Hline Hr H16 Hp).
  unfold refreshPrefix. rewrite <- !app_assoc.
  rewrite MetaRefresh.replaceFirst_head. cbn [app]. rewrite <- app_assoc.
  reflexivity.
Qed.

Lemma X21_meta_refresh_overwrites_delay_witness :
  metaRefreshHandler (js "https://example.com/")
    [(js "content", js "2;url=2")]
  = Normal [(js "content", js "/service/https%3A%2F%2Fexample.com%2F2;url=2")].
Proof.
  refine (X21_meta_refresh_overwrites_delay (js "https://example.com/")
            (js "2") [] (js "url=") (js "https://example.com/2")
            (js "/service/https%3A%2F%2Fexample.com%2F2")
            [(js "content", js "2;url=2")] _ _ _ _ _ _ _ _).
  - reflexivity.
  - discriminate.
  - repeat constructor.
  - constructor.
  - reflexivity.
  - vm_compute. reflexivity.
  - repeat constructor.
  - vm_compute. reflexivity.
Defined.

(** X22. A [content] value without a semicolon, such as a plain delay, is
    no refresh with a URL for the pattern: the handler leaves the element as
    it found it. *)
Theorem X22_meta_refresh_without_url
    (targetOrigin content : jsstring) (el : Element) :
  getAttribute el (js "content") = Some content ->
  Forall (fun c => c <> ch ";") content ->
  metaRefreshHandler targetOrigin el = Normal el.
Proof.
  intros Hg H. unfold metaRefreshHandler. rewrite Hg.
  rewrite (MetaRefresh.matchRefresh_none content H).
  destruct content; reflexivity.
Qed.

Lemma X22_meta_refresh_without_url_witness :
  metaRefreshHandler (js "https://example.com/")
    [(js "http-equiv", js "refresh"); (js "content", js "30")]
  = Normal [(js "http-equiv", js "refresh"); (js "content", js "30")].
Proof.
  refine (X22_meta_refresh_without_url (js "https://example.com/") (js "30")
            [(js "http-equiv", js "refresh"); (js "content", js "30")] _ _).
  - reflexivity.
  - repeat constructor; discriminate.
Defined.

(** ** Srcset values beyond the grammar *)

Module SrcsetEdge.





End SrcsetEdge.


(** ** HTML in an encoding that the rewriter refuses *)

Module Charset.



End Charset.


